(** * clamav-api-sdk-go: a shallow embedding of the client SDK

    The development follows the layout of the Go sources:

    - [Go]      : the few pieces of the Go runtime and standard library the
                  SDK relies on (machine integers, slices, error values,
                  [errors.As], [strings.TrimRight], [fmt]'s [%d]).
    - [clamav]  : package [clamav] -- [errors.go] and the REST client of
                  [client.go].
    - [grpc]    : package [grpc] -- the gRPC client of [client.go].
    - [Spec]    : the tables and notions the specification speaks in.

    Definitions come first; the properties of the specification are stated
    and proved after them. *)

From Stdlib Require Import ZArith List String Ascii Bool Lia DecimalString.
Import ListNotations.

Local Open Scope string_scope.
Local Open Scope Z_scope.

(* ===================================================================== *)
(** * Go runtime and standard library *)
(* ===================================================================== *)

Module Go.

(** A byte slice. *)
Definition bytes : Type := list Byte.byte.

(** Go's [error] interface values that occur in the SDK.  A nil [error] is
    [None] in [option error].

    - [ErrorString]: a leaf error without [Unwrap], as made by [errors.New];
    - [Canceled], [DeadlineExceeded], [EOF]: the sentinels
      [context.Canceled], [context.DeadlineExceeded] and [io.EOF], which
      the code compares by identity;
    - [WrapError]: a decorator with [Unwrap() error], as made by
      [fmt.Errorf("...: %w", err)]; [msg] is the complete formatted text;
    - [URLError], [OpError], [DNSError]: [*url.Error], [*net.OpError] and
      [*net.DNSError], the errors [http.Client.Do] reports;
    - [StatusError]: a gRPC status error, as made by [status.Error];
    - [PtrError]: a [*clamav.Error] with its four fields. *)
#[warnings="-register-all"]
Inductive error : Type :=
| ErrorString (s : string)
| Canceled
| DeadlineExceeded
| EOF
| WrapError (msg : string) (err : error)
| URLError (Op URL : string) (Err : error)
| OpError (Op : string) (Err : error)
| DNSError (Err Name : string) (IsTimeout : bool)
| StatusError (code : N) (msg : string)
| PtrError (Code Message : string) (StatusCode : Z) (Cause : option error).

(** Identity of the three sentinels ([err == context.Canceled], ...). *)
Definition is_Canceled (err : error) : bool :=
  match err with Canceled => true | _ => false end.
Definition is_DeadlineExceeded (err : error) : bool :=
  match err with DeadlineExceeded => true | _ => false end.
Definition is_EOF (err : error) : bool :=
  match err with EOF => true | _ => false end.

(** [fmt.Sprintf("%d", z)]. *)
Definition sprint_d (z : Z) : string := NilZero.string_of_int (Z.to_int z).

(** The double quote character, for [%q]. *)
Definition dquote : string := String (ascii_of_nat 34) EmptyString.

(** [codes.Code.String()] of google.golang.org/grpc/codes. *)
Definition code_String (c : N) : string :=
  match c with
  | 0%N => "OK"
  | 1%N => "Canceled"
  | 2%N => "Unknown"
  | 3%N => "InvalidArgument"
  | 4%N => "DeadlineExceeded"
  | 5%N => "NotFound"
  | 6%N => "AlreadyExists"
  | 7%N => "PermissionDenied"
  | 8%N => "ResourceExhausted"
  | 9%N => "FailedPrecondition"
  | 10%N => "Aborted"
  | 11%N => "OutOfRange"
  | 12%N => "Unimplemented"
  | 13%N => "Internal"
  | 14%N => "Unavailable"
  | 15%N => "DataLoss"
  | 16%N => "Unauthenticated"
  | _ => "Code(" ++ sprint_d (Z.of_N c) ++ ")"
  end.

(** The method [Error() string].  For [*clamav.Error] this is the method of
    [errors.go]:
<<
    if e.Cause != nil { return fmt.Sprintf("%s: %v", e.Message, e.Cause) }
    return e.Message
>> *)
Fixpoint error_Error (err : error) : string :=
  match err with
  | ErrorString s => s
  | Canceled => "context canceled"
  | DeadlineExceeded => "context deadline exceeded"
  | EOF => "EOF"
  | WrapError msg _ => msg
  | URLError op url e => op ++ " " ++ dquote ++ url ++ dquote ++ ": " ++ error_Error e
  | OpError op e => op ++ ": " ++ error_Error e
  | DNSError e name _ => "lookup " ++ name ++ ": " ++ e
  | StatusError c msg => "rpc error: code = " ++ code_String c ++ " desc = " ++ msg
  | PtrError _ Message _ Cause =>
      match Cause with
      | Some cause => Message ++ ": " ++ error_Error cause
      | None => Message
      end
  end.

(** The method [Unwrap() error], for the errors that have one. *)
Definition error_Unwrap (err : error) : option error :=
  match err with
  | WrapError _ inner | URLError _ _ inner | OpError _ inner => Some inner
  | PtrError _ _ _ Cause => Cause
  | _ => None
  end.

(** The method [Timeout() bool], false for the errors that have none. *)
Fixpoint error_Timeout (err : error) : bool :=
  match err with
  | DeadlineExceeded => true
  | URLError _ _ e | OpError _ e => error_Timeout e
  | DNSError _ _ t => t
  | _ => false
  end.

(** The walk of [errors.As] and [errors.Is]: try [p] on the error, then on
    what it unwraps to, from the outside in; the first hit wins. *)
Fixpoint chain_find {A : Type} (p : error -> option A) (err : error) : option A :=
  match p err with
  | Some a => Some a
  | None =>
      match err with
      | WrapError _ inner | URLError _ _ inner | OpError _ inner => chain_find p inner
      | PtrError _ _ _ (Some cause) => chain_find p cause
      | _ => None
      end
  end.

(** [errors.Is(err, target)] for a sentinel recognised by [is_target]. *)
Definition errors_Is (is_target : error -> bool) (err : error) : bool :=
  match chain_find (fun e => if is_target e then Some tt else None) err with
  | Some _ => true
  | None => false
  end.

(** [float64] values are carried as their decimal literal; the SDK does no
    arithmetic on them. *)
Definition float64 : Type := string.

(** [context.Context], as far as the SDK looks at it: the deadline it
    carries, if any, and whether it is already done when the call starts. *)
Record Context : Type := mkContext {
  Deadline : option Z;
  Done : option error
}.

(** An [io.Reader] positioned at its start: it yields [rd_data] and then
    reports [rd_err], or [io.EOF] when [rd_err] is [None]. *)
Record Reader : Type := mkReader {
  rd_data : bytes;
  rd_err : option error
}.

(** [bytes.NewReader(data)]. *)
Definition bytes_NewReader (data : bytes) : Reader :=
  {| rd_data := data; rd_err := None |}.

(** [io.Copy(dst, r)] into a destination that accepts every write: the
    bytes copied and the error of the copy.  The copy reads until the
    reader reports an error; [io.EOF] (compared by identity) ends it and is
    not reported, any other error is returned. *)
Definition io_Copy (r : Reader) : bytes * option error :=
  (rd_data r,
   match rd_err r with
   | Some e => if is_EOF e then None else Some e
   | None => None
   end).

(** ** Strings *)

Definition byte_in (c : ascii) (cutset : string) : bool :=
  existsb (Ascii.eqb c) (list_ascii_of_string cutset).

(** [strings.TrimRight(s, cutset)] for an ASCII cutset: [s] without its
    longest suffix made of bytes of [cutset]. *)
Fixpoint TrimRight (s cutset : string) : string :=
  match s with
  | EmptyString => EmptyString
  | String c rest =>
      match TrimRight rest cutset with
      | EmptyString => if byte_in c cutset then EmptyString else String c EmptyString
      | kept => String c kept
      end
  end.

(** [strings.HasPrefix] and [strings.HasSuffix]. *)
Definition HasPrefix (s p : string) : bool := String.prefix p s.

Fixpoint HasSuffix (s p : string) : bool :=
  String.eqb s p ||
  match s with
  | EmptyString => false
  | String _ rest => HasSuffix rest p
  end.

(** [strings.Cut(s, sep)] for a one-byte separator. *)
Fixpoint Cut (s : string) (sep : ascii) : string * string * bool :=
  match s with
  | EmptyString => (EmptyString, EmptyString, false)
  | String c rest =>
      if Ascii.eqb c sep then (EmptyString, rest, true)
      else let '(before, after, found) := Cut rest sep in
           (String c before, after, found)
  end.

(** [strings.Count(s, sep)] and [strings.Contains(s, sep)] for one byte. *)
Fixpoint Count (s : string) (sep : ascii) : nat :=
  match s with
  | EmptyString => O
  | String c rest => ((if Ascii.eqb c sep then 1 else 0) + Count rest sep)%nat
  end.

Definition Contains (s : string) (sep : ascii) : bool := negb (Nat.eqb (Count s sep) 0).

(** The split of [s] at its last [sep]: [strings.LastIndex] followed by
    the two slice expressions [s[:i]] and [s[i+1:]]. *)
Fixpoint CutLast (s : string) (sep : ascii) : option (string * string) :=
  match s with
  | EmptyString => None
  | String c rest =>
      match CutLast rest sep with
      | Some (before, after) => Some (String c before, after)
      | None => if Ascii.eqb c sep then Some (EmptyString, rest) else None
      end
  end.

Definition is_upper (c : ascii) : bool :=
  let n := nat_of_ascii c in (65 <=? n)%nat && (n <=? 90)%nat.
Definition is_lower (c : ascii) : bool :=
  let n := nat_of_ascii c in (97 <=? n)%nat && (n <=? 122)%nat.
Definition is_digit (c : ascii) : bool :=
  let n := nat_of_ascii c in (48 <=? n)%nat && (n <=? 57)%nat.

(** [strings.ToLower] on ASCII text. *)
Fixpoint ToLower (s : string) : string :=
  match s with
  | EmptyString => EmptyString
  | String c rest =>
      String (if is_upper c then ascii_of_nat (nat_of_ascii c + 32) else c) (ToLower rest)
  end.

(** [textproto.CanonicalMIMEHeaderKey]: a key made of header-field bytes
    only has the first letter and every letter after a hyphen in upper
    case and the other letters in lower case; any other key is returned as
    it is. *)
Definition validHeaderFieldByte (c : ascii) : bool :=
  is_lower c || is_upper c || is_digit c || byte_in c "!#$%&'*+-.^_`|~".

Fixpoint canonical_from (upper : bool) (s : string) : string :=
  match s with
  | EmptyString => EmptyString
  | String c rest =>
      let c := if upper && is_lower c then ascii_of_nat (nat_of_ascii c - 32)
               else if negb upper && is_upper c then ascii_of_nat (nat_of_ascii c + 32)
               else c in
      String c (canonical_from (Ascii.eqb c "-") rest)
  end.

Definition CanonicalMIMEHeaderKey (s : string) : string :=
  if forallb validHeaderFieldByte (list_ascii_of_string s)
  then canonical_from true s
  else s.

(** Go's [(value, error)] results. *)
Inductive result (A : Type) : Type :=
| Ok (a : A)
| Err (e : error).
Arguments Ok {A} a.
Arguments Err {A} e.

(** ** net/url

    [url.Parse] belongs to Go's standard library.  The REST client is
    written against an arbitrary parser (a section variable); [url_Parse]
    below is a model of the library function for the addresses used in the
    concrete scenarios.  It follows [net/url]'s [Parse], [getScheme],
    [parseAuthority] and [parseHost] for scheme, query, fragment, opaque
    part, authority and port; percent-escapes, user-info syntax and the
    zone of a bracketed literal are taken as they are, not validated. *)
Record URL : Type := mkURL {
  Scheme : string;
  Opaque : string;
  Host : string;
  Path : string;
  RawQuery : string;
  Fragment : string
}.

Definition is_CTL (c : ascii) : bool :=
  let n := nat_of_ascii c in (n <? 32)%nat || (n =? 127)%nat.

Definition stringContainsCTLByte (s : string) : bool :=
  existsb is_CTL (list_ascii_of_string s).

(** [getScheme]: [seen] is [rawURL[:i]] and [rest] is [rawURL[i:]]. *)
Fixpoint getScheme_loop (rawURL : string) (i : nat) (seen rest : string)
    : result (string * string) :=
  match rest with
  | EmptyString => Ok (EmptyString, rawURL)
  | String c tail =>
      if is_lower c || is_upper c then
        getScheme_loop rawURL (S i) (seen ++ String c EmptyString) tail
      else if is_digit c || byte_in c "+-." then
        if Nat.eqb i 0 then Ok (EmptyString, rawURL)
        else getScheme_loop rawURL (S i) (seen ++ String c EmptyString) tail
      else if Ascii.eqb c ":" then
        if Nat.eqb i 0 then Err (ErrorString "missing protocol scheme")
        else Ok (seen, tail)
      else Ok (EmptyString, rawURL)
  end.

Definition getScheme (rawURL : string) : result (string * string) :=
  getScheme_loop rawURL 0 EmptyString rawURL.

(** [s[:len(s)-1]]. *)
Fixpoint drop_last (s : string) : string :=
  match s with
  | EmptyString => EmptyString
  | String c EmptyString => EmptyString
  | String c rest => String c (drop_last rest)
  end.

Definition all_digits (s : string) : bool :=
  forallb is_digit (list_ascii_of_string s).

(** [validOptionalPort]: empty, or a colon followed by digits. *)
Definition validOptionalPort (port : string) : bool :=
  match port with
  | EmptyString => true
  | String c rest => Ascii.eqb c ":" && all_digits rest
  end.

Definition invalid_port (colonPort : string) : error :=
  ErrorString ("invalid port " ++ dquote ++ colonPort ++ dquote ++ " after host").

Definition parseHost (host : string) : result string :=
  if HasPrefix host "[" then
    match CutLast host "]" with
    | None => Err (ErrorString "missing ']' in host")
    | Some (_, colonPort) =>
        if validOptionalPort colonPort then Ok host else Err (invalid_port colonPort)
    end
  else
    match CutLast host ":" with
    | Some (_, port) =>
        if all_digits port then Ok host else Err (invalid_port (":" ++ port))
    | None => Ok host
    end.

Definition parseAuthority (authority : string) : result string :=
  match CutLast authority "@" with
  | None => parseHost authority
  | Some (_, host) => parseHost host
  end.

(** [parse(rawURL, false)]. *)
Definition url_parse (rawURL : string) : result URL :=
  if stringContainsCTLByte rawURL then
    Err (ErrorString "net/url: invalid control character in URL")
  else if String.eqb rawURL "*" then
    Ok (mkURL "" "" "" "*" "" "")
  else
    match getScheme rawURL with
    | Err e => Err e
    | Ok (scheme, rest) =>
        let scheme := ToLower scheme in
        let '(rest, rawQuery) :=
          if HasSuffix rest "?" && Nat.eqb (Count rest "?") 1
          then (drop_last rest, EmptyString)
          else let '(before, after, _) := Cut rest "?" in (before, after) in
        let colon_in_first_segment :=
          let '(segment, _, _) := Cut rest "/" in Contains segment ":" in
        if negb (HasPrefix rest "/") && negb (String.eqb scheme "") then
          Ok (mkURL scheme rest "" "" rawQuery "")
        else if negb (HasPrefix rest "/") && colon_in_first_segment then
          Err (ErrorString "first path segment in URL cannot contain colon")
        else if (negb (String.eqb scheme "") || negb (HasPrefix rest "///"))
                && HasPrefix rest "//" then
          let authority := substring 2 (String.length rest - 2) rest in
          let '(authority, rest) :=
            let '(before, after, found) := Cut authority "/" in
            if found then (before, "/" ++ after) else (authority, EmptyString) in
          match parseAuthority authority with
          | Err e => Err e
          | Ok host => Ok (mkURL scheme "" host rest rawQuery "")
          end
        else Ok (mkURL scheme "" "" rest rawQuery "")
    end.

(** [url.Parse]: cut the fragment off, parse the rest, and wrap a failure
    in a [*url.Error]. *)
Definition url_Parse (rawURL : string) : result URL :=
  let '(u, frag, _) := Cut rawURL "#" in
  match url_parse u with
  | Err e => Err (URLError "parse" u e)
  | Ok url => Ok (mkURL (Scheme url) (Opaque url) (Host url) (Path url) (RawQuery url) frag)
  end.

(** ** Machine integers and slices

    [int] is 64 bits wide on the platforms the SDK targets; arithmetic on
    it wraps around. *)
Definition max_int : Z := 2 ^ 63 - 1.
Definition min_int : Z := - 2 ^ 63.

Definition wrap_int (z : Z) : Z := (z + 2 ^ 63) mod 2 ^ 64 - 2 ^ 63.

Definition int_add (a b : Z) : Z := wrap_int (a + b).

(** The largest slice the runtime can allocate on a 64-bit platform
    (the runtime's [maxAlloc], 48 address bits); no [[]byte] is longer. *)
Definition maxAlloc : Z := 2 ^ 48.

(** [len(data)]. *)
Definition len (data : bytes) : Z := Z.of_nat (List.length data).

(** How a piece of straight-line Go code ends: it returns, or it panics. *)
Inductive outcome (A : Type) : Type :=
| Return (a : A)
| Panic.
Arguments Return {A} a.
Arguments Panic {A}.

(** The slice expression [data[lo:hi]]; out of range it panics.  (The
    upper bound Go checks is [cap(data)]; the SDK only slices up to
    [len(data)].) *)
Definition slice (data : bytes) (lo hi : Z) : outcome bytes :=
  if (0 <=? lo) && (lo <=? hi) && (hi <=? len data)
  then Return (firstn (Z.to_nat (hi - lo)) (skipn (Z.to_nat lo) data))
  else Panic.

(** ** Computations in a world

    A call of the SDK runs against a world [W] (the network, the server)
    and may change it. *)
Definition State (W A : Type) : Type := W -> A * W.

Definition ret {W A : Type} (a : A) : State W A := fun w => (a, w).

Definition bind {W A B : Type} (m : State W A) (k : A -> State W B) : State W B :=
  fun w => let (a, w') := m w in k a w'.

Notation "x <- m ;; k" := (bind m (fun x => k))
  (at level 61, m at next level, right associativity).

(** ** path/filepath

    [filepath.Base] on a platform whose separator is the slash and whose
    paths have no volume name: the last element of the path, after the
    trailing slashes are removed. *)
Definition filepath_Base (path : string) : string :=
  if String.eqb path "" then "."
  else
    let path := TrimRight path "/" in
    let path := match CutLast path "/" with
                | Some (_, after) => after
                | None => path
                end in
    if String.eqb path "" then "/" else path.

End Go.

(* ===================================================================== *)
(** * Package clamav: errors.go *)
(* ===================================================================== *)

Module clamav.
Import Go.

(** Error codes for machine-readable error classification. *)
Definition CodeConnection : string := "connection_error".
Definition CodeTimeout    : string := "timeout".
Definition CodeValidation : string := "validation_error".
Definition CodeService    : string := "service_error".

(** [Error] is the base error type for all SDK errors. *)
Record Error : Type := mkError {
  Code : string;
  Message : string;
  StatusCode : Z;
  Cause : option error
}.

(** A [*Error] used as an [error] interface value. *)
Definition as_error (e : Error) : error :=
  PtrError (Code e) (Message e) (StatusCode e) (Cause e).

(** [func (e *Error) Unwrap() error { return e.Cause }] *)
Definition Unwrap (e : Error) : option error := Cause e.

(** The constructors.  A field that the Go composite literal leaves out
    has its zero value. *)
Definition NewConnectionError (msg : string) (cause : option error) : Error :=
  {| Code := CodeConnection; Message := msg; StatusCode := 0; Cause := cause |}.

Definition NewTimeoutError (msg : string) (cause : option error) : Error :=
  {| Code := CodeTimeout; Message := msg; StatusCode := 0; Cause := cause |}.

Definition NewValidationError (msg : string) (cause : option error) : Error :=
  {| Code := CodeValidation; Message := msg; StatusCode := 0; Cause := cause |}.

Definition NewServiceError (msg : string) (statusCode : Z) (cause : option error) : Error :=
  {| Code := CodeService; Message := msg; StatusCode := statusCode; Cause := cause |}.

(** [errors.As(err, &e)] for a target [e] of type [*Error]: walk the
    [Unwrap] chain from the outside and stop at the first value whose
    dynamic type is [*Error]. *)
Definition is_PtrError (err : error) : option Error :=
  match err with
  | PtrError c m s cause => Some (mkError c m s cause)
  | _ => None
  end.

Definition errors_As (err : option error) : option Error :=
  match err with
  | None => None
  | Some e => chain_find is_PtrError e
  end.

(** IsConnectionError reports whether err is or wraps a connection error. *)
Definition IsConnectionError (err : option error) : bool :=
  match errors_As err with
  | Some e => String.eqb (Code e) CodeConnection
  | None => false
  end.

(** IsTimeoutError reports whether err is or wraps a timeout error. *)
Definition IsTimeoutError (err : option error) : bool :=
  match errors_As err with
  | Some e => String.eqb (Code e) CodeTimeout
  | None => false
  end.

(** IsValidationError reports whether err is or wraps a validation error. *)
Definition IsValidationError (err : option error) : bool :=
  match errors_As err with
  | Some e => String.eqb (Code e) CodeValidation
  | None => false
  end.

(** IsServiceError reports whether err is or wraps a service error. *)
Definition IsServiceError (err : option error) : bool :=
  match errors_As err with
  | Some e => String.eqb (Code e) CodeService
  | None => false
  end.

(** The four kinds of the taxonomy, to speak about "every kind X". *)
Inductive Kind : Type := Connection | Timeout | Validation | Service.

Definition Kind_eqb (a b : Kind) : bool :=
  match a, b with
  | Connection, Connection | Timeout, Timeout
  | Validation, Validation | Service, Service => true
  | _, _ => false
  end.

Definition kind_code (k : Kind) : string :=
  match k with
  | Connection => CodeConnection
  | Timeout => CodeTimeout
  | Validation => CodeValidation
  | Service => CodeService
  end.

(** The kind an [Error] value has, read off its [Code]. *)
Definition kind_of (e : Error) : option Kind :=
  if String.eqb (Code e) CodeConnection then Some Connection
  else if String.eqb (Code e) CodeTimeout then Some Timeout
  else if String.eqb (Code e) CodeValidation then Some Validation
  else if String.eqb (Code e) CodeService then Some Service
  else None.

(** [NewXError] and [IsXError], indexed by the kind X. *)
Definition NewKindError (k : Kind) (msg : string) (statusCode : Z)
    (cause : option error) : Error :=
  match k with
  | Connection => NewConnectionError msg cause
  | Timeout => NewTimeoutError msg cause
  | Validation => NewValidationError msg cause
  | Service => NewServiceError msg statusCode cause
  end.

Definition IsKindError (k : Kind) : option error -> bool :=
  match k with
  | Connection => IsConnectionError
  | Timeout => IsTimeoutError
  | Validation => IsValidationError
  | Service => IsServiceError
  end.

(** A decorator that is not an SDK error: context text around an error
    ([fmt.Errorf(msg + ": %w", err)]), or one of the standard library's
    wrappers. *)
Inductive Decorator : Type :=
| WithText (msg : string)
| InURLError (Op URL : string)
| InOpError (Op : string).

Definition wrap_in (d : Decorator) (err : error) : error :=
  match d with
  | WithText msg => WrapError msg err
  | InURLError op url => URLError op url err
  | InOpError op => OpError op err
  end.

(** Decorating an error any number of times, the outermost decorator
    first. *)
Definition decorate (ds : list Decorator) (err : error) : error :=
  fold_right wrap_in err ds.

(** [reaches outer inner]: following [Unwrap] from [outer] zero or more
    times arrives at [inner]. *)
Inductive reaches : error -> error -> Prop :=
| reaches_here : forall e, reaches e e
| reaches_step : forall outer mid inner,
    error_Unwrap outer = Some mid -> reaches mid inner -> reaches outer inner.

(** An error foreign to the SDK: no [*Error] anywhere on its [Unwrap]
    chain. *)
Fixpoint foreign (err : error) : bool :=
  match err with
  | PtrError _ _ _ _ => false
  | WrapError _ inner | URLError _ _ inner | OpError _ inner => foreign inner
  | _ => true
  end.

(* ===================================================================== *)
(** * Package clamav: result types *)
(* ===================================================================== *)

(** ScanResult represents the result of a virus scan. *)
Record ScanResult : Type := mkScanResult {
  Status : string;
  sr_Message : string;
  ScanTime : float64;
  Filename : string
}.

Definition IsInfected (r : ScanResult) : bool := String.eqb (Status r) "FOUND".
Definition IsClean (r : ScanResult) : bool := String.eqb (Status r) "OK".

(** HealthCheckResult represents the health status of the ClamAV service. *)
Record HealthCheckResult : Type := mkHealthCheckResult {
  Healthy : bool;
  hc_Message : string
}.

(** FileInput represents a file to scan (used by ScanMultiple). *)
Record FileInput : Type := mkFileInput {
  Data : bytes;
  fi_Filename : string
}.

(* ===================================================================== *)
(** * Package clamav: client.go (REST) *)
(* ===================================================================== *)

Definition defaultTimeout : Z := 30 * 1000000000.

Definition pathHealthCheck : string := "/api/health-check".
Definition pathVersion     : string := "/api/version".
Definition pathScan        : string := "/api/scan".
Definition pathStreamScan  : string := "/api/stream-scan".

(** ** The HTTP exchange

    A request as the client hands it to [http.Client.Do], the response it
    gets back, and the world the calls run in.  The world records every
    request given to [Do], in order: a call has touched the network iff it
    has extended [calls]. *)

Record FormFile : Type := mkFormFile {
  FieldName : string;
  FileName : string;
  Content : bytes
}.

Inductive RequestBody : Type :=
| NoBody
| Multipart (boundary : string) (parts : list FormFile)
| Stream (r : Reader).

Record Request : Type := mkRequest {
  Method : string;
  URL : string;
  Ctx : Context;
  Header : list (string * string);
  (** [Some n] once the client has assigned [req.ContentLength = n]. *)
  ContentLength : option Z;
  Body : RequestBody
}.

(** A JSON value of an object member, as far as the decoders look: a
    string, a number within the range of [float64], a number literal
    outside it, a boolean, [null], an object, an array. *)
Inductive JValue : Type :=
| JString (s : string)
| JNumber (lit : float64)
| JBigNumber (lit : string)
| JBool (b : bool)
| JNull
| JNested
| JArray.

(** A response body as [json.Decoder.Decode] sees it: a document it cannot
    decode into a struct, or an object with its members in order. *)
Inductive ResponseBody : Type :=
| Malformed (err : error)
| JObject (members : list (string * JValue)).

Record Response : Type := mkResponse {
  resp_StatusCode : Z;
  resp_Body : ResponseBody
}.

Record World : Type := mkWorld {
  (** what the server and the network answer to a request *)
  transport : Request -> result Response;
  (** the requests handed to [Do] so far *)
  calls : list Request;
  (** the boundary the next [multipart.NewWriter] draws *)
  boundary : string
}.

(** Computations that may call the network. *)
Definition M : Type -> Type := State World.

(** [c.httpClient.Do(req)]. *)
Definition http_Do (req : Request) : M (result Response) :=
  fun w => (transport w req, mkWorld (transport w) (calls w ++ [req]) (boundary w)).

(** [multipart.NewWriter(&buf)]: the writer's boundary. *)
Definition multipart_NewWriter : M string :=
  fun w => (boundary w, w).

(** [http.Header.Set]: the value replaces what the header holds under the
    canonical form of the key. *)
Definition Header_Set (k v : string) (h : list (string * string)) : list (string * string) :=
  let k := CanonicalMIMEHeaderKey k in
  (k, v) :: filter (fun kv => negb (String.eqb (fst kv) k)) h.

(** ** encoding/json

    [json.NewDecoder(r).Decode(&v)] for a struct [v] whose fields are
    strings and [float64]s.  The members of the object are stored one after
    the other, in the order of the document:
    - a key belongs to the field of that name, or else to the field whose
      name it equals under case folding; other members are skipped;
    - a string goes into a string field and a number into a [float64]
      field; [null] leaves the field as it is; any other value leaves the
      field as it is and is a type error;
    - the first type error is the error of the call, reported after the
      whole object has been read. *)

(** The fold of a key for the case-insensitive match: ASCII letters in one
    case, the Kelvin sign (U+212A, in UTF-8 [E2 84 AA]) with [k] and the
    long s (U+017F, [C5 BF]) with [s]; no other letter folds to an ASCII
    one. *)
Fixpoint foldName (s : string) : string :=
  match s with
  | EmptyString => EmptyString
  | String c1 rest =>
      let plain :=
        String (if is_upper c1 then ascii_of_nat (nat_of_ascii c1 + 32) else c1)
               (foldName rest) in
      match rest with
      | String c2 rest2 =>
          if Nat.eqb (nat_of_ascii c1) 197 && Nat.eqb (nat_of_ascii c2) 191 then
            String "s" (foldName rest2)
          else
            match rest2 with
            | String c3 rest3 =>
                if Nat.eqb (nat_of_ascii c1) 226 && Nat.eqb (nat_of_ascii c2) 132
                   && Nat.eqb (nat_of_ascii c3) 170
                then String "k" (foldName rest3)
                else plain
            | EmptyString => plain
            end
      | EmptyString => plain
      end
  end.

Inductive FieldType : Type := string_field | float64_field.

Definition type_String (t : FieldType) : string :=
  match t with string_field => "string" | float64_field => "float64" end.

(** The zero value of a field; a [float64] is carried as its literal. *)
Definition zero_value (t : FieldType) : string :=
  match t with string_field => EmptyString | float64_field => "0" end.

(** The field a key belongs to: by its exact name, or else by its fold. *)
Definition find_field (fields : list (string * FieldType)) (key : string)
    : option (string * FieldType) :=
  match find (fun f => String.eqb (fst f) key) fields with
  | Some f => Some f
  | None => find (fun f => String.eqb (foldName (fst f)) (foldName key)) fields
  end.

(** [*json.UnmarshalTypeError] and its text. *)
Definition UnmarshalTypeError (value struct_ field type_ : string) : error :=
  ErrorString ("json: cannot unmarshal " ++ value ++ " into Go struct field "
                 ++ struct_ ++ "." ++ field ++ " of type " ++ type_).

(** Storing a value into a field that holds [old]: what the field holds
    afterwards, or the description of the value in the type error. *)
Definition store (t : FieldType) (v : JValue) (old : string) : string + string :=
  match v, t with
  | JNull, _ => inl old
  | JString s, string_field => inl s
  | JNumber lit, float64_field => inl lit
  | JBigNumber lit, float64_field => inr ("number " ++ lit)
  | JString _, float64_field => inr "string"
  | JNumber _, string_field | JBigNumber _, string_field => inr "number"
  | JBool _, _ => inr "bool"
  | JNested, _ => inr "object"
  | JArray, _ => inr "array"
  end.

(** The members of the object, one after the other.  [values] is what the
    fields hold, [saved] the first type error so far. *)
Fixpoint decode_members (struct_ : string) (fields : list (string * FieldType))
    (members : list (string * JValue)) (values : string -> string)
    (saved : option error) : (string -> string) * option error :=
  match members with
  | [] => (values, saved)
  | (key, v) :: rest =>
      match find_field fields key with
      | None => decode_members struct_ fields rest values saved
      | Some (name, t) =>
          match store t v (values name) with
          | inl new =>
              decode_members struct_ fields rest
                (fun n => if String.eqb n name then new else values n) saved
          | inr value =>
              decode_members struct_ fields rest values
                (match saved with
                 | Some e => Some e
                 | None => Some (UnmarshalTypeError value struct_ name (type_String t))
                 end)
          end
      end
  end.

(** Decoding an object into a zero struct named [struct_] (empty for an
    anonymous struct): what its fields hold, or the error. *)
Definition decode_struct (struct_ : string) (fields : list (string * FieldType))
    (members : list (string * JValue)) : result (string -> string) :=
  let zero := fun n => match find (fun f => String.eqb (fst f) n) fields with
                       | Some (_, t) => zero_value t
                       | None => EmptyString
                       end in
  match decode_members struct_ fields members zero None with
  | (_, Some e) => Err e
  | (values, None) => Ok values
  end.

(** [json.NewDecoder(resp.Body).Decode(&body)] for
    [struct { Message string `json:"message"` }]. *)
Definition decode_message (b : ResponseBody) : result string :=
  match b with
  | Malformed e => Err e
  | JObject members =>
      match decode_struct "" [("message", string_field)] members with
      | Ok body => Ok (body "message")
      | Err e => Err e
      end
  end.

(** The same for
    [struct { Status string `json:"status"`; Message string `json:"message"` }]. *)
Definition decode_status_message (b : ResponseBody) : result (string * string) :=
  match b with
  | Malformed e => Err e
  | JObject members =>
      match decode_struct "" [("status", string_field); ("message", string_field)]
              members with
      | Ok body => Ok (body "status", body "message")
      | Err e => Err e
      end
  end.

(** The same for [ScanResult]. *)
Definition decode_ScanResult (b : ResponseBody) : result ScanResult :=
  match b with
  | Malformed e => Err e
  | JObject members =>
      match decode_struct "ScanResult"
              [("status", string_field); ("message", string_field);
               ("time", float64_field); ("filename", string_field)] members with
      | Ok r => Ok (mkScanResult (r "status") (r "message") (r "time") (r "filename"))
      | Err e => Err e
      end
  end.

(** Client is the REST client for the ClamAV API. *)
Record Client : Type := mkClient {
  baseURL : string;
  (** [Some t]: an [*http.Client] whose [Timeout] is [t]; [None]: nil *)
  httpClient : option Z;
  timeout : Z;
  headers : list (string * string)
}.

(** ClientOption configures the REST client ([options.go]). *)
Inductive ClientOption : Type :=
| WithHTTPClient (hc : option Z)
| WithTimeout (d : Z)
| WithHeaders (headers : option (list (string * string))).

Definition apply_option (opt : ClientOption) (c : Client) : Client :=
  match opt with
  | WithHTTPClient hc => mkClient (baseURL c) hc (timeout c) (headers c)
  | WithTimeout d =>
      if d >? 0 then mkClient (baseURL c) (httpClient c) d (headers c) else c
  | WithHeaders None => mkClient (baseURL c) (httpClient c) (timeout c) []
  | WithHeaders (Some h) => mkClient (baseURL c) (httpClient c) (timeout c) h
  end.

Section RestClient.

(** [url.Parse] of the standard library. *)
Variable url_Parse : string -> result Go.URL.

(** NewClient creates a REST client for the ClamAV API. *)
Definition NewClient (baseURL : string) (opts : list ClientOption) : result Client :=
  let baseURL := TrimRight baseURL "/" in
  match url_Parse baseURL with
  | Err err =>
      Err (as_error (NewValidationError ("invalid base URL: " ++ baseURL) (Some err)))
  | Ok u =>
      if String.eqb (Scheme u) "" || String.eqb (Host u) "" then
        Err (as_error (NewValidationError
               ("base URL must include scheme and host: " ++ baseURL) None))
      else
        let c := mkClient baseURL None defaultTimeout [] in
        let c := fold_left (fun c opt => apply_option opt c) opts c in
        let c := match httpClient c with
                 | None => mkClient (clamav.baseURL c) (Some (timeout c)) (timeout c) (headers c)
                 | Some _ => c
                 end in
        Ok c
  end.

(** newRequest creates an HTTP request with context, base URL, and default
    headers.  [http.NewRequestWithContext] is given a constant method and a
    non-nil context; it fails when the URL does not parse. *)
Definition newRequest (c : Client) (ctx : Context) (method path : string)
    (body : RequestBody) : result Request :=
  match url_Parse (baseURL c ++ path) with
  | Err err => Err (as_error (NewConnectionError "failed to create request" (Some err)))
  | Ok _ =>
      let h := fold_left (fun h kv => Header_Set (fst kv) (snd kv) h) (headers c) [] in
      Ok (mkRequest method (baseURL c ++ path) ctx h None body)
  end.

(** [errors.As(err, &target)] as a test, for a target type recognised by
    [has_type]. *)
Definition errors_As_type (has_type : error -> bool) (err : error) : bool :=
  match chain_find (fun e => if has_type e then Some e else None) err with
  | Some _ => true
  | None => false
  end.

Definition is_OpError (err : error) : bool :=
  match err with OpError _ _ => true | _ => false end.
Definition is_DNSError (err : error) : bool :=
  match err with DNSError _ _ _ => true | _ => false end.
Definition is_URLError (err : error) : option (error * error) :=
  match err with URLError _ _ inner => Some (err, inner) | _ => None end.

(** The tail of classifyTransportError: network errors (connection
    refused, DNS, etc.) and the fallback. *)
Definition classifyNetworkError (err : error) : error :=
  if errors_As_type is_OpError err then
    as_error (NewConnectionError "connection failed" (Some err))
  else if errors_As_type is_DNSError err then
    as_error (NewConnectionError "DNS resolution failed" (Some err))
  else as_error (NewConnectionError "request failed" (Some err)).

(** classifyTransportError maps Go transport errors to SDK error types. *)
Definition classifyTransportError (err : option error) : option error :=
  match err with
  | None => None
  | Some err =>
      if is_Canceled err then
        Some (as_error (NewTimeoutError "request canceled" (Some err)))
      else if is_DeadlineExceeded err then
        Some (as_error (NewTimeoutError "request timed out" (Some err)))
      else
        match chain_find is_URLError err with
        | Some (urlErr, urlErr_Err) =>
            if error_Timeout urlErr then
              Some (as_error (NewTimeoutError "request timed out" (Some err)))
            else if errors_Is is_Canceled urlErr_Err then
              Some (as_error (NewTimeoutError "request canceled" (Some err)))
            else if errors_Is is_DeadlineExceeded urlErr_Err then
              Some (as_error (NewTimeoutError "request timed out" (Some err)))
            else Some (classifyNetworkError err)
        | None => Some (classifyNetworkError err)
        end
  end.

(** do executes an HTTP request and maps transport errors to SDK error
    types. *)
Definition do (c : Client) (req : Request) : M (result Response) :=
  r <- http_Do req ;;
  match r with
  | Err err =>
      match classifyTransportError (Some err) with
      | Some e => ret (Err e)
      | None => ret (Err err)
      end
  | Ok resp => ret (Ok resp)
  end.

(** handleErrorResponse maps HTTP error responses to SDK error types.  The
    Go function returns the [*Error] as an [error]; the embedding keeps
    the record. *)
Definition handleErrorResponse (c : Client) (resp : Response) : Error :=
  match decode_status_message (resp_Body resp) with
  | Err err =>
      NewServiceError
        ("unexpected status " ++ sprint_d (resp_StatusCode resp)
           ++ " and failed to decode error response")
        (resp_StatusCode resp) (Some err)
  | Ok (status, message) =>
      let msg := if String.eqb message "" then status else message in
      match resp_StatusCode resp with
      | 400 => NewValidationError msg None
      | 413 => NewValidationError msg None
      | 499 => NewTimeoutError msg None
      | 502 => NewServiceError msg (resp_StatusCode resp) None
      | 504 => NewTimeoutError msg None
      | _ =>
          NewServiceError
            ("unexpected status " ++ sprint_d (resp_StatusCode resp) ++ ": " ++ msg)
            (resp_StatusCode resp) None
      end
  end.

(** doScan executes a scan request and parses the response. *)
Definition doScan (c : Client) (req : Request) : M (result ScanResult) :=
  r <- do c req ;;
  match r with
  | Err err => ret (Err err)
  | Ok resp =>
      if negb (resp_StatusCode resp =? 200) then
        ret (Err (as_error (handleErrorResponse c resp)))
      else
        match decode_ScanResult (resp_Body resp) with
        | Err err =>
            ret (Err (as_error (NewServiceError "failed to decode scan response"
                                  (resp_StatusCode resp) (Some err))))
        | Ok result => ret (Ok result)
        end
  end.

(** HealthCheck checks if the ClamAV service is healthy. *)
Definition HealthCheck (c : Client) (ctx : Context) : M (result HealthCheckResult) :=
  match newRequest c ctx "GET" pathHealthCheck NoBody with
  | Err err => ret (Err err)
  | Ok req =>
      r <- do c req ;;
      match r with
      | Err err => ret (Err err)
      | Ok resp =>
          match decode_message (resp_Body resp) with
          | Err err =>
              ret (Err (as_error (NewServiceError "failed to decode health check response"
                                    (resp_StatusCode resp) (Some err))))
          | Ok message =>
              ret (Ok (mkHealthCheckResult
                         ((resp_StatusCode resp =? 200) && String.eqb message "ok")
                         message))
          end
      end
  end.

(** [req.Header.Set(k, v)] on a request. *)
Definition set_header (k v : string) (req : Request) : Request :=
  mkRequest (Method req) (URL req) (Ctx req) (Header_Set k v (Header req))
            (ContentLength req) (Body req).

(** ScanReader scans data from an io.Reader via multipart upload.  The
    multipart writer writes into a [bytes.Buffer], so creating the part and
    closing the writer do not fail; [io.Copy] fails when the reader fails
    with an error other than [io.EOF]. *)
Definition ScanReader (c : Client) (ctx : Context) (r : Reader) (filename : string)
    : M (result ScanResult) :=
  let filename := if String.eqb filename "" then "file" else filename in
  b <- multipart_NewWriter ;;
  let (written, copyErr) := io_Copy r in
  match copyErr with
  | Some err =>
      ret (Err (as_error (NewValidationError "failed to write file data" (Some err))))
  | None =>
      let buf := Multipart b [mkFormFile "file" filename written] in
      match newRequest c ctx "POST" pathScan buf with
      | Err err => ret (Err err)
      | Ok req =>
          let req := set_header "Content-Type" ("multipart/form-data; boundary=" ++ b) req in
          doScan c req
      end
  end.

(** ScanFile scans file data provided as a byte slice via multipart
    upload. *)
Definition ScanFile (c : Client) (ctx : Context) (data : bytes) (filename : string)
    : M (result ScanResult) :=
  ScanReader c ctx (bytes_NewReader data) filename.

(** StreamScan scans data from an io.Reader via the stream-scan endpoint.
    size is the Content-Length to set (required, must be > 0). *)
Definition StreamScan (c : Client) (ctx : Context) (r : Reader) (size : Z)
    : M (result ScanResult) :=
  if size <=? 0 then
    ret (Err (as_error (NewValidationError "size must be greater than 0" None)))
  else
    match newRequest c ctx "POST" pathStreamScan (Stream r) with
    | Err err => ret (Err err)
    | Ok req =>
        let req := set_header "Content-Type" "application/octet-stream" req in
        let req := mkRequest (Method req) (URL req) (Ctx req) (Header req)
                             (Some size) (Body req) in
        doScan c req
    end.

(** VersionResult contains the ClamAV API server version info. *)
Record VersionResult : Type := mkVersionResult {
  vr_Version : string;
  Commit : string;
  Build : string
}.

(** [json.NewDecoder(resp.Body).Decode(&result)] for [VersionResult]. *)
Definition decode_VersionResult (b : ResponseBody) : result VersionResult :=
  match b with
  | Malformed e => Err e
  | JObject members =>
      match decode_struct "VersionResult"
              [("version", string_field); ("commit", string_field);
               ("build", string_field)] members with
      | Ok r => Ok (mkVersionResult (r "version") (r "commit") (r "build"))
      | Err e => Err e
      end
  end.

(** Close releases any resources held by the client:
    [c.httpClient.CloseIdleConnections(); return nil].  The method call
    dereferences [c.httpClient]. *)
Definition Close (c : Client) : outcome (option error) :=
  match httpClient c with
  | Some _ => Return None
  | None => Panic
  end.

(** Version returns the ClamAV API server version info. *)
Definition Version (c : Client) (ctx : Context) : M (result VersionResult) :=
  match newRequest c ctx "GET" pathVersion NoBody with
  | Err err => ret (Err err)
  | Ok req =>
      r <- do c req ;;
      match r with
      | Err err => ret (Err err)
      | Ok resp =>
          if negb (resp_StatusCode resp =? 200) then
            ret (Err (as_error (handleErrorResponse c resp)))
          else
            match decode_VersionResult (resp_Body resp) with
            | Err err =>
                ret (Err (as_error (NewServiceError "failed to decode version response"
                                      (resp_StatusCode resp) (Some err))))
            | Ok result => ret (Ok result)
            end
      end
  end.

(** An open [*os.File]: what reading it yields, and what [f.Stat()]
    reports as its size. *)
Record File : Type := mkFile {
  f_reader : Reader;
  f_Stat : result Z
}.

(** [os.Open] on the file system the client runs on. *)
Variable os_Open : string -> result File.

(** ScanFilePath reads a file from disk and scans it via multipart
    upload. *)
Definition ScanFilePath (c : Client) (ctx : Context) (filePath : string)
    : M (result ScanResult) :=
  match os_Open filePath with
  | Err err =>
      ret (Err (as_error (NewValidationError ("failed to open file: " ++ filePath)
                            (Some err))))
  | Ok f => ScanReader c ctx (f_reader f) (filepath_Base filePath)
  end.

(** StreamScanFile reads a file from disk and scans via the stream-scan
    endpoint. *)
Definition StreamScanFile (c : Client) (ctx : Context) (filePath : string)
    : M (result ScanResult) :=
  match os_Open filePath with
  | Err err =>
      ret (Err (as_error (NewValidationError ("failed to open file: " ++ filePath)
                            (Some err))))
  | Ok f =>
      match f_Stat f with
      | Err err =>
          ret (Err (as_error (NewValidationError ("failed to stat file: " ++ filePath)
                                (Some err))))
      | Ok size => StreamScan c ctx (f_reader f) size
      end
  end.

End RestClient.

End clamav.

(* ===================================================================== *)
(** * Package grpc: client.go (gRPC) *)
(* ===================================================================== *)

Module grpc.
Import Go.

(** ** google.golang.org/grpc/codes and status *)

Module codes.
Definition OK                 : N := 0.
Definition Canceled           : N := 1.
Definition Unknown            : N := 2.
Definition InvalidArgument    : N := 3.
Definition DeadlineExceeded   : N := 4.
Definition NotFound           : N := 5.
Definition AlreadyExists      : N := 6.
Definition PermissionDenied   : N := 7.
Definition ResourceExhausted  : N := 8.
Definition FailedPrecondition : N := 9.
Definition Aborted            : N := 10.
Definition OutOfRange         : N := 11.
Definition Unimplemented      : N := 12.
Definition Internal           : N := 13.
Definition Unavailable        : N := 14.
Definition DataLoss           : N := 15.
Definition Unauthenticated    : N := 16.

(** The codes the library defines; a [codes.Code] is a [uint32], so other
    values can arrive from the wire. *)
Definition recognized (c : N) : bool := (c <=? 16)%N.
End codes.

(** A [*status.Status]. *)
Record Status : Type := mkStatus {
  st_Code : N;
  st_Message : string
}.

(** [status.Error(c, msg)]: nil for [codes.OK]. *)
Definition status_Error (c : N) (msg : string) : option error :=
  if (c =? codes.OK)%N then None else Some (StatusError c msg).

Definition is_StatusError (err : error) : option Status :=
  match err with
  | StatusError c msg => Some (mkStatus c msg)
  | _ => None
  end.

(** [status.FromError(err)] for a non-nil [err]: the status of a status
    error; the status found by unwrapping, with the whole error text as its
    message; otherwise an Unknown status and [false]. *)
Definition status_FromError (err : error) : Status * bool :=
  match is_StatusError err with
  | Some st => (st, true)
  | None =>
      match chain_find is_StatusError err with
      | Some st => (mkStatus (st_Code st) (error_Error err), true)
      | None => (mkStatus codes.Unknown (error_Error err), false)
      end
  end.

(** ** The wire messages (generated stubs) *)

Record ScanStreamRequest : Type := mkScanStreamRequest {
  Chunk : bytes;
  Filename : string;
  IsLast : bool
}.

Record ScanResponse : Type := mkScanResponse {
  resp_Status : string;
  resp_Message : string;
  resp_ScanTime : float64;
  resp_Filename : string
}.

Record HealthCheckResponse : Type := mkHealthCheckResponse {
  hc_Status : string;
  hc_Message : string
}.

(** ** The client *)

Definition defaultTimeout        : Z := 30 * 1000000000.
Definition defaultChunkSize      : Z := 64 * 1024.
Definition defaultMaxMessageSize : Z := 200 * 1024 * 1024.

(** Client is the gRPC client for the ClamAV API.  (The connection, the
    stub and the dial options are the world the calls run in.) *)
Record Client : Type := mkClient {
  timeout : Z;
  chunkSize : Z;
  maxMessageSize : Z
}.

Definition ClientOption : Type := Client -> Client.

(** WithChunkSize sets the chunk size for streaming operations. *)
Definition WithChunkSize (size : Z) : ClientOption :=
  fun c => if size >? 0 then mkClient (timeout c) size (maxMessageSize c) else c.

(** grpcCodeToHTTP maps gRPC status codes to HTTP-equivalent status codes
    so that StatusCode is consistent between the REST and gRPC clients. *)
Definition grpcCodeToHTTP (c : N) : Z :=
  match c with
  | 0%N (* codes.OK *) => 200
  | 3%N (* codes.InvalidArgument *) => 400
  | 16%N (* codes.Unauthenticated *) => 401
  | 7%N (* codes.PermissionDenied *) => 403
  | 5%N (* codes.NotFound *) => 404
  | 6%N (* codes.AlreadyExists *) => 409
  | 8%N (* codes.ResourceExhausted *) => 429
  | 1%N (* codes.Canceled *) => 499
  | 13%N (* codes.Internal *) | 15%N (* codes.DataLoss *) | 2%N (* codes.Unknown *) => 500
  | 12%N (* codes.Unimplemented *) => 501
  | 14%N (* codes.Unavailable *) => 503
  | 4%N (* codes.DeadlineExceeded *) => 504
  | _ => 500
  end.

(** mapGRPCError converts a gRPC error to an SDK error type. *)
Definition mapGRPCError (err : option error) : option error :=
  match err with
  | None => None
  | Some err =>
      let (st, ok) := status_FromError err in
      if negb ok then
        Some (clamav.as_error (clamav.NewConnectionError "gRPC error" (Some err)))
      else
        match st_Code st with
        | 3%N (* codes.InvalidArgument *) =>
            Some (clamav.as_error (clamav.NewValidationError (st_Message st) (Some err)))
        | 13%N (* codes.Internal *) =>
            Some (clamav.as_error (clamav.NewServiceError (st_Message st) 500 (Some err)))
        | 4%N (* codes.DeadlineExceeded *) =>
            Some (clamav.as_error (clamav.NewTimeoutError (st_Message st) (Some err)))
        | 1%N (* codes.Canceled *) =>
            Some (clamav.as_error (clamav.NewTimeoutError (st_Message st) (Some err)))
        | 14%N (* codes.Unavailable *) =>
            Some (clamav.as_error (clamav.NewConnectionError (st_Message st) (Some err)))
        | _ =>
            Some (clamav.as_error
                    (clamav.NewServiceError (st_Message st) (grpcCodeToHTTP (st_Code st))
                       (Some err)))
        end
  end.

(** mapScanResponse converts a proto ScanResponse to a clamav.ScanResult. *)
Definition mapScanResponse (resp : ScanResponse) : clamav.ScanResult :=
  clamav.mkScanResult (resp_Status resp) (resp_Message resp)
                      (resp_ScanTime resp) (resp_Filename resp).

(** ** Chunking *)

(** The send side of a streaming RPC:
<<
    type chunkSender interface { Send(req) error }
>> *)
Class chunkSender (S : Type) : Type := {
  Send : S -> ScanStreamRequest -> option error * S
}.

(** A stream that records what it is sent.  Its [n]-th call of [Send]
    fails with [faults n], when that is an error, and transmits nothing. *)
Record Recorder : Type := mkRecorder {
  sent : list ScanStreamRequest;
  attempts : nat;
  faults : nat -> option error
}.

#[global] Instance Recorder_chunkSender : chunkSender Recorder := {
  Send s req :=
    match faults s (attempts s) with
    | Some e => (Some e, mkRecorder (sent s) (S (attempts s)) (faults s))
    | None => (None, mkRecorder (sent s ++ [req]) (S (attempts s)) (faults s))
    end
}.

(** A recorder on which every [Send] succeeds. *)
Definition reliable (log : list ScanStreamRequest) (n : nat) : Recorder :=
  mkRecorder log n (fun _ => None).

(** How far sendChunks gets with one more [Send]: its loop goes on at the
    index [i], or the call is over -- it returns, or it panics. *)
Inductive chunk_progress (S : Type) : Type :=
| ChunkNext (i : Z) (stream : S)
| ChunkDone (r : outcome (option error)) (stream : S).
Arguments ChunkNext {S} i stream.
Arguments ChunkDone {S} r stream.

Section SendChunks.
Context {S : Type} `{chunkSender S}.

(** The loop of sendChunks,
<<
    for i := 0; i < len(data); i += c.chunkSize { ... }
>>
    entered at [i].  [fuel] bounds the number of iterations; [None] means
    the bound was reached. *)
Fixpoint sendChunks_loop (fuel : nat) (c : Client) (stream : S) (data : bytes)
    (filename : string) (i : Z) : option (outcome (option error) * S) :=
  if i <? len data then
    match fuel with
    | O => None
    | Datatypes.S fuel' =>
        let end_ := int_add i (chunkSize c) in
        let end_ := if end_ >? len data then len data else end_ in
        match slice data i end_ with
        | Panic => Some (Panic, stream)
        | Return chunk =>
            let req := mkScanStreamRequest chunk
                         (if i =? 0 then filename else EmptyString)
                         (end_ =? len data) in
            let (err, stream') := Send stream req in
            match err with
            | Some err => Some (Return (mapGRPCError (Some err)), stream')
            | None =>
                sendChunks_loop fuel' c stream' data filename (int_add i (chunkSize c))
            end
        end
    end
  else Some (Return None, stream).

(** sendChunks sends file data as chunks over a streaming RPC. *)
Definition sendChunks (fuel : nat) (c : Client) (stream : S) (data : bytes)
    (filename : string) : option (outcome (option error) * S) :=
  if len data =? 0 then
    let (err, stream') := Send stream (mkScanStreamRequest [] filename true) in
    Some (Return err, stream')
  else sendChunks_loop fuel c stream data filename 0.

(** sendChunks up to and including its next [Send], for a goroutine that
    other goroutines run beside: with the loop variable at [i] ([0] when
    the function is entered), the single [Send] of an empty payload, or the
    test [i < len(data)] and one round of the loop.  sendChunks is this
    step repeated from [0] (lemma [sendChunks_loop_by_steps]). *)
Definition sendChunks_step (c : Client) (stream : S) (data : bytes)
    (filename : string) (i : Z) : chunk_progress S :=
  if len data =? 0 then
    let (err, stream') := Send stream (mkScanStreamRequest [] filename true) in
    ChunkDone (Return err) stream'
  else if i <? len data then
    let end_ := int_add i (chunkSize c) in
    let end_ := if end_ >? len data then len data else end_ in
    match slice data i end_ with
    | Panic => ChunkDone Panic stream
    | Return chunk =>
        let req := mkScanStreamRequest chunk
                     (if i =? 0 then filename else EmptyString)
                     (end_ =? len data) in
        let (err, stream') := Send stream req in
        match err with
        | Some err => ChunkDone (Return (mapGRPCError (Some err))) stream'
        | None => ChunkNext (int_add i (chunkSize c)) stream'
        end
    end
  else ChunkDone (Return None) stream.

End SendChunks.

(** The Go results [(value, error)] of the client's methods. *)
Definition pair_result (A : Type) : Type := option A * option error.

(** ** Client streaming from a reader *)

Section ScanStreamReader.
Context {S : Type} `{chunkSender S}.

(** [stream.CloseAndRecv()], given what the stream has been sent. *)
Variable CloseAndRecv : S -> result ScanResponse.

(** The read loop of ScanStreamReader.  [reads] is what the calls of
    [r.Read(buf)] return, one after the other: the bytes [buf[:n]] and the
    error.  The result is the error the function returns from inside the
    loop, if any, the stream, and the flag [first]; it is [None] when the
    loop has not ended after [reads]. *)
Fixpoint ScanStreamReader_loop (reads : list (bytes * option error)) (stream : S)
    (filename : string) (first : bool) : option (option error * S * bool) :=
  match reads with
  | [] => None
  | (chunk, readErr) :: rest =>
      let at_eof := match readErr with Some e => is_EOF e | None => false end in
      let '(sendErr, stream', first') :=
        if 0 <? len chunk then
          let req := mkScanStreamRequest chunk
                       (if first then filename else EmptyString) at_eof in
          let (err, stream') := Send stream req in (err, stream', false)
        else (None, stream, first) in
      match sendErr with
      | Some err => Some (mapGRPCError (Some err), stream', first')
      | None =>
          match readErr with
          | Some e =>
              if is_EOF e then Some (None, stream', first')
              else Some (Some (clamav.as_error
                                 (clamav.NewValidationError "failed to read data" (Some e))),
                         stream', first')
          | None => ScanStreamReader_loop rest stream' filename first'
          end
      end
  end.

(** ScanStreamReader scans an io.Reader via client streaming RPC.
    [opened] is what [c.scanner.ScanStream(ctx)] answers.  The result
    comes with the stream as the call leaves it. *)
Definition ScanStreamReader (c : Client) (opened : result S)
    (reads : list (bytes * option error)) (filename : string)
    : option (outcome (pair_result clamav.ScanResult * option S)) :=
  match opened with
  | Err err => Some (Return ((None, mapGRPCError (Some err)), None))
  | Ok stream =>
      if chunkSize c <? 0 then Some Panic (* make([]byte, c.chunkSize) *)
      else
        match ScanStreamReader_loop reads stream filename true with
        | None => None
        | Some (Some err, stream', _) => Some (Return ((None, Some err), Some stream'))
        | Some (None, stream', first) =>
            (* If no data was read at all, send a single empty last chunk *)
            let (err, stream'') :=
              if first then Send stream' (mkScanStreamRequest [] filename true)
              else (None, stream') in
            match err with
            | Some err => Some (Return ((None, mapGRPCError (Some err)), Some stream''))
            | None =>
                match CloseAndRecv stream'' with
                | Err err => Some (Return ((None, mapGRPCError (Some err)), Some stream''))
                | Ok resp => Some (Return ((Some (mapScanResponse resp), None), Some stream''))
                end
            end
        end
  end.

(** ScanStream scans data via client streaming RPC.  [opened] is what
    [c.scanner.ScanStream(ctx)] answers; the result comes with the stream
    as the call leaves it. *)
Definition ScanStream (fuel : nat) (c : Client) (opened : result S) (data : bytes)
    (filename : string) : option (outcome (pair_result clamav.ScanResult * option S)) :=
  match opened with
  | Err err => Some (Return ((None, mapGRPCError (Some err)), None))
  | Ok stream =>
      match sendChunks fuel c stream data filename with
      | None => None
      | Some (Panic, _) => Some Panic
      | Some (Return (Some err), stream') =>
          Some (Return ((None, Some err), Some stream'))
      | Some (Return None, stream') =>
          match CloseAndRecv stream' with
          | Err err => Some (Return ((None, mapGRPCError (Some err)), Some stream'))
          | Ok resp => Some (Return ((Some (mapScanResponse resp), None), Some stream'))
          end
      end
  end.

(** ScanStreamFile reads a file from disk and scans via client streaming
    RPC.  [os_Open_reads] is [os.Open] followed by the file's reads. *)
Definition ScanStreamFile (os_Open_reads : string -> result (list (bytes * option error)))
    (c : Client) (opened : result S) (filePath : string)
    : option (outcome (pair_result clamav.ScanResult * option S)) :=
  match os_Open_reads filePath with
  | Err err =>
      Some (Return ((None,
                     Some (clamav.as_error
                             (clamav.NewValidationError ("failed to open file: " ++ filePath)
                                (Some err)))),
                    None))
  | Ok reads => ScanStreamReader c opened reads (filepath_Base filePath)
  end.

End ScanStreamReader.

(** ** Unary calls

    The world of the gRPC client: the clock, the scanner stub with the
    server behind it, and the calls made on the stub so far, in order.  A
    call has touched the network iff it has extended [rpcs]. *)

Inductive RPC : Type :=
| RPC_HealthCheck (ctx : Context)
| RPC_ScanFile (ctx : Context) (data : bytes) (filename : string).

Record World : Type := mkWorld {
  now : Z;
  server_HealthCheck : Context -> result HealthCheckResponse;
  server_ScanFile : Context -> bytes -> string -> result ScanResponse;
  rpcs : list RPC
}.

Definition M : Type -> Type := State World.

Definition log_rpc (r : RPC) (w : World) : World :=
  mkWorld (now w) (server_HealthCheck w) (server_ScanFile w) (rpcs w ++ [r]).

(** [c.scanner.HealthCheck(ctx, &pb.HealthCheckRequest{})]. *)
Definition scanner_HealthCheck (ctx : Context) : M (result HealthCheckResponse) :=
  fun w => (server_HealthCheck w ctx, log_rpc (RPC_HealthCheck ctx) w).

(** [c.scanner.ScanFile(ctx, &pb.ScanFileRequest{Data: data, Filename: filename})]. *)
Definition scanner_ScanFile (ctx : Context) (data : bytes) (filename : string)
    : M (result ScanResponse) :=
  fun w => (server_ScanFile w ctx data filename, log_rpc (RPC_ScanFile ctx data filename) w).

(** contextWithTimeout applies the default timeout if the context has no
    deadline.  (The timeout of a client is positive -- NewClient and
    WithTimeout see to it -- so the derived context is not done before the
    parent is.) *)
Definition contextWithTimeout (c : Client) (ctx : Context) : M Context :=
  fun w =>
    match Deadline ctx with
    | Some _ => (ctx, w)
    | None => (mkContext (Some (now w + timeout c)) (Done ctx), w)
    end.

(** HealthCheck checks if the ClamAV service is healthy. *)
Definition HealthCheck (c : Client) (ctx : Context) : M (pair_result clamav.HealthCheckResult) :=
  ctx <- contextWithTimeout c ctx ;;
  r <- scanner_HealthCheck ctx ;;
  match r with
  | Err err => ret (None, mapGRPCError (Some err))
  | Ok resp =>
      ret (Some (clamav.mkHealthCheckResult (String.eqb (hc_Status resp) "healthy")
                                             (hc_Message resp)),
           None)
  end.

(** ScanFile scans file data with a unary RPC call. *)
Definition ScanFile (c : Client) (ctx : Context) (data : bytes) (filename : string)
    : M (pair_result clamav.ScanResult) :=
  if len data =? 0 then
    ret (None, mapGRPCError (status_Error codes.InvalidArgument "file data is required"))
  else
    ctx <- contextWithTimeout c ctx ;;
    r <- scanner_ScanFile ctx data filename ;;
    match r with
    | Err err => ret (None, mapGRPCError (Some err))
    | Ok resp => ret (Some (mapScanResponse resp), None)
    end.

(** ScanFilePath reads a file from disk and scans with a unary RPC.
    [os_ReadFile] is [os.ReadFile] on the file system the client runs
    on. *)
Definition ScanFilePath (os_ReadFile : string -> result bytes) (c : Client)
    (ctx : Context) (filePath : string) : M (pair_result clamav.ScanResult) :=
  match os_ReadFile filePath with
  | Err err =>
      ret (None,
           Some (clamav.as_error
                   (clamav.NewValidationError ("failed to read file: " ++ filePath)
                      (Some err))))
  | Ok data => ScanFile c ctx data (filepath_Base filePath)
  end.

(** ** Construction ([options.go] and NewClient) *)

Inductive Credentials : Type :=
| insecure_NewCredentials
| CallerCredentials (name : string).

(** The dial options the package makes, and the caller's own. *)
Inductive DialOption : Type :=
| grpclib_WithTransportCredentials (creds : Credentials)
| grpclib_WithDefaultCallOptions (maxCallRecvMsgSize maxCallSendMsgSize : Z)
| CallerDialOption (name : string).

(** The client with the fields only its construction uses. *)
Record ClientConfig : Type := mkClientConfig {
  client : Client;
  dialOpts : list DialOption;
  hasTransportCreds : bool
}.

(** WithDialOptions appends gRPC dial options to the connection. *)
Definition WithDialOptions (opts : list DialOption) (c : ClientConfig) : ClientConfig :=
  mkClientConfig (client c) (dialOpts c ++ opts) (hasTransportCreds c).

(** WithTransportCredentials sets transport credentials (e.g. TLS).  When
    used, insecure credentials are not added by default. *)
Definition WithTransportCredentials (creds : Credentials) (c : ClientConfig)
    : ClientConfig :=
  mkClientConfig (client c) (dialOpts c ++ [grpclib_WithTransportCredentials creds]) true.

(** WithTimeout sets the default RPC timeout.  Non-positive durations are
    ignored (no-op). *)
Definition WithTimeout (d : Z) (c : ClientConfig) : ClientConfig :=
  if d >? 0 then
    mkClientConfig (mkClient d (chunkSize (client c)) (maxMessageSize (client c)))
                   (dialOpts c) (hasTransportCreds c)
  else c.

(** WithMaxMessageSize sets the max send/receive message size. *)
Definition WithMaxMessageSize (size : Z) (c : ClientConfig) : ClientConfig :=
  if size >? 0 then
    mkClientConfig (mkClient (timeout (client c)) (chunkSize (client c)) size)
                   (dialOpts c) (hasTransportCreds c)
  else c.

(** The options a caller can pass: the five functions of [options.go]. *)
Inductive OptionCall : Type :=
| CallWithDialOptions (opts : list DialOption)
| CallWithTransportCredentials (creds : Credentials)
| CallWithTimeout (d : Z)
| CallWithChunkSize (size : Z)
| CallWithMaxMessageSize (size : Z).

Definition run_option (opt : OptionCall) (c : ClientConfig) : ClientConfig :=
  match opt with
  | CallWithDialOptions opts => WithDialOptions opts c
  | CallWithTransportCredentials creds => WithTransportCredentials creds c
  | CallWithTimeout d => WithTimeout d c
  | CallWithChunkSize size =>
      mkClientConfig (WithChunkSize size (client c)) (dialOpts c) (hasTransportCreds c)
  | CallWithMaxMessageSize size => WithMaxMessageSize size c
  end.

(** NewClient creates a gRPC client for the ClamAV API.
    [grpclib_NewClient] is [grpclib.NewClient(target, c.dialOpts...)]: nil,
    or the error of the dial. *)
Definition NewClient (grpclib_NewClient : string -> list DialOption -> option error)
    (target : string) (opts : list OptionCall) : result ClientConfig :=
  let c := mkClientConfig (mkClient defaultTimeout defaultChunkSize defaultMaxMessageSize)
                          [] false in
  let c := fold_left (fun c opt => run_option opt c) opts c in
  let c := if negb (hasTransportCreds c)
           then mkClientConfig (client c)
                  (dialOpts c ++ [grpclib_WithTransportCredentials insecure_NewCredentials])
                  (hasTransportCreds c)
           else c in
  let c := mkClientConfig (client c)
             (dialOpts c ++ [grpclib_WithDefaultCallOptions (maxMessageSize (client c))
                                                              (maxMessageSize (client c))])
             (hasTransportCreds c) in
  match grpclib_NewClient target (dialOpts c) with
  | Some err =>
      Err (clamav.as_error
             (clamav.NewConnectionError "failed to create gRPC connection" (Some err)))
  | None => Ok c
  end.

(** ** ScanMultiple

    After the stream is open, ScanMultiple starts two goroutines and
    returns the result channel.  A [Session] is the state they share; the
    relation [step] has one rule per atomic action of the sender, the
    receiver, the caller and the context, and an execution is any
    interleaving of them.  The sender's actions are the check at the head
    of its loop, each [Send] of sendChunks, and the [select] of
    sendResult; the receiver's are each [Recv], the [select] of sendResult,
    and the two deferred calls of its return.  Whatever the other
    goroutine, the caller or the context can do happens between any two of
    them. *)

(** Where the sending goroutine stands. *)
Inductive Sender : Type :=
| SendFile (k : nat)
    (** at the head of [for _, file := range files], [k] files handled *)
| Chunking (k : nat) (i : Z)
    (** past the check of the context, inside sendChunks for [files[k]]
        with its loop variable at [i] *)
| SendResult (k : nat) (r : clamav.ScanResult)
    (** inside [sendResult] with the Error result for [files[k]] *)
| SenderDone.
    (** returned; the deferred [stream.CloseSend()] has run *)

(** Where the receiving goroutine stands. *)
Inductive Receiver : Type :=
| Recv
    (** about to call [stream.Recv()] *)
| RecvResult (r : clamav.ScanResult) (again : bool)
    (** inside [sendResult]; afterwards it loops ([again]) or returns *)
| ReceiverReturning
    (** at a [return]: the deferred [cancel()] is next *)
| ReceiverClosing
    (** returning: the deferred [cancel()] has run, [close(results)] is
        next *)
| ReceiverDone.
    (** returned; the deferred [cancel()] and [close(results)] have run *)

Section ScanMultiple.
Context {S : Type} `{chunkSender S}.

Record Session : Type := mkSession {
  (** the send side of the stream *)
  stream : S;
  (** what [stream.Recv()] will return, call after call *)
  incoming : list (result ScanResponse);
  (** how often [stream.CloseSend()] has been called *)
  closeSends : nat;
  (** [ctx.Done()] is closed *)
  ctx_done : bool;
  (** every value sent on [results] so far, oldest first *)
  results : list clamav.ScanResult;
  (** how many of them the caller has received *)
  taken : nat;
  (** the capacity [results] was made with *)
  capacity : Z;
  (** [results] is closed *)
  closed : bool;
  sender : Sender;
  receiver : Receiver;
  (** a goroutine has panicked *)
  panicked : bool
}.

(** The capacity of the result channel:
<<
    bufSize := 2*len(files) + 1
    if bufSize < 1 { bufSize = 1 }
>> *)
Definition bufSize (files : list clamav.FileInput) : Z :=
  let n := wrap_int (wrap_int (2 * Z.of_nat (List.length files)) + 1) in
  if n <? 1 then 1 else n.

(** The state ScanMultiple leaves behind when it returns the channel:
    the channel is empty and open, both goroutines are at their start. *)
Definition start (ctx : Context) (files : list clamav.FileInput) (stream : S)
    (incoming : list (result ScanResponse)) : Session :=
  mkSession stream incoming 0
            (match Done ctx with Some _ => true | None => false end)
            [] 0 (bufSize files) false (SendFile 0) Recv false.

(** ScanMultiple scans multiple files using bidirectional streaming.
    [opened] is what [c.scanner.ScanMultiple(ctx)] answers: an error, or
    the stream -- its send side, and what its [Recv] will return. *)
Definition ScanMultiple (c : Client) (ctx : Context) (files : list clamav.FileInput)
    (opened : result (S * list (result ScanResponse))) : pair_result Session :=
  match opened with
  | Err err => (None, mapGRPCError (Some err))
  | Ok (stream, incoming) => (Some (start ctx files stream incoming), None)
  end.

(** The buffered channel accepts a value. *)
Definition has_room (s : Session) : Prop :=
  Z.of_nat (List.length (results s)) - Z.of_nat (taken s) < capacity s.

(** The Error result the sender makes for a file it could not chunk. *)
Definition sender_error (err : error) (file : clamav.FileInput) : clamav.ScanResult :=
  clamav.mkScanResult "ERROR" (error_Error err) "0" (clamav.fi_Filename file).

(** The Error result the receiver makes for a failure of the stream. *)
Definition receiver_error (err : error) : clamav.ScanResult :=
  clamav.mkScanResult "ERROR" (error_Error err) "0" EmptyString.

(** [st, ok := status.FromError(err); ok && st.Code() == codes.Canceled] *)
Definition is_canceled_status (err : error) : bool :=
  let (st, ok) := status_FromError err in ok && (st_Code st =? codes.Canceled)%N.

Definition set_sender (s : Session) (stream' : S) (p : Sender) : Session :=
  mkSession stream' (incoming s) (closeSends s) (ctx_done s) (results s) (taken s)
            (capacity s) (closed s) p (receiver s) (panicked s).

(** The sender returns: the deferred [CloseSend] runs. *)
Definition sender_returns (s : Session) : Session :=
  mkSession (stream s) (incoming s) (Datatypes.S (closeSends s)) (ctx_done s) (results s)
            (taken s) (capacity s) (closed s) SenderDone (receiver s) (panicked s).

Definition set_receiver (s : Session) (incoming' : list (result ScanResponse))
    (p : Receiver) : Session :=
  mkSession (stream s) incoming' (closeSends s) (ctx_done s) (results s) (taken s)
            (capacity s) (closed s) (sender s) p (panicked s).

(** The receiver is at a [return]. *)
Definition receiver_returns (s : Session) (incoming' : list (result ScanResponse))
    : Session :=
  set_receiver s incoming' ReceiverReturning.

(** The deferred calls run, last registered first: [defer cancel()] was
    registered after [defer close(results)], so [cancel()] runs first. *)
Definition receiver_cancels (s : Session) : Session :=
  mkSession (stream s) (incoming s) (closeSends s) true (results s) (taken s)
            (capacity s) (closed s) (sender s) ReceiverClosing (panicked s).

(** The deferred [close(results)] runs, and the receiver is gone. *)
Definition receiver_closes (s : Session) : Session :=
  mkSession (stream s) (incoming s) (closeSends s) (ctx_done s) (results s) (taken s)
            (capacity s) true (sender s) ReceiverDone (panicked s).

(** [results <- r] goes through. *)
Definition push (s : Session) (r : clamav.ScanResult) : Session :=
  mkSession (stream s) (incoming s) (closeSends s) (ctx_done s) (results s ++ [r])
            (taken s) (capacity s) (closed s) (sender s) (receiver s) (panicked s).

Definition panics (s : Session) : Session :=
  mkSession (stream s) (incoming s) (closeSends s) (ctx_done s) (results s)
            (taken s) (capacity s) (closed s) (sender s) (receiver s) true.

Definition cancels (s : Session) : Session :=
  mkSession (stream s) (incoming s) (closeSends s) true (results s)
            (taken s) (capacity s) (closed s) (sender s) (receiver s) (panicked s).

Definition takes (s : Session) : Session :=
  mkSession (stream s) (incoming s) (closeSends s) (ctx_done s) (results s)
            (Datatypes.S (taken s)) (capacity s) (closed s) (sender s) (receiver s) (panicked s).

Inductive step (c : Client) (files : list clamav.FileInput) : Session -> Session -> Prop :=
(** the caller cancels [ctx], or its deadline passes *)
| step_cancel : forall s,
    panicked s = false -> ctx_done s = false ->
    step c files s (cancels s)
(** the caller receives the next value from the channel *)
| step_take : forall s,
    panicked s = false -> (taken s < List.length (results s))%nat ->
    step c files s (takes s)
(** sender, loop head: [case <-ctx.Done(): return] *)
| sender_abort : forall s k,
    panicked s = false -> sender s = SendFile k -> (k < List.length files)%nat ->
    ctx_done s = true ->
    step c files s (sender_returns s)
(** sender: the range loop is over *)
| sender_finish : forall s k,
    panicked s = false -> sender s = SendFile k -> (List.length files <= k)%nat ->
    step c files s (sender_returns s)
(** sender, loop head: [default:], the context is not done; the sender
    calls [c.sendChunks(stream, file.Data, file.Filename)] *)
| sender_enter : forall s k file,
    panicked s = false -> sender s = SendFile k -> nth_error files k = Some file ->
    ctx_done s = false ->
    step c files s (set_sender s (stream s) (Chunking k 0))
(** sender, in sendChunks: a chunk is sent and the loop goes on *)
| sender_chunk : forall s k i file i' stream',
    panicked s = false -> sender s = Chunking k i -> nth_error files k = Some file ->
    sendChunks_step c (stream s) (clamav.Data file) (clamav.fi_Filename file) i
      = ChunkNext i' stream' ->
    step c files s (set_sender s stream' (Chunking k i'))
(** sender: sendChunks returns nil *)
| sender_sent : forall s k i file stream',
    panicked s = false -> sender s = Chunking k i -> nth_error files k = Some file ->
    sendChunks_step c (stream s) (clamav.Data file) (clamav.fi_Filename file) i
      = ChunkDone (Return None) stream' ->
    step c files s (set_sender s stream' (SendFile (Datatypes.S k)))
(** sender: sendChunks returns an error; the sender enters sendResult *)
| sender_failed : forall s k i file stream' err,
    panicked s = false -> sender s = Chunking k i -> nth_error files k = Some file ->
    sendChunks_step c (stream s) (clamav.Data file) (clamav.fi_Filename file) i
      = ChunkDone (Return (Some err)) stream' ->
    step c files s (set_sender s stream' (SendResult k (sender_error err file)))
(** sender: sendChunks panics *)
| sender_panic : forall s k i file stream',
    panicked s = false -> sender s = Chunking k i -> nth_error files k = Some file ->
    sendChunks_step c (stream s) (clamav.Data file) (clamav.fi_Filename file) i
      = ChunkDone Panic stream' ->
    step c files s (panics (set_sender s stream' (Chunking k i)))
(** sender, in sendResult: [case results <- r: return true] *)
| sender_push : forall s k r,
    panicked s = false -> sender s = SendResult k r -> closed s = false ->
    has_room s ->
    step c files s (set_sender (push s r) (stream s) (SendFile (Datatypes.S k)))
(** sender, in sendResult: the channel has been closed; the send panics *)
| sender_push_closed : forall s k r,
    panicked s = false -> sender s = SendResult k r -> closed s = true ->
    step c files s (panics s)
(** sender, in sendResult: [case <-ctx.Done(): return false] *)
| sender_gives_up : forall s k r,
    panicked s = false -> sender s = SendResult k r -> ctx_done s = true ->
    step c files s (sender_returns s)
(** receiver: [stream.Recv()] returns a response *)
| recv_response : forall s resp rest,
    panicked s = false -> receiver s = Recv -> incoming s = Ok resp :: rest ->
    step c files s (set_receiver s rest (RecvResult (mapScanResponse resp) true))
(** receiver: [err == io.EOF] *)
| recv_eof : forall s err rest,
    panicked s = false -> receiver s = Recv -> incoming s = Err err :: rest ->
    is_EOF err = true ->
    step c files s (receiver_returns s rest)
(** receiver: a status error with code Canceled *)
| recv_canceled : forall s err rest,
    panicked s = false -> receiver s = Recv -> incoming s = Err err :: rest ->
    is_EOF err = false -> is_canceled_status err = true ->
    step c files s (receiver_returns s rest)
(** receiver: any other error; the receiver enters sendResult *)
| recv_error : forall s err rest,
    panicked s = false -> receiver s = Recv -> incoming s = Err err :: rest ->
    is_EOF err = false -> is_canceled_status err = false ->
    step c files s (set_receiver s rest (RecvResult (receiver_error err) false))
(** receiver, in sendResult: the send goes through, and the loop goes on *)
| recv_push_again : forall s r,
    panicked s = false -> receiver s = RecvResult r true -> has_room s ->
    step c files s (set_receiver (push s r) (incoming s) Recv)
(** receiver, in sendResult: the send goes through, and the receiver returns *)
| recv_push_return : forall s r,
    panicked s = false -> receiver s = RecvResult r false -> has_room s ->
    step c files s (receiver_returns (push s r) (incoming s))
(** receiver, in sendResult: [case <-ctx.Done(): return false] *)
| recv_gives_up : forall s r again,
    panicked s = false -> receiver s = RecvResult r again -> ctx_done s = true ->
    step c files s (receiver_returns s (incoming s))
(** receiver, returning: the deferred [cancel()] *)
| recv_cancel : forall s,
    panicked s = false -> receiver s = ReceiverReturning ->
    step c files s (receiver_cancels s)
(** receiver, returning: the deferred [close(results)] *)
| recv_close : forall s,
    panicked s = false -> receiver s = ReceiverClosing ->
    step c files s (receiver_closes s).

(** Executions: zero or more steps. *)
Inductive steps (c : Client) (files : list clamav.FileInput) : Session -> Session -> Prop :=
| steps_refl : forall s, steps c files s s
| steps_cons : forall s1 s2 s3,
    step c files s1 s2 -> steps c files s2 s3 -> steps c files s1 s3.

(** How many more values each goroutine can still send on [results]. *)
Definition sender_budget (files : list clamav.FileInput) (p : Sender) : nat :=
  match p with
  | SendFile k | Chunking k _ | SendResult k _ => List.length files - k
  | SenderDone => 0
  end.

Definition receiver_budget (incoming : list (result ScanResponse)) (p : Receiver) : nat :=
  match p with
  | Recv => List.length incoming
  | RecvResult _ true => Datatypes.S (List.length incoming)
  | RecvResult _ false => 1
  | ReceiverReturning | ReceiverClosing | ReceiverDone => 0
  end.

(** What both goroutines may still send, added to what has been sent. *)
Definition potential (files : list clamav.FileInput) (s : Session) : nat :=
  (List.length (results s)
   + sender_budget files (sender s)
   + receiver_budget (incoming s) (receiver s))%nat.

(** The invariant of a session: the channel has the capacity it was made
    with; [CloseSend] has run iff the sender has returned; the channel is
    closed iff the receiver has returned, and the context is done once the
    receiver's deferred [cancel()] has run; the sender works on an input of
    the batch, and a result it holds is the Error result of that input; the
    caller has taken no more than was sent; and the potential does not
    exceed [bound]. *)
Record session_inv (files : list clamav.FileInput) (bound : nat) (s : Session) : Prop := {
  inv_capacity : capacity s = bufSize files;
  inv_closeSends :
    closeSends s = match sender s with SenderDone => 1%nat | _ => 0%nat end;
  inv_closed :
    closed s = match receiver s with ReceiverDone => true | _ => false end;
  inv_done : closed s = true -> ctx_done s = true;
  inv_closing : receiver s = ReceiverClosing -> ctx_done s = true;
  inv_pending :
    match sender s with
    | Chunking k _ | SendResult k _ => (k < List.length files)%nat
    | _ => True
    end;
  inv_result :
    forall k r, sender s = SendResult k r ->
      exists file err, nth_error files k = Some file /\ r = sender_error err file;
  inv_taken : (taken s <= List.length (results s))%nat;
  inv_potential : (potential files s <= bound)%nat
}.

(** Where a session is once the sender's sendChunks is over. *)
Definition after_sendChunks (s : Session) (k : nat) (file : clamav.FileInput)
    (out : outcome (option error)) (stream' : S) (s' : Session) : Prop :=
  match out with
  | Return None => s' = set_sender s stream' (SendFile (Datatypes.S k))
  | Return (Some err) => s' = set_sender s stream' (SendResult k (sender_error err file))
  | Panic => exists i, s' = panics (set_sender s stream' (Chunking k i))
  end.

(** The stream reports its end: the receiver has met an error of [Recv],
    or one is still to come. *)
Definition stream_ends (s : Session) : Prop :=
  match receiver s with
  | Recv | RecvResult _ true => exists e, In (Err e) (incoming s)
  | _ => True
  end.

(** ** A measure of what is left to do

    Each step of a session makes [measure] smaller when the chunk size is
    positive: a bound on the length of every execution. *)

(** The rounds sendChunks has left with its loop variable at [i]. *)
Definition chunk_rounds (data : bytes) (i : Z) : nat :=
  if (0 <=? i) && (i <? len data)
  then Datatypes.S (Z.to_nat (len data - i))
  else 1%nat.

Definition file_cost (file : clamav.FileInput) : nat :=
  (List.length (clamav.Data file) + 4)%nat.

Definition files_cost (files : list clamav.FileInput) : nat :=
  fold_right (fun file n => (file_cost file + n)%nat) 0%nat files.

Definition sender_measure (files : list clamav.FileInput) (p : Sender) : nat :=
  match p with
  | SendFile k => (1 + files_cost (skipn k files))%nat
  | Chunking k i =>
      (match nth_error files k with
       | Some file => chunk_rounds (clamav.Data file) i
       | None => 0%nat
       end + 2 + files_cost (skipn (Datatypes.S k) files))%nat
  | SendResult k _ => (2 + files_cost (skipn (Datatypes.S k) files))%nat
  | SenderDone => 0%nat
  end.

Definition receiver_measure (incoming : list (result ScanResponse)) (p : Receiver) : nat :=
  match p with
  | Recv => (4 + 2 * List.length incoming)%nat
  | RecvResult _ true => (5 + 2 * List.length incoming)%nat
  | RecvResult _ false => 3%nat
  | ReceiverReturning => 2%nat
  | ReceiverClosing => 1%nat
  | ReceiverDone => 0%nat
  end.

Definition measure (files : list clamav.FileInput) (s : Session) : nat :=
  ((if panicked s then 0 else 1)
   + (if ctx_done s then 0 else 1)
   + (potential files s - taken s)
   + sender_measure files (sender s)
   + receiver_measure (incoming s) (receiver s))%nat.

End ScanMultiple.

Arguments Session : clear implicits.

End grpc.

(* ===================================================================== *)
(** * The vocabulary of the specification *)
(* ===================================================================== *)

Module Spec.
Import Go.

(** The table of the specification (section 4.3), status code to kind. *)
Definition http_status_kind (status : Z) : clamav.Kind :=
  if status =? 400 then clamav.Validation
  else if status =? 413 then clamav.Validation
  else if status =? 499 then clamav.Timeout
  else if status =? 502 then clamav.Service
  else if status =? 504 then clamav.Timeout
  else clamav.Service.

(** The table of the specification (section 4.4), status to kind. *)
Definition grpc_status_kind (code : N) : clamav.Kind :=
  if (code =? grpc.codes.InvalidArgument)%N then clamav.Validation
  else if (code =? grpc.codes.Internal)%N then clamav.Service
  else if (code =? grpc.codes.DeadlineExceeded)%N then clamav.Timeout
  else if (code =? grpc.codes.Canceled)%N then clamav.Timeout
  else if (code =? grpc.codes.Unavailable)%N then clamav.Connection
  else clamav.Service.

(** "Service unreachable" in multiplexed mode: the error is a gRPC status
    error, bare or wrapped, whose code is Unavailable. *)
Definition unavailable (err : error) : bool :=
  let (st, ok) := grpc.status_FromError err in
  ok && (grpc.st_Code st =? grpc.codes.Unavailable)%N.

(** "Service unreachable" in request/response mode: the server answers
    every request with the status 502. *)
Definition answers_502 (w : clamav.World) : Prop :=
  forall req, exists resp,
    clamav.transport w req = Ok resp /\ clamav.resp_StatusCode resp = 502.

(** The REST call has reached the server: a request was handed to the HTTP
    client. *)
Definition reached {A : Type} (w : clamav.World) (run : A * clamav.World) : Prop :=
  clamav.calls (snd run) <> clamav.calls w.

(** The result is an SDK error of kind [k] carrying [status]. *)
Definition fails_with {A : Type} (k : clamav.Kind) (status : Z) (r : result A) : Prop :=
  exists e, r = Err (clamav.as_error e)
            /\ clamav.kind_of e = Some k /\ clamav.StatusCode e = status.

(** The same for the [(value, error)] pairs of the gRPC client. *)
Definition grpc_fails_with {A : Type} (k : clamav.Kind) (r : grpc.pair_result A) : Prop :=
  exists e, r = (None, Some (clamav.as_error e)) /\ clamav.kind_of e = Some k.

(** The error is an SDK error of kind Connection. *)
Definition is_connection (e : error) : Prop :=
  exists e0, e = clamav.as_error e0 /\ clamav.kind_of e0 = Some clamav.Connection.

(** [k] slashes. *)
Fixpoint slashes (k : nat) : string :=
  match k with
  | O => EmptyString
  | S k' => String "/" (slashes k')
  end.

(** The request ScanReader builds for a payload. *)
Definition scan_request (c : clamav.Client) (ctx : Context) (w : clamav.World)
    (data : bytes) (filename : string) : clamav.Request :=
  clamav.mkRequest "POST" (clamav.baseURL c ++ clamav.pathScan) ctx
    (clamav.Header_Set "Content-Type"
       ("multipart/form-data; boundary=" ++ clamav.boundary w)
       (fold_left (fun h kv => clamav.Header_Set (fst kv) (snd kv) h) (clamav.headers c) []))
    None
    (clamav.Multipart (clamav.boundary w)
       [clamav.mkFormFile "file" (if String.eqb filename "" then "file" else filename) data]).

(** The option is a call of WithHTTPClient. *)
Definition is_WithHTTPClient (opt : clamav.ClientOption) : bool :=
  match opt with clamav.WithHTTPClient _ => true | _ => false end.

(** The dial options the caller's options contribute, in order. *)
Definition caller_dial_options (opts : list grpc.OptionCall) : list grpc.DialOption :=
  flat_map (fun opt =>
              match opt with
              | grpc.CallWithDialOptions l => l
              | grpc.CallWithTransportCredentials creds =>
                  [grpc.grpclib_WithTransportCredentials creds]
              | _ => []
              end) opts.

(** The caller's options include a call of WithTransportCredentials. *)
Definition gave_credentials (opts : list grpc.OptionCall) : bool :=
  existsb (fun opt => match opt with
                      | grpc.CallWithTransportCredentials _ => true
                      | _ => false
                      end) opts.

(** What the reads of a source return when all but the last succeed: the
    bytes of each read, and with the last read the error [final]. *)
Definition reads_then (body : list bytes) (last : bytes) (final : error)
    : list (bytes * option error) :=
  (map (fun ch => (ch, @None error)) body ++ [(last, Some final)])%list.

End Spec.

(* ===================================================================== *)
(** * Properties *)
(* ===================================================================== *)

Import Go.
Import Spec.

(** ** Error taxonomy (errors.go) *)

Section ErrorTaxonomy.
Import clamav.

Lemma kind_code_inj : forall k k', kind_code k = kind_code k' -> k = k'.
Proof. intros [] [] E; try reflexivity; discriminate E. Qed.

Lemma Code_NewKindError : forall k msg sc cause,
  Code (NewKindError k msg sc cause) = kind_code k.
Proof. intros []; reflexivity. Qed.

(** Each predicate compares the code of the outermost [*Error]. *)
Lemma IsKindError_unfold : forall k err,
  IsKindError k err =
  match errors_As err with
  | Some e => String.eqb (Code e) (kind_code k)
  | None => false
  end.
Proof. intros []; reflexivity. Qed.

(** A [*Error] is found by [errors.As] at once. *)
Lemma errors_As_as_error : forall e, errors_As (Some (as_error e)) = Some e.
Proof. intros [c m s cause]; reflexivity. Qed.

(** Context text around an error is transparent for [errors.As]. *)
Lemma errors_As_decorate : forall ds err,
  errors_As (Some (decorate ds err)) = errors_As (Some err).
Proof.
  induction ds as [|d ds IH]; intros err; simpl.
  - reflexivity.
  - destruct d; exact (IH err).
Qed.

Lemma errors_As_foreign : forall err, foreign err = true -> errors_As (Some err) = None.
Proof.
  induction err; simpl; intros F; try reflexivity; try (apply IHerr; exact F).
  discriminate F.
Qed.

Lemma reaches_decorate : forall ds err, reaches (decorate ds err) err.
Proof.
  induction ds as [|d ds IH]; intros err; simpl.
  - apply reaches_here.
  - eapply reaches_step; [destruct d; reflexivity | apply IH].
Qed.

(** The kind read off an error is the kind its predicate tests. *)
Lemma kind_of_IsKindError : forall e k,
  kind_of e = Some k -> IsKindError k (Some (as_error e)) = true.
Proof.
  intros e k K. rewrite IsKindError_unfold, errors_As_as_error.
  unfold kind_of in K.
  destruct (String.eqb (Code e) CodeConnection) eqn:E1;
    [injection K as <-; exact E1|].
  destruct (String.eqb (Code e) CodeTimeout) eqn:E2;
    [injection K as <-; exact E2|].
  destruct (String.eqb (Code e) CodeValidation) eqn:E3;
    [injection K as <-; exact E3|].
  destruct (String.eqb (Code e) CodeService) eqn:E4;
    [injection K as <-; exact E4|].
  discriminate K.
Qed.

End ErrorTaxonomy.

(** C6, as stated, fails: a wrapper whose [Unwrap] chain reaches a
    connection error need not satisfy IsConnectionError.  A timeout error
    whose cause is a connection error unwraps to it, and [errors.As] stops
    at the timeout error. *)
Lemma IsConnectionError_wrapped_in_sdk_error :
  ~ (forall outer msg cause,
       clamav.reaches outer (clamav.as_error (clamav.NewConnectionError msg cause)) ->
       clamav.IsConnectionError (Some outer) = true).
Proof.
  intros claim.
  specialize (claim
    (clamav.as_error (clamav.NewTimeoutError "scan timed out"
       (Some (clamav.as_error (clamav.NewConnectionError "connection refused" None)))))
    "connection refused" None).
  assert (R : clamav.reaches
    (clamav.as_error (clamav.NewTimeoutError "scan timed out"
       (Some (clamav.as_error (clamav.NewConnectionError "connection refused" None)))))
    (clamav.as_error (clamav.NewConnectionError "connection refused" None))).
  { eapply clamav.reaches_step; [reflexivity | apply clamav.reaches_here]. }
  specialize (claim R). vm_compute in claim. discriminate claim.
Qed.

(** C6 (amended): for every kind X, IsXError is true on an error made by
    NewXError and on that error under any number of decorators that are
    not themselves SDK errors (context text, [*url.Error], [*net.OpError]);
    it is false on an SDK
    error of another kind, decorated or not, on an error with no SDK error
    on its chain, and on nil; and the cause given to NewXError is what
    Unwrap returns.  The outermost SDK error on the chain decides. *)
Theorem IsXError_decided_by_outermost_sdk_error :
  forall (k : clamav.Kind) (msg : string) (statusCode : Z) (cause : option error),
    let err := clamav.as_error (clamav.NewKindError k msg statusCode cause) in
    clamav.IsKindError k (Some err) = true
    /\ (forall ds, clamav.reaches (clamav.decorate ds err) err
                   /\ clamav.IsKindError k (Some (clamav.decorate ds err)) = true)
    /\ (forall k' ds, k' <> k ->
          clamav.IsKindError k' (Some (clamav.decorate ds err)) = false)
    /\ (forall foreign_err, clamav.foreign foreign_err = true ->
          clamav.IsKindError k (Some foreign_err) = false)
    /\ clamav.IsKindError k None = false
    /\ clamav.Unwrap (clamav.NewKindError k msg statusCode cause) = cause
    /\ error_Unwrap err = cause.
Proof.
  intros k msg sc cause err.
  assert (D : forall k' msgs,
             clamav.IsKindError k' (Some (clamav.decorate msgs err))
             = String.eqb (clamav.kind_code k) (clamav.kind_code k')).
  { intros k' msgs. rewrite IsKindError_unfold, errors_As_decorate.
    unfold err. rewrite errors_As_as_error, Code_NewKindError. reflexivity. }
  repeat split.
  - pose proof (D k []) as D0. change (clamav.decorate [] err) with err in D0.
    rewrite D0. apply String.eqb_refl.
  - apply reaches_decorate.
  - rewrite D. apply String.eqb_refl.
  - intros k' msgs Hk. rewrite D. apply String.eqb_neq.
    intros E. apply Hk. symmetry. apply kind_code_inj. exact E.
  - intros f Hf. rewrite IsKindError_unfold, (errors_As_foreign f Hf). reflexivity.
  - destruct k; reflexivity.
  - destruct k; reflexivity.
  - destruct k; reflexivity.
Qed.

Lemma IsXError_decided_by_outermost_sdk_error_witness :
  clamav.IsConnectionError
    (Some (clamav.decorate [clamav.WithText "wrapped: conn failed"]
             (clamav.as_error (clamav.NewConnectionError "conn failed" None)))) = true
  /\ clamav.IsTimeoutError
       (Some (clamav.as_error (clamav.NewConnectionError "conn failed" None))) = false
  /\ clamav.IsConnectionError (Some (ErrorString "random error")) = false.
Proof.
  destruct (IsXError_decided_by_outermost_sdk_error clamav.Connection "conn failed" 0 None)
    as (_ & Hwrapped & Hother & Hforeign & _).
  split; [exact (proj2 (Hwrapped [clamav.WithText "wrapped: conn failed"])) | split].
  - apply (Hother clamav.Timeout []). discriminate.
  - apply Hforeign. reflexivity.
Defined.

(** ** Error-response mapping of the REST client *)

Lemma handleErrorResponse_decoded : forall c status body st msg,
  clamav.decode_status_message body = Ok (st, msg) ->
  let e := clamav.handleErrorResponse c (clamav.mkResponse status body) in
  clamav.kind_of e = Some (http_status_kind status)
  /\ clamav.StatusCode e
     = (if clamav.Kind_eqb (http_status_kind status) clamav.Service then status else 0)
  /\ clamav.Cause e = None.
Proof.
  intros c status body st msg D. unfold clamav.handleErrorResponse. simpl.
  rewrite D. unfold http_status_kind.
  destruct (status =? 400) eqn:E400; [apply Z.eqb_eq in E400; subst; repeat split|].
  destruct (status =? 413) eqn:E413; [apply Z.eqb_eq in E413; subst; repeat split|].
  destruct (status =? 499) eqn:E499; [apply Z.eqb_eq in E499; subst; repeat split|].
  destruct (status =? 502) eqn:E502; [apply Z.eqb_eq in E502; subst; repeat split|].
  destruct (status =? 504) eqn:E504; [apply Z.eqb_eq in E504; subst; repeat split|].
  apply Z.eqb_neq in E400, E413, E499, E502, E504.
  destruct status as [|p|p]; try (repeat split; reflexivity).
  do 9 (try (destruct p as [p|p|];
             try (repeat split; reflexivity); try (exfalso; lia))).
Qed.

Lemma handleErrorResponse_undecodable : forall c status body err,
  clamav.decode_status_message body = Err err ->
  let e := clamav.handleErrorResponse c (clamav.mkResponse status body) in
  clamav.kind_of e = Some clamav.Service
  /\ clamav.StatusCode e = status
  /\ clamav.Cause e = Some err.
Proof.
  intros c status body err D. unfold clamav.handleErrorResponse. simpl.
  rewrite D. repeat split.
Qed.

(** C2: handleErrorResponse follows the fixed table.  When the body
    decodes, the kind is Validation for 400 and 413, Timeout for 499 and
    504, Service for 502 and for every other status, and a Service error
    carries the literal status code; when the body does not decode, the
    error is a Service error carrying the raw status code (and the decoding
    error as its cause).  This holds for every status code, so for every
    non-2xx one. *)
Theorem handleErrorResponse_follows_status_table :
  forall (c : clamav.Client) (resp : clamav.Response),
    let status := clamav.resp_StatusCode resp in
    let e := clamav.handleErrorResponse c resp in
    match clamav.decode_status_message (clamav.resp_Body resp) with
    | Ok _ =>
        clamav.kind_of e = Some (http_status_kind status)
        /\ clamav.IsKindError (http_status_kind status) (Some (clamav.as_error e)) = true
        /\ clamav.StatusCode e
           = (if clamav.Kind_eqb (http_status_kind status) clamav.Service
              then status else 0)
    | Err err =>
        clamav.kind_of e = Some clamav.Service
        /\ clamav.IsServiceError (Some (clamav.as_error e)) = true
        /\ clamav.StatusCode e = status
    end
    /\ http_status_kind 400 = clamav.Validation
    /\ http_status_kind 413 = clamav.Validation
    /\ http_status_kind 499 = clamav.Timeout
    /\ http_status_kind 502 = clamav.Service
    /\ http_status_kind 504 = clamav.Timeout
    /\ (status <> 400 -> status <> 413 -> status <> 499 -> status <> 504 ->
        http_status_kind status = clamav.Service).
Proof.
  intros c [status body] st e. simpl in st. subst st.
  split; [| repeat split].
  - simpl. destruct (clamav.decode_status_message body) as [[s m]|err] eqn:D.
    + destruct (handleErrorResponse_decoded c status body s m D) as (K & SC & _).
      fold e in K, SC. repeat split; try assumption.
      apply kind_of_IsKindError. exact K.
    + destruct (handleErrorResponse_undecodable c status body err D) as (K & SC & _).
      fold e in K, SC. repeat split; try assumption.
      apply (kind_of_IsKindError e clamav.Service). exact K.
  - intros N400 N413 N499 N504. unfold http_status_kind.
    apply Z.eqb_neq in N400, N413, N499, N504.
    rewrite N400, N413, N499, N504. destruct (status =? 502); reflexivity.
Qed.

Lemma handleErrorResponse_follows_status_table_witness :
  http_status_kind 500 = clamav.Service
  /\ clamav.kind_of
       (clamav.handleErrorResponse (clamav.mkClient "http://localhost:6000" None 0 [])
          (clamav.mkResponse 500
             (clamav.JObject [("message", clamav.JString "unexpected internal error")])))
     = Some clamav.Service.
Proof.
  pose proof (handleErrorResponse_follows_status_table
                (clamav.mkClient "http://localhost:6000" None 0 [])
                (clamav.mkResponse 500
                   (clamav.JObject
                      [("message", clamav.JString "unexpected internal error")])))
    as T.
  simpl in T. destruct T as ((K & _) & _ & _ & _ & _ & _ & Other).
  split.
  - apply Other; discriminate.
  - exact K.
Defined.

(** ** Status mapping of the gRPC client *)

(** Splitting a status code into its bits far enough to decide every
    match on the seventeen codes. *)
Ltac split_code c :=
  destruct c as [|c];
  [| do 5 (try (destruct c as [c|c|]))].

Lemma mapGRPCError_status : forall code msg,
  grpc.mapGRPCError (Some (StatusError code msg))
  = Some (clamav.as_error
            (clamav.NewKindError (grpc_status_kind code) msg
               (grpc.grpcCodeToHTTP code) (Some (StatusError code msg)))).
Proof.
  intros code msg. split_code code; reflexivity.
Qed.

Lemma grpcCodeToHTTP_unrecognized : forall code,
  grpc.codes.recognized code = false -> grpc.grpcCodeToHTTP code = 500.
Proof.
  intros code. unfold grpc.codes.recognized. intros U. apply N.leb_gt in U.
  split_code code; try reflexivity; exfalso; lia.
Qed.

(** C3: for every gRPC status error, mapGRPCError returns an SDK error
    that keeps the status message and wraps the status error, of kind
    Validation for invalid-argument, Service with status code 500 for
    internal, Timeout for deadline-exceeded and for canceled, Connection
    for unavailable, and Service for every other code, carrying the
    HTTP-equivalent of grpcCodeToHTTP; a code outside the library's
    vocabulary translates to 500. *)
Theorem mapGRPCError_follows_status_table :
  forall (code : N) (msg : string),
    (exists e : clamav.Error,
        grpc.mapGRPCError (Some (StatusError code msg)) = Some (clamav.as_error e)
        /\ clamav.kind_of e = Some (grpc_status_kind code)
        /\ clamav.IsKindError (grpc_status_kind code) (Some (clamav.as_error e)) = true
        /\ clamav.Message e = msg
        /\ clamav.Cause e = Some (StatusError code msg)
        /\ clamav.StatusCode e
           = (if clamav.Kind_eqb (grpc_status_kind code) clamav.Service
              then grpc.grpcCodeToHTTP code else 0))
    /\ grpc_status_kind grpc.codes.InvalidArgument = clamav.Validation
    /\ grpc_status_kind grpc.codes.Internal = clamav.Service
    /\ grpc.grpcCodeToHTTP grpc.codes.Internal = 500
    /\ grpc_status_kind grpc.codes.DeadlineExceeded = clamav.Timeout
    /\ grpc_status_kind grpc.codes.Canceled = clamav.Timeout
    /\ grpc_status_kind grpc.codes.Unavailable = clamav.Connection
    /\ map grpc.grpcCodeToHTTP
         [grpc.codes.OK; grpc.codes.Unknown; grpc.codes.NotFound;
          grpc.codes.AlreadyExists; grpc.codes.PermissionDenied;
          grpc.codes.ResourceExhausted; grpc.codes.FailedPrecondition;
          grpc.codes.Aborted; grpc.codes.OutOfRange; grpc.codes.Unimplemented;
          grpc.codes.DataLoss; grpc.codes.Unauthenticated]
       = [200; 500; 404; 409; 403; 429; 500; 500; 500; 501; 500; 401]
    /\ (if grpc.codes.recognized code then True else grpc.grpcCodeToHTTP code = 500).
Proof.
  intros code msg. split; [| repeat split].
  - eexists. split; [apply mapGRPCError_status|].
    assert (K : clamav.kind_of
                  (clamav.NewKindError (grpc_status_kind code) msg
                     (grpc.grpcCodeToHTTP code) (Some (StatusError code msg)))
                = Some (grpc_status_kind code))
      by (destruct (grpc_status_kind code); reflexivity).
    split; [exact K|]. split; [apply kind_of_IsKindError; exact K|].
    destruct (grpc_status_kind code); repeat split.
  - destruct (grpc.codes.recognized code) eqn:R; [exact I|].
    apply grpcCodeToHTTP_unrecognized. exact R.
Qed.

(** ** "Service unreachable" *)

Lemma handleErrorResponse_502 : forall c resp,
  clamav.resp_StatusCode resp = 502 ->
  clamav.kind_of (clamav.handleErrorResponse c resp) = Some clamav.Service
  /\ clamav.StatusCode (clamav.handleErrorResponse c resp) = 502.
Proof.
  intros c [status body] E. simpl in E. subst status.
  unfold clamav.handleErrorResponse. simpl.
  destruct (clamav.decode_status_message body) as [[st m]|err]; split; reflexivity.
Qed.

Section Unreachable.
Import clamav.
Variable url_Parse : string -> result Go.URL.
Variable os_Open : string -> result File.
Variable c : Client.
Variable w : World.
Hypothesis answers : answers_502 w.

Lemma do_502 : forall req,
  exists resp,
    do c req w = (Ok resp, mkWorld (transport w) (calls w ++ [req])%list (boundary w))
    /\ resp_StatusCode resp = 502.
Proof.
  intros req. destruct (answers req) as (resp & T & St). exists resp.
  split; [| exact St]. unfold do, http_Do, bind, ret. rewrite T. reflexivity.
Qed.

Lemma doScan_502 : forall req, fails_with Service 502 (fst (doScan c req w)).
Proof.
  intros req. destruct (do_502 req) as (resp & D & St).
  unfold doScan, bind. rewrite D. cbv beta iota. rewrite St.
  change (negb (502 =? 200)) with true. cbv beta iota. unfold ret, fst.
  exists (handleErrorResponse c resp). split; [reflexivity|].
  apply handleErrorResponse_502. exact St.
Qed.

Lemma ScanReader_502 : forall ctx r filename,
  reached w (ScanReader url_Parse c ctx r filename w) ->
  fails_with Service 502 (fst (ScanReader url_Parse c ctx r filename w)).
Proof.
  intros ctx r filename. unfold reached, ScanReader, multipart_NewWriter, bind.
  destruct (io_Copy r) as [written [e|]].
  { intros R. exfalso. apply R. reflexivity. }
  match goal with
  | |- context [newRequest url_Parse c ctx ?m ?p ?b] =>
      destruct (newRequest url_Parse c ctx m p b) as [req|e]
  end.
  - intros _. apply doScan_502.
  - intros R. exfalso. apply R. reflexivity.
Qed.

Lemma StreamScan_502 : forall ctx r size,
  reached w (StreamScan url_Parse c ctx r size w) ->
  fails_with Service 502 (fst (StreamScan url_Parse c ctx r size w)).
Proof.
  intros ctx r size. unfold reached, StreamScan.
  destruct (size <=? 0).
  { intros R. exfalso. apply R. reflexivity. }
  destruct (newRequest url_Parse c ctx "POST" pathStreamScan (Stream r)) as [req|e].
  - intros _. apply doScan_502.
  - intros R. exfalso. apply R. reflexivity.
Qed.

Lemma Version_502 : forall ctx,
  reached w (Version url_Parse c ctx w) ->
  fails_with Service 502 (fst (Version url_Parse c ctx w)).
Proof.
  intros ctx. unfold reached, Version.
  destruct (newRequest url_Parse c ctx "GET" pathVersion NoBody) as [req|e].
  - intros _. destruct (do_502 req) as (resp & D & St).
    unfold bind. rewrite D. cbv beta iota. rewrite St.
    change (negb (502 =? 200)) with true. cbv beta iota. unfold ret, fst.
    exists (handleErrorResponse c resp). split; [reflexivity|].
    apply handleErrorResponse_502. exact St.
  - intros R. exfalso. apply R. reflexivity.
Qed.

Lemma HealthCheck_502 : forall ctx,
  reached w (HealthCheck url_Parse c ctx w) ->
  (exists msg, fst (HealthCheck url_Parse c ctx w) = Ok (mkHealthCheckResult false msg))
  \/ fails_with Service 502 (fst (HealthCheck url_Parse c ctx w)).
Proof.
  intros ctx. unfold reached, HealthCheck.
  destruct (newRequest url_Parse c ctx "GET" pathHealthCheck NoBody) as [req|e].
  - intros _. destruct (do_502 req) as (resp & D & St).
    unfold bind. rewrite D. cbv beta iota.
    destruct (decode_message (resp_Body resp)) as [msg|err].
    + left. exists msg. rewrite St. reflexivity.
    + right. unfold ret, fst. eexists. split; [reflexivity|]. split; [reflexivity|].
      exact St.
  - intros R. exfalso. apply R. reflexivity.
Qed.

End Unreachable.

Lemma mapGRPCError_unavailable : forall err,
  unavailable err = true ->
  exists e, grpc.mapGRPCError (Some err) = Some (clamav.as_error e)
            /\ clamav.kind_of e = Some clamav.Connection
            /\ clamav.Cause e = Some err.
Proof.
  intros err U. unfold unavailable in U. unfold grpc.mapGRPCError.
  destruct (grpc.status_FromError err) as [st ok].
  apply andb_true_iff in U. destruct U as [-> Code].
  apply N.eqb_eq in Code. rewrite Code. eexists. repeat split.
Qed.

(** An "unavailable" error is neither [io.EOF] nor a cancellation. *)
Lemma unavailable_not_end : forall err,
  unavailable err = true -> is_EOF err = false /\ grpc.is_canceled_status err = false.
Proof.
  intros err U. split.
  - destruct err; try reflexivity. discriminate U.
  - unfold unavailable in U. unfold grpc.is_canceled_status.
    destruct (grpc.status_FromError err) as [st ok].
    apply andb_true_iff in U. destruct U as [-> Code].
    apply N.eqb_eq in Code. rewrite Code. reflexivity.
Qed.

Lemma grpc_HealthCheck_unavailable : forall c ctx w err,
  grpc.server_HealthCheck w (fst (grpc.contextWithTimeout c ctx w)) = Err err ->
  unavailable err = true ->
  grpc_fails_with clamav.Connection (fst (grpc.HealthCheck c ctx w)).
Proof.
  intros c ctx w err Hresp U.
  destruct (mapGRPCError_unavailable err U) as (e & M & K & _).
  unfold grpc.HealthCheck, bind, ret.
  destruct (grpc.contextWithTimeout c ctx w) as [ctx' w'] eqn:C. simpl in Hresp.
  assert (W : grpc.server_HealthCheck w' = grpc.server_HealthCheck w).
  { unfold grpc.contextWithTimeout in C. destruct (Deadline ctx); now inversion C. }
  unfold grpc.scanner_HealthCheck. rewrite W, Hresp. cbn [fst]. rewrite M.
  exists e. split; [reflexivity | exact K].
Qed.

Lemma grpc_ScanFile_unavailable : forall c ctx w data filename err,
  data <> [] ->
  grpc.server_ScanFile w (fst (grpc.contextWithTimeout c ctx w)) data filename = Err err ->
  unavailable err = true ->
  grpc_fails_with clamav.Connection (fst (grpc.ScanFile c ctx data filename w)).
Proof.
  intros c ctx w data filename err Hdata Hresp U.
  destruct (mapGRPCError_unavailable err U) as (e & M & K & _).
  unfold grpc.ScanFile.
  destruct (len data =? 0) eqn:L.
  { apply Z.eqb_eq in L. destruct data; [contradiction Hdata; reflexivity|].
    unfold len in L. simpl in L. lia. }
  unfold bind, ret.
  destruct (grpc.contextWithTimeout c ctx w) as [ctx' w'] eqn:C. simpl in Hresp.
  assert (W : grpc.server_ScanFile w' = grpc.server_ScanFile w).
  { unfold grpc.contextWithTimeout in C. destruct (Deadline ctx); now inversion C. }
  unfold grpc.scanner_ScanFile. rewrite W, Hresp. cbn [fst]. rewrite M.
  exists e. split; [reflexivity | exact K].
Qed.

Section UnreachableStream.
Import grpc.
Context {S : Type} `{chunkSender S}.
Variable CloseAndRecv : S -> result ScanResponse.
Variable c : Client.
Variable opened : result S.

(** Whatever the stream reports, it reports "unavailable". *)
Hypothesis open_unavailable : forall err, opened = Err err -> unavailable err = true.
Hypothesis Send_unavailable :
  forall stream req err stream', Send stream req = (Some err, stream') ->
                                 unavailable err = true.
Hypothesis CloseAndRecv_unavailable :
  forall stream err, CloseAndRecv stream = Err err -> unavailable err = true.

Lemma mapped_is_connection : forall err e,
  unavailable err = true -> mapGRPCError (Some err) = Some e -> is_connection e.
Proof.
  intros err e U M. destruct (mapGRPCError_unavailable err U) as (e0 & M0 & K & _).
  rewrite M0 in M. injection M as <-. exists e0. split; [reflexivity | exact K].
Qed.

Lemma sendChunks_loop_unavailable : forall fuel stream data filename i e stream',
  sendChunks_loop fuel c stream data filename i = Some (Return (Some e), stream') ->
  is_connection e.
Proof.
  induction fuel as [|fuel IH]; intros stream data filename i e stream' Run;
    cbn [sendChunks_loop] in Run;
    destruct (i <? len data); try discriminate Run.
  match type of Run with
  | context [slice ?d ?lo ?hi] => destruct (slice d lo hi) as [chunk|]
  end; [| discriminate Run].
  match type of Run with
  | context [Send ?st ?req] => destruct (Send st req) as [[err|] st'] eqn:Sd
  end.
  - destruct (mapGRPCError (Some err)) as [e'|] eqn:M.
    + injection Run as <- _.
      exact (mapped_is_connection err e' (Send_unavailable _ _ _ _ Sd) M).
    + discriminate Run.
  - exact (IH _ _ _ _ _ _ Run).
Qed.

Lemma ScanStream_unavailable : forall fuel data filename r e st,
  ScanStream CloseAndRecv fuel c opened data filename = Some (Return ((r, Some e), st)) ->
  r = None /\ (is_connection e \/ (data = [] /\ unavailable e = true)).
Proof.
  intros fuel data filename r e st. unfold ScanStream.
  destruct opened as [stream|err] eqn:O.
  - destruct (sendChunks fuel c stream data filename) as [[[[e1|]|] stream']|] eqn:Sc;
      try discriminate.
    + intros Run. injection Run as <- <- _. split; [reflexivity|].
      unfold sendChunks in Sc. destruct (len data =? 0) eqn:L.
      * right. split.
        -- apply Z.eqb_eq in L. destruct data; [reflexivity|].
           unfold len in L. simpl in L. lia.
        -- destruct (Send stream (mkScanStreamRequest [] filename true))
             as [err st'] eqn:Sd.
           injection Sc as -> _. exact (Send_unavailable _ _ _ _ Sd).
      * left. exact (sendChunks_loop_unavailable _ _ _ _ _ _ _ Sc).
    + destruct (CloseAndRecv stream') as [resp|err] eqn:R; [discriminate|].
      destruct (mapGRPCError (Some err)) as [e'|] eqn:M; [| discriminate].
      intros Run. injection Run as <- <- _. split; [reflexivity|]. left.
      exact (mapped_is_connection err e' (CloseAndRecv_unavailable _ _ R) M).
  - destruct (mapGRPCError (Some err)) as [e'|] eqn:M; [| discriminate].
    intros Run. injection Run as <- <- _. split; [reflexivity|]. left.
    exact (mapped_is_connection err e' (open_unavailable err eq_refl) M).
Qed.

Lemma ScanStreamReader_loop_unavailable : forall reads stream filename first e stream' first',
  ScanStreamReader_loop reads stream filename first = Some (Some e, stream', first') ->
  is_connection e
  \/ exists cause,
       e = clamav.as_error (clamav.NewValidationError "failed to read data" (Some cause)).
Proof.
  induction reads as [|[chunk readErr] reads IH];
    intros stream filename first e stream' first' Run; [discriminate Run|].
  cbn [ScanStreamReader_loop] in Run.
  destruct (0 <? len chunk).
  - match type of Run with
    | context [Send ?st ?req] => destruct (Send st req) as [[err|] st'] eqn:Sd
    end.
    + destruct (mapGRPCError (Some err)) as [e'|] eqn:M.
      * injection Run as <- _ _. left.
        exact (mapped_is_connection err e' (Send_unavailable _ _ _ _ Sd) M).
      * discriminate Run.
    + destruct readErr as [re|]; [| exact (IH _ _ _ _ _ _ Run)].
      destruct (is_EOF re); [discriminate Run|].
      injection Run as <- _ _. right. exists re. reflexivity.
  - destruct readErr as [re|]; [| exact (IH _ _ _ _ _ _ Run)].
    destruct (is_EOF re); [discriminate Run|].
    injection Run as <- _ _. right. exists re. reflexivity.
Qed.

Lemma ScanStreamReader_unavailable : forall reads filename r e st,
  ScanStreamReader CloseAndRecv c opened reads filename = Some (Return ((r, Some e), st)) ->
  r = None
  /\ (is_connection e
      \/ exists cause,
           e = clamav.as_error (clamav.NewValidationError "failed to read data"
                                  (Some cause))).
Proof.
  intros reads filename r e st. unfold ScanStreamReader.
  destruct opened as [stream|err] eqn:O.
  - destruct (chunkSize c <? 0); [discriminate|].
    destruct (ScanStreamReader_loop reads stream filename true)
      as [[[[e1|] stream'] first]|] eqn:L; [| | discriminate].
    + intros Run. injection Run as <- <- _. split; [reflexivity|].
      exact (ScanStreamReader_loop_unavailable _ _ _ _ _ _ _ L).
    + destruct first.
      * destruct (Send stream' (mkScanStreamRequest [] filename true))
          as [[err|] stream''] eqn:Sd.
        -- destruct (mapGRPCError (Some err)) as [e'|] eqn:M; [| discriminate].
           intros Run. injection Run as <- <- _. split; [reflexivity|]. left.
           exact (mapped_is_connection err e' (Send_unavailable _ _ _ _ Sd) M).
        -- destruct (CloseAndRecv stream'') as [resp|err] eqn:R; [discriminate|].
           destruct (mapGRPCError (Some err)) as [e'|] eqn:M; [| discriminate].
           intros Run. injection Run as <- <- _. split; [reflexivity|]. left.
           exact (mapped_is_connection err e' (CloseAndRecv_unavailable _ _ R) M).
      * destruct (CloseAndRecv stream') as [resp|err] eqn:R; [discriminate|].
        destruct (mapGRPCError (Some err)) as [e'|] eqn:M; [| discriminate].
        intros Run. injection Run as <- <- _. split; [reflexivity|]. left.
        exact (mapped_is_connection err e' (CloseAndRecv_unavailable _ _ R) M).
  - destruct (mapGRPCError (Some err)) as [e'|] eqn:M; [| discriminate].
    intros Run. injection Run as <- <- _. split; [reflexivity|]. left.
    exact (mapped_is_connection err e' (open_unavailable err eq_refl) M).
Qed.

End UnreachableStream.




(** ** Fail-fast validation *)

(** C7: invalid caller input fails with a Validation error before any
    network activity.  StreamScan with a declared size of zero or less
    returns a Validation error and leaves the world as it was, so no
    request has been handed to the HTTP client; the gRPC ScanFile with an
    empty payload returns a Validation error and leaves the world as it
    was, so no call has been made on the stub. *)
Theorem invalid_input_fails_before_network :
  forall (url_Parse : string -> result Go.URL)
         (c : clamav.Client) (ctx : Context) (r : Reader) (size : Z) (w : clamav.World)
         (gc : grpc.Client) (gctx : Context) (filename : string) (gw : grpc.World),
    size <= 0 ->
    (exists e : clamav.Error,
        clamav.StreamScan url_Parse c ctx r size w = (Err (clamav.as_error e), w)
        /\ clamav.kind_of e = Some clamav.Validation
        /\ clamav.IsValidationError (Some (clamav.as_error e)) = true
        /\ clamav.calls (snd (clamav.StreamScan url_Parse c ctx r size w)) = clamav.calls w)
    /\ (exists e : clamav.Error,
          grpc.ScanFile gc gctx [] filename gw = ((None, Some (clamav.as_error e)), gw)
          /\ clamav.kind_of e = Some clamav.Validation
          /\ clamav.IsValidationError (Some (clamav.as_error e)) = true
          /\ grpc.rpcs (snd (grpc.ScanFile gc gctx [] filename gw)) = grpc.rpcs gw).
Proof.
  intros url_Parse c ctx r size w gc gctx filename gw Hsize.
  split.
  - exists (clamav.NewValidationError "size must be greater than 0" None).
    unfold clamav.StreamScan.
    destruct (size <=? 0) eqn:E; [| apply Z.leb_gt in E; lia].
    repeat split.
  - eexists. repeat split.
Qed.

Lemma invalid_input_fails_before_network_witness :
  let c := clamav.mkClient "http://localhost:6000" (Some 30) 30 [] in
  let w := clamav.mkWorld (fun _ => Err EOF) [] "boundary" in
  let gw := grpc.mkWorld 0 (fun _ => Err EOF) (fun _ _ _ => Err EOF) [] in
  clamav.calls (snd (clamav.StreamScan url_Parse c (mkContext None None)
                       (bytes_NewReader []) 0 w)) = []
  /\ grpc.rpcs (snd (grpc.ScanFile (grpc.mkClient 30 65536 1024) (mkContext None None)
                       [] "empty.txt" gw)) = [].
Proof.
  intros c w gw.
  destruct (invalid_input_fails_before_network url_Parse c (mkContext None None)
              (bytes_NewReader []) 0 w (grpc.mkClient 30 65536 1024)
              (mkContext None None) "empty.txt" gw)
    as ((e1 & _ & _ & _ & H1) & (e2 & _ & _ & _ & H2)).
  - lia.
  - split; [exact H1 | exact H2].
Defined.

(** ** Construction of the REST client *)

Lemma byte_in_slash : forall c, byte_in c "/" = Ascii.eqb c "/".
Proof. intros c. unfold byte_in. simpl. apply orb_false_r. Qed.

(** What TrimRight cuts off is a run of slashes. *)
Lemma TrimRight_slashes : forall s, exists k, s = TrimRight s "/" ++ slashes k.
Proof.
  induction s as [|c rest [k IH]].
  - exists O. reflexivity.
  - simpl. destruct (TrimRight rest "/") as [|a kept] eqn:T.
    + rewrite byte_in_slash. destruct (Ascii.eqb c "/") eqn:E.
      * apply Ascii.eqb_eq in E. subst c. exists (S k). simpl in *. now rewrite <- IH.
      * exists k. simpl in *. now rewrite <- IH.
    + exists k. simpl in *. now rewrite <- IH.
Qed.

(** What TrimRight keeps does not end in a slash. *)
Lemma TrimRight_no_trailing_slash : forall s t, TrimRight s "/" <> t ++ "/".
Proof.
  induction s as [|c rest IH]; intros t E.
  - destruct t; discriminate E.
  - simpl in E. destruct (TrimRight rest "/") as [|a kept] eqn:T.
    + rewrite byte_in_slash in E. destruct (Ascii.eqb c "/") eqn:C.
      * destruct t; discriminate E.
      * destruct t as [|b t]; simpl in E.
        -- injection E as ->. rewrite Ascii.eqb_refl in C. discriminate C.
        -- injection E as _ E. destruct t; discriminate E.
    + destruct t as [|b t]; simpl in E.
      * discriminate E.
      * injection E as _ E. exact (IH t E).
Qed.

Lemma apply_option_baseURL : forall opt c,
  clamav.baseURL (clamav.apply_option opt c) = clamav.baseURL c.
Proof.
  intros [hc|d|[h|]] c; simpl; try reflexivity.
  destruct (d >? 0); reflexivity.
Qed.

Lemma apply_options_baseURL : forall opts c,
  clamav.baseURL (fold_left (fun c opt => clamav.apply_option opt c) opts c)
  = clamav.baseURL c.
Proof.
  induction opts as [|opt opts IH]; intros c; simpl.
  - reflexivity.
  - rewrite IH. apply apply_option_baseURL.
Qed.

(** C8: NewClient strips the trailing slashes of the base address (what it
    cuts is a run of slashes, what it keeps has none at its end) and stores
    the result; it succeeds exactly when the stripped address parses to a
    URL with a scheme and a host, and otherwise fails with a Validation
    error, whatever the options.  NewClient is a pure function: it makes no
    network call.  With net/url's parser, "http://localhost:6000/" gives a
    client whose base URL is "http://localhost:6000", and "localhost:6000"
    fails with a Validation error. *)
Theorem NewClient_normalizes_and_validates :
  forall (url_Parse : string -> result Go.URL) (baseURL : string)
         (opts : list clamav.ClientOption),
    let stripped := TrimRight baseURL "/" in
    (exists k, baseURL = stripped ++ slashes k)
    /\ (forall t, stripped <> t ++ "/")
    /\ match clamav.NewClient url_Parse baseURL opts with
       | Ok c =>
           clamav.baseURL c = stripped
           /\ exists u, url_Parse stripped = Ok u
                        /\ Scheme u <> EmptyString /\ Host u <> EmptyString
       | Err e =>
           clamav.IsValidationError (Some e) = true
           /\ match url_Parse stripped with
              | Ok u => Scheme u = EmptyString \/ Host u = EmptyString
              | Err _ => True
              end
       end
    /\ (exists c, clamav.NewClient Go.url_Parse "http://localhost:6000/" opts = Ok c
                  /\ clamav.baseURL c = "http://localhost:6000")
    /\ (exists e, clamav.NewClient Go.url_Parse "localhost:6000" opts = Err e
                  /\ clamav.IsValidationError (Some e) = true).
Proof.
  intros url_Parse baseURL opts stripped.
  split; [apply TrimRight_slashes|].
  split; [apply TrimRight_no_trailing_slash|].
  split; [| split].
  - unfold clamav.NewClient. fold stripped.
    destruct (url_Parse stripped) as [u|err].
    + destruct (String.eqb (Scheme u) "") eqn:ES; simpl.
      * split; [reflexivity|]. left. apply String.eqb_eq. exact ES.
      * destruct (String.eqb (Host u) "") eqn:EH; simpl.
        -- split; [reflexivity|]. right. apply String.eqb_eq. exact EH.
        -- apply String.eqb_neq in ES, EH.
           assert (B : forall c0 : clamav.Client,
                     clamav.baseURL
                       match clamav.httpClient c0 with
                       | Some _ => c0
                       | None => clamav.mkClient (clamav.baseURL c0)
                                   (Some (clamav.timeout c0)) (clamav.timeout c0)
                                   (clamav.headers c0)
                       end = clamav.baseURL c0)
             by (intros c0; destruct (clamav.httpClient c0); reflexivity).
           rewrite B, apply_options_baseURL. simpl.
           split; [reflexivity|]. exists u. repeat split; assumption.
    + split; [reflexivity | exact I].
  - eexists. split; [reflexivity|].
    match goal with
    | |- clamav.baseURL ?c = _ =>
        assert (B : forall c0 : clamav.Client,
                  clamav.baseURL
                    match clamav.httpClient c0 with
                    | Some _ => c0
                    | None => clamav.mkClient (clamav.baseURL c0)
                                (Some (clamav.timeout c0)) (clamav.timeout c0)
                                (clamav.headers c0)
                    end = clamav.baseURL c0)
          by (intros c0; destruct (clamav.httpClient c0); reflexivity)
    end.
    rewrite B, apply_options_baseURL. reflexivity.
  - eexists. split; reflexivity.
Qed.

(** ** Health checks *)

Lemma rest_HealthCheck_answer :
  forall (url_Parse : string -> result Go.URL) (c : clamav.Client) (ctx : Context)
         (w : clamav.World) (req : clamav.Request) (resp : clamav.Response)
         (msg : string),
    clamav.newRequest url_Parse c ctx "GET" clamav.pathHealthCheck clamav.NoBody = Ok req ->
    clamav.transport w req = Ok resp ->
    clamav.decode_message (clamav.resp_Body resp) = Ok msg ->
    clamav.HealthCheck url_Parse c ctx w
    = (Ok (clamav.mkHealthCheckResult
             ((clamav.resp_StatusCode resp =? 200) && String.eqb msg "ok") msg),
       clamav.mkWorld (clamav.transport w) (clamav.calls w ++ [req])%list
                      (clamav.boundary w)).
Proof.
  intros url_Parse c ctx w req resp msg Hreq Hdo Hdec.
  unfold clamav.HealthCheck. rewrite Hreq.
  unfold clamav.do, clamav.http_Do, bind, ret.
  rewrite Hdo, Hdec. reflexivity.
Qed.

Lemma grpc_HealthCheck_answer :
  forall (c : grpc.Client) (ctx : Context) (w : grpc.World)
         (resp : grpc.HealthCheckResponse),
    grpc.server_HealthCheck w (fst (grpc.contextWithTimeout c ctx w)) = Ok resp ->
    fst (grpc.HealthCheck c ctx w)
    = (Some (clamav.mkHealthCheckResult (String.eqb (grpc.hc_Status resp) "healthy")
                                         (grpc.hc_Message resp)),
       None).
Proof.
  intros c ctx w resp Hresp.
  unfold grpc.HealthCheck, bind, ret.
  destruct (grpc.contextWithTimeout c ctx w) as [ctx' w'] eqn:C. simpl in Hresp.
  assert (W : grpc.server_HealthCheck w' = grpc.server_HealthCheck w).
  { unfold grpc.contextWithTimeout in C. destruct (Deadline ctx); now inversion C. }
  unfold grpc.scanner_HealthCheck. rewrite W, Hresp. reflexivity.
Qed.

(** C9: the two transports decide "healthy" by different rules.  When the
    REST health check gets a response whose body decodes, it reports
    Healthy exactly when the status code is 200 and the message is "ok";
    when the gRPC health check gets a response, it reports Healthy exactly
    when the status field is "healthy".  The rules are distinct: a 200
    answer with the message "healthy" is not healthy for the REST client,
    and the status "ok" is not healthy for the gRPC client. *)
Theorem HealthCheck_rules_differ_by_transport :
  (forall (url_Parse : string -> result Go.URL) (c : clamav.Client) (ctx : Context)
          (w : clamav.World) (req : clamav.Request) (resp : clamav.Response)
          (msg : string),
      clamav.newRequest url_Parse c ctx "GET" clamav.pathHealthCheck clamav.NoBody = Ok req ->
      clamav.transport w req = Ok resp ->
      clamav.decode_message (clamav.resp_Body resp) = Ok msg ->
      exists r,
        fst (clamav.HealthCheck url_Parse c ctx w) = Ok r
        /\ clamav.calls (snd (clamav.HealthCheck url_Parse c ctx w))
           = (clamav.calls w ++ [req])%list
        /\ clamav.hc_Message r = msg
        /\ (clamav.Healthy r = true <-> clamav.resp_StatusCode resp = 200 /\ msg = "ok"))
  /\ (forall (c : grpc.Client) (ctx : Context) (w : grpc.World)
             (resp : grpc.HealthCheckResponse),
        grpc.server_HealthCheck w (fst (grpc.contextWithTimeout c ctx w)) = Ok resp ->
        exists r,
          fst (grpc.HealthCheck c ctx w) = (Some r, None)
          /\ clamav.hc_Message r = grpc.hc_Message resp
          /\ (clamav.Healthy r = true <-> grpc.hc_Status resp = "healthy"))
  /\ (forall (url_Parse : string -> result Go.URL) (c : clamav.Client) (ctx : Context)
             (w : clamav.World) (req : clamav.Request),
        clamav.newRequest url_Parse c ctx "GET" clamav.pathHealthCheck clamav.NoBody = Ok req ->
        clamav.transport w req
        = Ok (clamav.mkResponse 200
                (clamav.JObject [("message", clamav.JString "healthy")])) ->
        fst (clamav.HealthCheck url_Parse c ctx w)
        = Ok (clamav.mkHealthCheckResult false "healthy"))
  /\ (forall (c : grpc.Client) (ctx : Context) (w : grpc.World) (m : string),
        grpc.server_HealthCheck w (fst (grpc.contextWithTimeout c ctx w))
        = Ok (grpc.mkHealthCheckResponse "ok" m) ->
        fst (grpc.HealthCheck c ctx w)
        = (Some (clamav.mkHealthCheckResult false m), None)).
Proof.
  split; [| split; [| split]].
  - intros url_Parse c ctx w req resp msg Hreq Hdo Hdec.
    rewrite (rest_HealthCheck_answer url_Parse c ctx w req resp msg Hreq Hdo Hdec).
    eexists. split; [reflexivity|]. split; [reflexivity|]. split; [reflexivity|].
    simpl. rewrite andb_true_iff, Z.eqb_eq, String.eqb_eq. reflexivity.
  - intros c ctx w resp Hresp.
    rewrite (grpc_HealthCheck_answer c ctx w resp Hresp).
    eexists. split; [reflexivity|]. split; [reflexivity|].
    simpl. apply String.eqb_eq.
  - intros url_Parse c ctx w req Hreq Hdo.
    rewrite (rest_HealthCheck_answer url_Parse c ctx w req _ "healthy" Hreq Hdo eq_refl).
    reflexivity.
  - intros c ctx w m Hresp.
    rewrite (grpc_HealthCheck_answer c ctx w _ Hresp). reflexivity.
Qed.

Lemma HealthCheck_rules_differ_by_transport_witness :
  let c := clamav.mkClient "http://localhost:6000" (Some 30) 30 [] in
  let answer := clamav.mkResponse 200 (clamav.JObject [("message", clamav.JString "ok")]) in
  let w := clamav.mkWorld (fun _ => Ok answer) [] "boundary" in
  let gw := grpc.mkWorld 0 (fun _ => Ok (grpc.mkHealthCheckResponse "healthy" "all good"))
                         (fun _ _ _ => Err EOF) [] in
  (exists r, fst (clamav.HealthCheck url_Parse c (mkContext None None) w) = Ok r
             /\ clamav.Healthy r = true)
  /\ (exists r, fst (grpc.HealthCheck (grpc.mkClient 30 65536 1024)
                       (mkContext None None) gw) = (Some r, None)
                /\ clamav.Healthy r = true).
Proof.
  intros c answer w gw.
  destruct HealthCheck_rules_differ_by_transport as (Rest & Grpc & _ & _).
  split.
  - destruct (Rest url_Parse c (mkContext None None) w
                (clamav.mkRequest "GET" "http://localhost:6000/api/health-check"
                   (mkContext None None) [] None clamav.NoBody)
                answer "ok" eq_refl eq_refl eq_refl) as (r & R & _ & _ & H).
    exists r. split; [exact R|]. apply H. split; reflexivity.
  - destruct (Grpc (grpc.mkClient 30 65536 1024) (mkContext None None) gw
                (grpc.mkHealthCheckResponse "healthy" "all good") eq_refl)
      as (r & R & _ & H).
    exists r. split; [exact R|]. apply H. reflexivity.
Defined.

(** ** Empty payloads on the REST transport *)

(** Whatever the answer, [do] and [doScan] hand exactly one request to
    the HTTP client. *)
Lemma do_calls : forall c req w,
  clamav.calls (snd (clamav.do c req w)) = (clamav.calls w ++ [req])%list.
Proof.
  intros c req w. unfold clamav.do, clamav.http_Do, bind, ret.
  destruct (clamav.transport w req) as [resp|e]; [reflexivity|].
  destruct (clamav.classifyTransportError (Some e)); reflexivity.
Qed.

Lemma doScan_calls : forall c req w,
  clamav.calls (snd (clamav.doScan c req w)) = (clamav.calls w ++ [req])%list.
Proof.
  intros c req w. pose proof (do_calls c req w) as D.
  unfold clamav.doScan, bind. destruct (clamav.do c req w) as [[resp|e] w'].
  - destruct (negb (clamav.resp_StatusCode resp =? 200)); [exact D|].
    destruct (clamav.decode_ScanResult (clamav.resp_Body resp)); exact D.
  - exact D.
Qed.

Lemma ScanFile_cases : forall url_Parse c ctx data filename w,
  match url_Parse (clamav.baseURL c ++ clamav.pathScan) with
  | Err err =>
      clamav.ScanFile url_Parse c ctx data filename w
      = (Err (clamav.as_error
                (clamav.NewConnectionError "failed to create request" (Some err))), w)
  | Ok _ =>
      clamav.ScanFile url_Parse c ctx data filename w
      = clamav.doScan c (scan_request c ctx w data filename) w
      /\ clamav.calls (snd (clamav.ScanFile url_Parse c ctx data filename w))
         = (clamav.calls w ++ [scan_request c ctx w data filename])%list
  end.
Proof.
  intros url_Parse c ctx data filename w.
  assert (E : clamav.ScanFile url_Parse c ctx data filename w
              = match url_Parse (clamav.baseURL c ++ clamav.pathScan) with
                | Err err =>
                    (Err (clamav.as_error
                            (clamav.NewConnectionError "failed to create request"
                               (Some err))), w)
                | Ok _ => clamav.doScan c (scan_request c ctx w data filename) w
                end).
  { unfold clamav.ScanFile, clamav.ScanReader, clamav.multipart_NewWriter, bind,
      io_Copy, bytes_NewReader, clamav.newRequest, rd_err, rd_data.
    destruct (url_Parse (clamav.baseURL c ++ clamav.pathScan)); reflexivity. }
  destruct (url_Parse (clamav.baseURL c ++ clamav.pathScan)) as [u|err]; [|exact E].
  split; [exact E|]. rewrite E. apply doScan_calls.
Qed.

(** C10: the REST ScanFile (and the ScanReader under it) accepts an empty
    payload.  No input check rejects it: the call either cannot build its
    request (a Connection error, when the address does not parse) or hands
    one multipart request with an empty file part to the HTTP client, and
    its result is the one doScan derives from the answer -- a success when
    the server answers 200 with a scan result.  A Validation error can
    therefore only come back from the server.  The gRPC ScanFile rejects
    the same payload without a call. *)
Theorem rest_ScanFile_accepts_empty_payload :
  forall (url_Parse : string -> result Go.URL) (c : clamav.Client) (ctx : Context)
         (filename : string) (w : clamav.World),
    let run := clamav.ScanFile url_Parse c ctx [] filename w in
    let req := scan_request c ctx w [] filename in
    clamav.ScanReader url_Parse c ctx (bytes_NewReader []) filename w = run
    /\ ((exists err, run = (Err (clamav.as_error
                                   (clamav.NewConnectionError "failed to create request"
                                      (Some err))), w))
        \/ (run = clamav.doScan c req w
            /\ clamav.calls (snd run) = (clamav.calls w ++ [req])%list
            /\ clamav.Body req
               = clamav.Multipart (clamav.boundary w)
                   [clamav.mkFormFile "file"
                      (if String.eqb filename "" then "file" else filename) []]))
    /\ (forall e, fst run = Err e -> clamav.IsValidationError (Some e) = true ->
          clamav.calls (snd run) = (clamav.calls w ++ [req])%list)
    /\ (forall u answer result,
          url_Parse (clamav.baseURL c ++ clamav.pathScan) = Ok u ->
          clamav.transport w req = Ok answer ->
          clamav.resp_StatusCode answer = 200 ->
          clamav.decode_ScanResult (clamav.resp_Body answer) = Ok result ->
          fst run = Ok result)
    /\ (forall gc gctx gw,
          exists e, grpc.ScanFile gc gctx [] filename gw = ((None, Some e), gw)
                    /\ clamav.IsValidationError (Some e) = true).
Proof.
  intros url_Parse c ctx filename w run req.
  pose proof (ScanFile_cases url_Parse c ctx [] filename w) as Cases.
  fold run req in Cases.
  split; [reflexivity|].
  destruct (url_Parse (clamav.baseURL c ++ clamav.pathScan)) as [u|err] eqn:P.
  - destruct Cases as [Run Calls]. split; [| split; [| split]].
    + right. repeat split; assumption.
    + intros e _ _. exact Calls.
    + intros u' answer result _ Hanswer H200 Hdec. rewrite Run.
      unfold clamav.doScan, clamav.do, clamav.http_Do, bind, ret. simpl.
      rewrite Hanswer. simpl. rewrite H200. simpl. rewrite Hdec. reflexivity.
    + intros gc gctx gw. eexists. split; reflexivity.
  - split; [| split; [| split]].
    + left. exists err. exact Cases.
    + intros e He Hv. rewrite Cases in He. simpl in He. injection He as <-.
      discriminate Hv.
    + intros u' answer result Hu. discriminate Hu.
    + intros gc gctx gw. eexists. split; reflexivity.
Qed.

Lemma rest_ScanFile_accepts_empty_payload_witness :
  let c := clamav.mkClient "http://localhost:6000" (Some 30) 30 [] in
  let answer := clamav.mkResponse 200 (clamav.JObject [("status", clamav.JString "OK")]) in
  let w := clamav.mkWorld (fun _ => Ok answer) [] "boundary" in
  fst (clamav.ScanFile url_Parse c (mkContext None None) [] "empty.txt" w)
  = Ok (clamav.mkScanResult "OK" "" "0" "").
Proof.
  intros c answer w.
  destruct (rest_ScanFile_accepts_empty_payload url_Parse c (mkContext None None)
              "empty.txt" w) as (_ & _ & _ & Success & _).
  exact (Success (mkURL "http" "" "localhost:6000" "/api/scan" "" "") answer
           (clamav.mkScanResult "OK" "" "0" "") eq_refl eq_refl eq_refl eq_refl).
Defined.

(** ** Chunking *)

Section Chunking.
Import grpc.
Local Open Scope list_scope.

Lemma wrap_int_in_range : forall z, min_int <= z <= max_int -> wrap_int z = z.
Proof.
  intros z. unfold wrap_int, min_int, max_int. intros Hz.
  rewrite Z.mod_small; lia.
Qed.

Lemma Send_reliable : forall log n req,
  Send (reliable log n) req = (None, reliable (log ++ [req]) (S n)).
Proof. reflexivity. Qed.

(** Past the end of the data the loop is over, whatever the fuel. *)
Lemma sendChunks_loop_exit : forall fuel c (stream : Recorder) data filename i,
  len data <= i ->
  sendChunks_loop fuel c stream data filename i = Some (Return None, stream).
Proof.
  intros fuel c stream data filename i Hi.
  destruct fuel; simpl; destruct (i <? len data) eqn:E; try reflexivity;
    apply Z.ltb_lt in E; lia.
Qed.

(** One iteration on a stream that accepts the chunk. *)
Lemma sendChunks_loop_step : forall fuel c log n data filename i,
  0 <= i < len data -> 1 <= chunkSize c -> i + chunkSize c <= max_int ->
  sendChunks_loop (S fuel) c (reliable log n) data filename i
  = sendChunks_loop fuel c
      (reliable
         (log ++ [mkScanStreamRequest
                    (firstn (Z.to_nat (Z.min (i + chunkSize c) (len data) - i))
                            (skipn (Z.to_nat i) data))
                    (if i =? 0 then filename else EmptyString)
                    (len data <=? i + chunkSize c)])
         (S n))
      data filename (i + chunkSize c).
Proof.
  intros fuel c log n data filename i Hi Hc Hmax.
  cbn [sendChunks_loop].
  destruct (i <? len data) eqn:E; [| apply Z.ltb_ge in E; lia].
  unfold int_add. rewrite wrap_int_in_range by (unfold min_int, max_int in *; lia).
  set (e := i + chunkSize c).
  assert (Hend : (if e >? len data then len data else e) = Z.min e (len data)).
  { destruct (e >? len data) eqn:G.
    - apply Z.gtb_lt in G. lia.
    - rewrite Z.gtb_ltb in G. apply Z.ltb_ge in G. lia. }
  rewrite Hend. unfold slice.
  assert (R : (0 <=? i) && (i <=? Z.min e (len data)) && (Z.min e (len data) <=? len data)
              = true).
  { rewrite !andb_true_iff, !Z.leb_le. unfold e. lia. }
  rewrite R. rewrite Send_reliable.
  assert (L : (Z.min e (len data) =? len data) = (len data <=? e)).
  { destruct (len data <=? e) eqn:G.
    - apply Z.leb_le in G. apply Z.eqb_eq. lia.
    - apply Z.leb_gt in G. apply Z.eqb_neq. lia. }
  rewrite L. reflexivity.
Qed.

Lemma len_nonneg : forall data, 0 <= len data.
Proof. intros data. unfold len. lia. Qed.

(** The loop on a reliable stream, entered at [i]: the chunks it sends. *)
Lemma sendChunks_loop_reliable : forall c data filename,
  1 <= chunkSize c <= max_int -> len data <= maxAlloc ->
  forall m i log n,
    0 <= i < len data -> (i = 0 \/ chunkSize c <= i) ->
    (Z.to_nat (len data - i) <= m)%nat ->
    exists chunks,
      (forall fuel, (m <= fuel)%nat ->
         sendChunks_loop fuel c (reliable log n) data filename i
         = Some (Return None, reliable (log ++ chunks) (n + List.length chunks)))
      /\ List.concat (map Chunk chunks) = skipn (Z.to_nat i) data
      /\ Forall (fun r => 0 < len (Chunk r) <= chunkSize c) chunks
      /\ (exists first rest,
             chunks = first :: rest
             /\ Filename first = (if i =? 0 then filename else EmptyString)
             /\ Forall (fun r => Filename r = EmptyString) rest)
      /\ (exists front last,
             chunks = front ++ [last]
             /\ IsLast last = true
             /\ Forall (fun r => IsLast r = false) front).
Proof.
  intros c data filename Hc Hlen.
  assert (Halloc : maxAlloc = 2 ^ 48) by reflexivity.
  assert (Hmaxint : max_int = 2 ^ 63 - 1) by reflexivity.
  induction m as [|m IH]; intros i log n Hi Hmul Hm.
  - exfalso. lia.
  - set (cs := chunkSize c) in *.
    assert (Hsum : i + cs <= max_int) by lia.
    set (req := mkScanStreamRequest
                  (firstn (Z.to_nat (Z.min (i + cs) (len data) - i))
                          (skipn (Z.to_nat i) data))
                  (if i =? 0 then filename else EmptyString)
                  (len data <=? i + cs)).
    assert (Hi' : (Z.to_nat i <= List.length data)%nat) by (unfold len in Hi; lia).
    assert (Hchunk : len (Chunk req) = Z.min (i + cs) (len data) - i).
    { unfold req, len. simpl. rewrite length_firstn, length_skipn.
      unfold len. lia. }
    destruct (Z_le_gt_dec (len data) (i + cs)) as [Hlast|Hmore].
    + (* the chunk reaches the end of the data *)
      exists [req]. repeat split.
      * intros fuel Hfuel. destruct fuel as [|fuel]; [lia|].
        rewrite sendChunks_loop_step by (fold cs; lia).
        fold cs. fold req. rewrite sendChunks_loop_exit by lia.
        simpl. rewrite Nat.add_1_r. reflexivity.
      * simpl. rewrite app_nil_r. apply firstn_all2.
        rewrite length_skipn. unfold len in *. lia.
      * constructor; [| constructor]. rewrite Hchunk. lia.
      * exists req, []. repeat split. constructor.
      * exists [], req. repeat split; [| constructor].
        simpl. apply Z.leb_le. exact Hlast.
    + (* more data follows *)
      destruct (IH (i + cs) (log ++ [req])%list (S n)) as
          (chunks & Hrun & Hcat & Hsize & (first & rest & Hfirst & Hname & Hnames)
           & (front & last & Hsplit & Hlast & Hfront)).
      { lia. } { right. lia. } { lia. }
      exists (req :: chunks). repeat split.
      * intros fuel Hfuel. destruct fuel as [|fuel]; [lia|].
        rewrite sendChunks_loop_step by (fold cs; lia).
        fold cs. fold req. rewrite Hrun by lia.
        rewrite <- app_assoc. simpl. rewrite Nat.add_succ_r. reflexivity.
      * simpl. rewrite Hcat.
        replace (Z.to_nat (Z.min (i + cs) (len data) - i)) with (Z.to_nat cs) by lia.
        replace (Z.to_nat (i + cs)) with (Z.to_nat cs + Z.to_nat i)%nat by lia.
        rewrite <- skipn_skipn. apply firstn_skipn.
      * constructor; [| exact Hsize]. rewrite Hchunk. lia.
      * exists req, chunks. repeat split.
        rewrite Hfirst. constructor.
        -- rewrite Hname.
           assert (N0 : (i + cs =? 0) = false) by (apply Z.eqb_neq; lia).
           rewrite N0. reflexivity.
        -- exact Hnames.
      * exists (req :: front), last. repeat split.
        -- simpl. rewrite Hsplit. reflexivity.
        -- exact Hlast.
        -- constructor; [| exact Hfront]. simpl. apply Z.leb_gt. lia.
Qed.

End Chunking.

(** C1: for every payload and every chunk size of at least 1, sendChunks
    on a stream that accepts every chunk returns nil (given fuel for one
    iteration per byte, it always returns) after sending chunks of at most
    the chunk size whose concatenation, in the order sent, is the payload;
    the first chunk carries the filename and no other does; exactly one
    chunk is marked final, and it is the last one.  An empty payload gives
    exactly one chunk: no bytes, the filename, the final flag; a non-empty
    payload gives no empty chunk.  ScanStreamReader, which reads its
    payload from a source, sends the same single chunk when the source is
    empty.  The chunk size is an [int] and the payload a slice the runtime
    can hold. *)
Theorem sendChunks_reassembles_payload :
  forall (c : grpc.Client) (data : bytes) (filename : string)
         (log : list grpc.ScanStreamRequest) (n : nat),
    1 <= grpc.chunkSize c <= max_int ->
    len data <= maxAlloc ->
    (exists chunks : list grpc.ScanStreamRequest,
        (forall fuel, (List.length data <= fuel)%nat ->
           grpc.sendChunks fuel c (grpc.reliable log n) data filename
           = Some (Return None,
                   grpc.reliable (log ++ chunks)%list (n + List.length chunks)))
        /\ List.concat (map grpc.Chunk chunks) = data
        /\ Forall (fun r => len (grpc.Chunk r) <= grpc.chunkSize c) chunks
        /\ (exists first rest,
               chunks = first :: rest
               /\ grpc.Filename first = filename
               /\ Forall (fun r => grpc.Filename r = EmptyString) rest)
        /\ (exists front last,
               chunks = (front ++ [last])%list
               /\ grpc.IsLast last = true
               /\ Forall (fun r => grpc.IsLast r = false) front)
        /\ match data with
           | [] => chunks = [grpc.mkScanStreamRequest [] filename true]
           | _ :: _ => Forall (fun r => 0 < len (grpc.Chunk r)) chunks
           end)
    /\ (forall (CloseAndRecv : grpc.Recorder -> result grpc.ScanResponse)
               (later_reads : list (bytes * option error)),
          exists answer,
            grpc.ScanStreamReader CloseAndRecv c (Ok (grpc.reliable log n))
              (([], Some EOF) :: later_reads) filename
            = Some (Return
                      (answer,
                       Some (grpc.reliable
                               (log ++ [grpc.mkScanStreamRequest [] filename true])%list
                               (S n))))).
Proof.
  intros c data filename log n Hc Hlen. split.
  2: { intros CloseAndRecv later_reads. unfold grpc.ScanStreamReader.
       destruct (grpc.chunkSize c <? 0) eqn:E; [apply Z.ltb_lt in E; lia|].
       simpl.
       match goal with
       | |- context [CloseAndRecv ?x] => destruct (CloseAndRecv x)
       end; eexists; reflexivity. }
  destruct data as [|b data].
  - exists [grpc.mkScanStreamRequest [] filename true]. repeat split.
    + intros fuel _. unfold grpc.sendChunks. simpl.
      rewrite Nat.add_1_r. reflexivity.
    + constructor; [simpl; unfold len; simpl; lia | constructor].
    + exists (grpc.mkScanStreamRequest [] filename true), []. repeat split. constructor.
    + exists [], (grpc.mkScanStreamRequest [] filename true). repeat split. constructor.
  - set (payload := b :: data) in *.
    assert (Hpos : 0 < len payload) by (unfold len, payload; simpl; lia).
    destruct (sendChunks_loop_reliable c payload filename Hc Hlen
                (List.length payload) 0 log n) as
        (chunks & Hrun & Hcat & Hsize & Hfirst & Hlast).
    { lia. } { left. reflexivity. } { unfold len. lia. }
    exists chunks. repeat split.
    + intros fuel Hfuel. unfold grpc.sendChunks.
      destruct (len payload =? 0) eqn:E; [apply Z.eqb_eq in E; lia|].
      apply Hrun. exact Hfuel.
    + exact Hcat.
    + eapply Forall_impl; [| exact Hsize]. simpl. intros r Hr. lia.
    + exact Hfirst.
    + exact Hlast.
    + eapply Forall_impl; [| exact Hsize]. simpl. intros r Hr. lia.
Qed.

Lemma sendChunks_reassembles_payload_witness :
  let c := grpc.mkClient grpc.defaultTimeout 5 grpc.defaultMaxMessageSize in
  let data := repeat Byte.x58 23 in
  exists chunks,
    grpc.sendChunks 23 c (grpc.reliable [] 0) data "chunked.txt"
    = Some (Return None, grpc.reliable chunks (List.length chunks))
    /\ List.concat (map grpc.Chunk chunks) = data.
Proof.
  intros c data.
  destruct (sendChunks_reassembles_payload c data "chunked.txt" [] 0)
    as ((chunks & Hrun & Hcat & _) & _).
  - vm_compute. split; discriminate.
  - vm_compute. discriminate.
  - exists chunks. split; [| exact Hcat].
    apply (Hrun 23%nat). vm_compute. reflexivity.
Defined.

(** A remark on ScanStreamReader beyond the empty source: the final flag
    is set on a chunk only when the reader reports [io.EOF] together with
    that chunk's bytes.  A reader that reports it with a later, empty read
    -- as [bytes.Reader], [strings.Reader] and [os.File] do -- has all its
    chunks sent without the flag, and no empty final chunk follows, since
    [first] is false by then. *)
Lemma ScanStreamReader_final_flag_needs_eof_with_data :
  forall (CloseAndRecv : grpc.Recorder -> result grpc.ScanResponse)
         (c : grpc.Client) (b : Byte.byte) (data : bytes) (filename : string),
    0 <= grpc.chunkSize c ->
    exists answer,
      grpc.ScanStreamReader CloseAndRecv c (Ok (grpc.reliable [] 0))
        [(b :: data, None); ([], Some EOF)] filename
      = Some (Return
                (answer,
                 Some (grpc.reliable
                         [grpc.mkScanStreamRequest (b :: data) filename false] 1))).
Proof.
  intros CloseAndRecv c b data filename Hc. unfold grpc.ScanStreamReader.
  destruct (grpc.chunkSize c <? 0) eqn:E; [apply Z.ltb_lt in E; lia|].
  unfold grpc.ScanStreamReader_loop.
  assert (L : (0 <? len (b :: data)) = true)
    by (apply Z.ltb_lt; unfold len; simpl; lia).
  rewrite L. simpl.
  match goal with
  | |- context [CloseAndRecv ?x] => destruct (CloseAndRecv x)
  end; eexists; reflexivity.
Qed.

(** ** ScanMultiple *)

Section Batch.
Import grpc.
Local Open Scope list_scope.
Local Open Scope nat_scope.
Context {S : Type} `{chunkSender S}.
Variable c : Client.
Variable files : list clamav.FileInput.

Lemma start_inv : forall ctx (stream : S) incoming,
  session_inv files (List.length files + List.length incoming)
    (start ctx files stream incoming).
Proof.
  intros ctx stream incoming. constructor; simpl; try reflexivity; try exact I.
  - discriminate.
  - discriminate.
  - intros k r E. discriminate E.
  - unfold potential. simpl. lia.
Qed.

Lemma step_inv : forall bound s s',
  session_inv files bound s -> step c files s s' -> session_inv files bound s'.
Proof.
  intros bound s s' [I0 I1 I2 I3 IC I4 IR IT I5] St. unfold potential in I5.
  inversion St; subst; clear St;
    repeat match goal with
           | E : nth_error files ?k = Some _ |- _ =>
               lazymatch goal with
               | L : (k < List.length files) |- _ => fail
               | _ => assert (k < List.length files)
                        by (apply nth_error_Some; rewrite E; discriminate)
               end
           end;
    constructor; unfold potential; simpl;
    try (intros k0 r0 E0);
    repeat match goal with
           | E : sender s = _ |- _ => rewrite E in *; clear E
           | E : receiver s = _ |- _ => rewrite E in *; clear E
           | E : incoming s = _ |- _ => rewrite E in *; clear E
           end;
    simpl in *; try rewrite length_app; simpl;
    try assumption; try reflexivity; try exact I; try lia; try congruence;
    try (exact (IR _ _ eq_refl));
    try (injection E0 as <- <-; eauto);
    auto.
Qed.

Lemma steps_inv : forall bound s s',
  session_inv files bound s -> steps c files s s' -> session_inv files bound s'.
Proof.
  intros bound s s' Inv St. induction St as [s|s1 s2 s3 St _ IH].
  - exact Inv.
  - apply IH. eapply step_inv; eassumption.
Qed.

(** Once the channel is closed nothing more is sent on it. *)
Lemma step_closed : forall bound s s',
  session_inv files bound s -> step c files s s' -> closed s = true ->
  closed s' = true /\ results s' = results s.
Proof.
  intros bound s s' [_ _ I2 _ _ _ _ _ _] St Cl. rewrite Cl in I2.
  inversion St; subst; clear St; simpl;
    repeat match goal with
           | E : receiver s = _ |- _ => rewrite E in *; clear E
           end;
    try discriminate; try congruence; auto.
Qed.

Lemma steps_closed : forall bound s s',
  session_inv files bound s -> steps c files s s' -> closed s = true ->
  closed s' = true /\ results s' = results s.
Proof.
  intros bound s s' Inv St. induction St as [s|s1 s2 s3 St _ IH]; intros Cl.
  - split; [exact Cl | reflexivity].
  - destruct (step_closed bound s1 s2 Inv St Cl) as [Cl2 R2].
    destruct (IH (step_inv bound s1 s2 Inv St) Cl2) as [Cl3 R3].
    split; [exact Cl3 | congruence].
Qed.

Lemma bufSize_small :
  (Z.of_nat (List.length files) <= maxAlloc)%Z ->
  bufSize files = (2 * Z.of_nat (List.length files) + 1)%Z.
Proof.
  intros Hn. unfold bufSize. assert (maxAlloc = 2 ^ 48)%Z by reflexivity.
  rewrite (wrap_int_in_range (2 * Z.of_nat (List.length files)))
    by (unfold min_int, max_int; lia).
  rewrite wrap_int_in_range by (unfold min_int, max_int; lia).
  destruct (2 * Z.of_nat (List.length files) + 1 <? 1)%Z eqn:E; [|reflexivity].
  apply Z.ltb_lt in E. lia.
Qed.

Lemma steps_trans : forall s1 s2 s3,
  steps c files s1 s2 -> steps c files s2 s3 -> steps c files s1 s3.
Proof.
  intros s1 s2 s3 A B. induction A as [s|s1 s2 s2' St _ IH]; [exact B|].
  eapply steps_cons; [exact St | apply IH; exact B].
Qed.

(** *** sendChunks, one [Send] at a time *)

(** The loop of sendChunks is [sendChunks_step] repeated. *)
Lemma sendChunks_loop_by_steps : forall fuel (stream : S) data filename i,
  len data <> 0%Z ->
  sendChunks_loop (Datatypes.S fuel) c stream data filename i
  = match sendChunks_step c stream data filename i with
    | ChunkNext i' stream' => sendChunks_loop fuel c stream' data filename i'
    | ChunkDone r stream' => Some (r, stream')
    end.
Proof.
  intros fuel stream data filename i Hlen.
  unfold sendChunks_step. apply Z.eqb_neq in Hlen. rewrite Hlen.
  cbn [sendChunks_loop].
  destruct (i <? len data)%Z; [| reflexivity].
  match goal with
  | |- context [slice ?d ?lo ?hi] => destruct (slice d lo hi) as [chunk|]
  end; [| reflexivity].
  match goal with
  | |- context [Send ?st ?req] => destruct (Send st req) as [[err|] stream']
  end; reflexivity.
Qed.

Lemma sendChunks_loop_done : forall (stream : S) data filename i,
  len data <> 0%Z -> (len data <= i)%Z ->
  sendChunks_step c stream data filename i = ChunkDone (Return None) stream.
Proof.
  intros stream data filename i Hlen Hi. unfold sendChunks_step.
  apply Z.eqb_neq in Hlen. rewrite Hlen.
  destruct (i <? len data)%Z eqn:E; [apply Z.ltb_lt in E; lia | reflexivity].
Qed.

Lemma sender_done_step : forall s k i file out stream',
  panicked s = false -> sender s = Chunking k i -> nth_error files k = Some file ->
  sendChunks_step c (stream s) (clamav.Data file) (clamav.fi_Filename file) i
    = ChunkDone out stream' ->
  exists s', step c files s s' /\ after_sendChunks s k file out stream' s'.
Proof.
  intros s k i file out stream' Hp Hs Hf Hstep.
  destruct out as [[err|]|]; eexists; (split; [| simpl; try reflexivity]).
  - eapply sender_failed; eassumption.
  - eapply sender_sent; eassumption.
  - eapply sender_panic; eassumption.
  - exists i. reflexivity.
Qed.

Lemma sendChunks_loop_run : forall fuel s k file i out stream',
  panicked s = false -> sender s = Chunking k i -> nth_error files k = Some file ->
  len (clamav.Data file) <> 0%Z ->
  sendChunks_loop fuel c (stream s) (clamav.Data file) (clamav.fi_Filename file) i
    = Some (out, stream') ->
  exists s', steps c files s s' /\ after_sendChunks s k file out stream' s'.
Proof.
  induction fuel as [|fuel IH]; intros s k file i out stream' Hp Hs Hf Hlen Run.
  - cbn [sendChunks_loop] in Run.
    destruct (i <? len (clamav.Data file))%Z eqn:E; [discriminate Run|].
    injection Run as <- <-. apply Z.ltb_ge in E.
    destruct (sender_done_step s k i file (Return None) (stream s) Hp Hs Hf
                (sendChunks_loop_done _ _ _ _ Hlen E)) as (s' & St & A).
    exists s'. split; [eapply steps_cons; [exact St | apply steps_refl] | exact A].
  - rewrite sendChunks_loop_by_steps in Run by exact Hlen.
    destruct (sendChunks_step c (stream s) (clamav.Data file) (clamav.fi_Filename file) i)
      as [i' stream1 | r stream1] eqn:Step.
    + destruct (IH (set_sender s stream1 (Chunking k i')) k file i' out stream'
                  Hp eq_refl Hf Hlen Run) as (s' & Sts & A).
      exists s'. split.
      * eapply steps_cons; [eapply sender_chunk; eassumption | exact Sts].
      * exact A.
    + injection Run as <- <-.
      destruct (sender_done_step s k i file r stream1 Hp Hs Hf Step) as (s' & St & A).
      exists s'. split; [eapply steps_cons; [exact St | apply steps_refl] | exact A].
Qed.

(** The sender's whole call of sendChunks, as steps of the session. *)
Lemma sendChunks_run : forall fuel s k file out stream',
  panicked s = false -> sender s = Chunking k 0 -> nth_error files k = Some file ->
  sendChunks fuel c (stream s) (clamav.Data file) (clamav.fi_Filename file)
    = Some (out, stream') ->
  exists s', steps c files s s' /\ after_sendChunks s k file out stream' s'.
Proof.
  intros fuel s k file out stream' Hp Hs Hf Run. unfold sendChunks in Run.
  destruct (len (clamav.Data file) =? 0)%Z eqn:E.
  - assert (Step : sendChunks_step c (stream s) (clamav.Data file)
                     (clamav.fi_Filename file) 0 = ChunkDone out stream').
    { unfold sendChunks_step. rewrite E.
      destruct (Send (stream s)
                  (mkScanStreamRequest [] (clamav.fi_Filename file) true)) as [err st].
      injection Run as <- <-. reflexivity. }
    destruct (sender_done_step s k 0%Z file out stream' Hp Hs Hf Step) as (s' & St & A).
    exists s'. split; [eapply steps_cons; [exact St | apply steps_refl] | exact A].
  - apply Z.eqb_neq in E. eapply sendChunks_loop_run; eassumption.
Qed.

(** *** Every execution is finite *)

Lemma wrap_int_overflow : forall z : Z,
  (max_int < z <= 2 ^ 64 + max_int)%Z -> wrap_int z = (z - 2 ^ 64)%Z.
Proof.
  intros z. unfold wrap_int, min_int, max_int. intros Hz.
  replace (z + 2 ^ 63)%Z with ((z + 2 ^ 63 - 2 ^ 64) + 1 * 2 ^ 64)%Z by lia.
  rewrite Z.mod_add by lia. rewrite Z.mod_small; lia.
Qed.

Lemma chunk_rounds_pos : forall data i, 1 <= chunk_rounds data i.
Proof.
  intros data i. unfold chunk_rounds.
  destruct ((0 <=? i)%Z && (i <? len data)%Z); lia.
Qed.

Lemma chunk_rounds_start : forall data, chunk_rounds data 0 <= Datatypes.S (List.length data).
Proof.
  intros data. unfold chunk_rounds.
  destruct ((0 <=? 0)%Z && (0 <? len data)%Z); [| lia].
  unfold len. lia.
Qed.

(** A round that goes on leaves fewer rounds. *)
Lemma chunk_rounds_next : forall (stream : S) data filename i i' stream',
  (1 <= chunkSize c <= max_int)%Z -> (len data <= maxAlloc)%Z ->
  sendChunks_step c stream data filename i = ChunkNext i' stream' ->
  chunk_rounds data i' < chunk_rounds data i.
Proof.
  intros stream data filename i i' stream' Hc Hlen Step.
  assert (Halloc : maxAlloc = (2 ^ 48)%Z) by reflexivity.
  assert (Hmaxint : max_int = (2 ^ 63 - 1)%Z) by reflexivity.
  assert (Hminint : min_int = (- 2 ^ 63)%Z) by reflexivity.
  unfold sendChunks_step in Step.
  destruct (len data =? 0)%Z.
  { destruct (Send stream (mkScanStreamRequest [] filename true)); discriminate Step. }
  destruct (i <? len data)%Z eqn:Lt; [| discriminate Step].
  apply Z.ltb_lt in Lt.
  match type of Step with
  | context [slice ?d ?lo ?hi] => destruct (slice d lo hi) as [chunk|] eqn:Sl
  end; [| discriminate Step].
  unfold slice in Sl.
  match type of Sl with
  | (if ?b then _ else _) = _ => destruct b eqn:B; [| discriminate Sl]
  end.
  rewrite !andb_true_iff in B. destruct B as [[B0 _] _]. apply Z.leb_le in B0.
  match type of Step with
  | context [Send ?st ?req] => destruct (Send st req) as [[err|] st']
  end; [discriminate Step|].
  injection Step as <- _.
  unfold chunk_rounds.
  assert (In_i : ((0 <=? i)%Z && (i <? len data)%Z) = true).
  { rewrite andb_true_iff, Z.leb_le, Z.ltb_lt. lia. }
  rewrite In_i.
  destruct ((0 <=? int_add i (chunkSize c))%Z && (int_add i (chunkSize c) <? len data)%Z)
    eqn:In_i'; [| lia].
  rewrite andb_true_iff, Z.leb_le, Z.ltb_lt in In_i'. unfold int_add in *.
  destruct (Z_le_gt_dec (i + chunkSize c) max_int) as [Small|Big].
  - rewrite wrap_int_in_range in * by lia. lia.
  - rewrite wrap_int_overflow in In_i' by lia. lia.
Qed.

Lemma skipn_nth_error : forall (k : nat) (file : clamav.FileInput),
  nth_error files k = Some file ->
  skipn k files = file :: skipn (Datatypes.S k) files.
Proof.
  intros k. generalize files. induction k as [|k IH]; intros l file E.
  - destruct l; [discriminate E|]. injection E as ->. reflexivity.
  - destruct l as [|x l]; [discriminate E|]. simpl in E.
    change (skipn (Datatypes.S k) (x :: l)) with (skipn k l).
    rewrite (IH l file E). reflexivity.
Qed.

Lemma sender_measure_enter : forall k file,
  nth_error files k = Some file ->
  sender_measure files (Chunking k 0) < sender_measure files (SendFile k).
Proof.
  intros k file E. unfold sender_measure. rewrite E, (skipn_nth_error k file E).
  unfold files_cost. cbn [fold_right]. unfold file_cost.
  pose proof (chunk_rounds_start (clamav.Data file)). lia.
Qed.

Lemma sender_measure_chunk : forall (stream : S) k i file i' stream',
  (1 <= chunkSize c <= max_int)%Z ->
  Forall (fun f => (len (clamav.Data f) <= maxAlloc)%Z) files ->
  nth_error files k = Some file ->
  sendChunks_step c stream (clamav.Data file) (clamav.fi_Filename file) i
    = ChunkNext i' stream' ->
  sender_measure files (Chunking k i') < sender_measure files (Chunking k i).
Proof.
  intros stream k i file i' stream' Hc Hfiles E Step. unfold sender_measure. rewrite E.
  assert (Hlen : (len (clamav.Data file) <= maxAlloc)%Z).
  { rewrite Forall_forall in Hfiles. apply Hfiles. eapply nth_error_In. exact E. }
  pose proof (chunk_rounds_next stream _ _ i i' stream' Hc Hlen Step). lia.
Qed.

Lemma sender_measure_leave : forall k i file r,
  nth_error files k = Some file ->
  sender_measure files (SendFile (Datatypes.S k)) < sender_measure files (SendResult k r)
  /\ sender_measure files (SendResult k r) < sender_measure files (Chunking k i).
Proof.
  intros k i file r E. unfold sender_measure. rewrite E.
  pose proof (chunk_rounds_pos (clamav.Data file) i). lia.
Qed.

Lemma sender_measure_pos : forall p,
  p <> SenderDone -> 0 < sender_measure files p.
Proof.
  intros [k|k i|k r|] Hp; unfold sender_measure; try lia. contradiction Hp; reflexivity.
Qed.

Ltac measure_norm s :=
  unfold measure, potential, cancels, takes, sender_returns, set_sender, set_receiver,
    receiver_returns, receiver_cancels, receiver_closes, set_receiver, push, panics;
  cbn [panicked ctx_done taken sender receiver incoming results stream];
  repeat match goal with
         | E : panicked s = _ |- _ => rewrite E
         | E : ctx_done s = _ |- _ => rewrite E
         | E : sender s = _ |- _ => rewrite E
         | E : receiver s = _ |- _ => rewrite E
         | E : incoming s = _ |- _ => rewrite E
         end;
  cbn [sender_budget receiver_budget receiver_measure List.length];
  try rewrite length_app; cbn [List.length].

(** Each step makes the measure smaller. *)
Lemma step_measure : forall bound s s',
  (1 <= chunkSize c <= max_int)%Z ->
  Forall (fun f => (len (clamav.Data f) <= maxAlloc)%Z) files ->
  session_inv files bound s -> step c files s s' ->
  measure files s' < measure files s.
Proof.
  intros bound s s' Hc Hfiles [I0 I1 I2 I3 IC I4 IR IT I5] St.
  unfold potential in I5.
  inversion St; subst; clear St;
    repeat match goal with
           | E : nth_error files ?k = Some ?f |- _ =>
               lazymatch goal with
               | L : (k < List.length files) |- _ => fail
               | _ =>
                   assert (k < List.length files)
                     by (apply nth_error_Some; rewrite E; discriminate)
               end
           end;
    try match goal with
        | E : sender s = ?p |- _ =>
            assert (0 < sender_measure files p) by (apply sender_measure_pos; discriminate);
            rewrite E in I4
        end;
    try match goal with
        | E : nth_error files ?k = Some ?f, E' : sender s = SendFile ?k |- _ =>
            pose proof (sender_measure_enter k f E)
        end;
    try match goal with
        | E : nth_error files ?k = Some ?f, E' : sender s = Chunking ?k ?i |- _ =>
            pose proof (fun r => sender_measure_leave k i f r E)
        end;
    try match goal with
        | E : nth_error files ?k = Some ?f,
          E' : sendChunks_step _ _ _ _ _ = ChunkNext _ _ |- _ =>
            pose proof (sender_measure_chunk _ _ _ _ _ _ Hc Hfiles E E')
        end;
    measure_norm s; cbn beta iota in I4;
    try match goal with
        | |- context [if ?b then _ else _] =>
            lazymatch b with ctx_done _ => fail | _ => destruct b end
        end;
    first [ lia
          | unfold sender_measure;
            repeat match goal with
                   | E : nth_error files _ = Some _ |- _ => rewrite E
                   end;
            try match goal with
                | |- context [chunk_rounds ?d ?i] => pose proof (chunk_rounds_pos d i)
                end;
            lia ].
Qed.

(** Every execution of a session is finite. *)
Lemma session_terminates : forall bound s,
  (1 <= chunkSize c <= max_int)%Z ->
  Forall (fun f => (len (clamav.Data f) <= maxAlloc)%Z) files ->
  session_inv files bound s ->
  Acc (fun s2 s1 => step c files s1 s2) s.
Proof.
  intros bound s Hc Hfiles.
  remember (measure files s) as n eqn:E. revert s E.
  induction n as [n IH] using lt_wf_ind. intros s E Inv.
  constructor. intros s' St.
  apply (IH (measure files s')).
  - rewrite E. eapply step_measure; eassumption.
  - reflexivity.
  - eapply step_inv; eassumption.
Qed.

(** *** Where executions end *)

Lemma step_stream_ends : forall s s',
  stream_ends s -> step c files s s' -> stream_ends s'.
Proof.
  intros s s' E St. unfold stream_ends in *.
  inversion St; subst; clear St; simpl;
    repeat match goal with
           | R : receiver s = _ |- _ => rewrite R in *; clear R
           | R : incoming s = _ |- _ => rewrite R in *; clear R
           end;
    try exact E; try exact I.
  destruct E as [e [E|E]]; [discriminate E | exists e; exact E].
Qed.

Lemma steps_stream_ends : forall s s',
  stream_ends s -> steps c files s s' -> stream_ends s'.
Proof.
  intros s s' E St. induction St as [s|s1 s2 s3 St _ IH]; [exact E|].
  apply IH. eapply step_stream_ends; eassumption.
Qed.

(** A session that cannot go on has panicked, or both goroutines have
    returned -- the channel is closed, CloseSend has been called once --
    and the caller has taken every result. *)
Lemma stuck_is_finished : forall bound s,
  session_inv files bound s -> stream_ends s -> panicked s = false ->
  (forall s', ~ step c files s s') ->
  sender s = SenderDone /\ closeSends s = 1
  /\ receiver s = ReceiverDone /\ closed s = true
  /\ ctx_done s = true /\ taken s = List.length (results s).
Proof.
  intros bound s [I0 I1 I2 I3 IC I4 IR IT I5] Ends Hp Stuck.
  assert (Hd : ctx_done s = true).
  { destruct (ctx_done s) eqn:D; [reflexivity|].
    exfalso. eapply Stuck. apply step_cancel; assumption. }
  assert (Hs : sender s = SenderDone).
  { destruct (sender s) as [k|k i|k r|] eqn:Es; [| | | reflexivity]; exfalso.
    - destruct (Nat.lt_ge_cases k (List.length files)) as [L|L].
      + eapply Stuck. eapply sender_abort; eassumption.
      + eapply Stuck. eapply sender_finish; eassumption.
    - destruct (nth_error files k) as [file|] eqn:Ef;
        [| apply nth_error_None in Ef; lia].
      destruct (sendChunks_step c (stream s) (clamav.Data file)
                  (clamav.fi_Filename file) i) as [i' st'|[[err|]|] st'] eqn:Step;
        eapply Stuck.
      + eapply sender_chunk; eassumption.
      + eapply sender_failed; eassumption.
      + eapply sender_sent; eassumption.
      + eapply sender_panic; eassumption.
    - eapply Stuck. eapply sender_gives_up; eassumption. }
  assert (Hr : receiver s = ReceiverDone).
  { unfold stream_ends in Ends.
    destruct (receiver s) as [|r again| | |] eqn:Er; [| | | | reflexivity]; exfalso.
    - destruct Ends as [e In_e].
      destruct (incoming s) as [|[resp|e0] rest] eqn:Ei; [contradiction In_e | |].
      + eapply Stuck. eapply recv_response; eassumption.
      + destruct (is_EOF e0) eqn:Eof.
        * eapply Stuck. eapply recv_eof; eassumption.
        * destruct (is_canceled_status e0) eqn:Ec.
          -- eapply Stuck. eapply recv_canceled; eassumption.
          -- eapply Stuck. eapply recv_error; eassumption.
    - eapply Stuck. eapply recv_gives_up; eassumption.
    - eapply Stuck. eapply recv_cancel; eassumption.
    - eapply Stuck. eapply recv_close; eassumption. }
  rewrite Hs in I1. rewrite Hr in I2.
  repeat split; try assumption.
  destruct (Nat.lt_ge_cases (taken s) (List.length (results s))) as [L|L]; [| lia].
  exfalso. eapply Stuck. apply step_take; assumption.
Qed.

(** *** A failing input *)

(** Inside sendChunks the sender's move is the next round of the loop. *)
Lemma sender_chunking_move : forall s s' k i file,
  sender s = Chunking k i -> nth_error files k = Some file ->
  step c files s s' ->
  sender s' = sender s
  \/ match sendChunks_step c (stream s) (clamav.Data file) (clamav.fi_Filename file) i with
     | ChunkNext i' stream' => sender s' = Chunking k i' /\ stream s' = stream'
     | ChunkDone (Return None) stream' =>
         sender s' = SendFile (Datatypes.S k) /\ stream s' = stream'
     | ChunkDone (Return (Some err)) stream' =>
         sender s' = SendResult k (sender_error err file) /\ stream s' = stream'
     | ChunkDone Panic _ => False
     end.
Proof.
  intros s s' k i file Es Ef St.
  inversion St; subst; clear St; simpl; try (left; reflexivity);
    try (left; exact Es); try (left; symmetry; assumption); try congruence;
    match goal with
    | E : sender s = Chunking ?k' ?i' |- _ =>
        rewrite Es in E; injection E as <- <-
    end;
    match goal with
    | E : nth_error files k = Some ?f |- _ =>
        rewrite Ef in E; injection E as <-
    end;
    match goal with
    | E : sendChunks_step _ _ _ _ _ = _ |- _ => rewrite E
    end; right; split; reflexivity.
Qed.

(** With a result in hand and the context live, the sender's move is to
    put the result on the channel and go on with the next input; the move
    is there when the channel has room. *)
Lemma sender_pending_move : forall bound s k r,
  session_inv files bound s -> sender s = SendResult k r -> ctx_done s = false ->
  (panicked s = false -> has_room s ->
   step c files s (set_sender (push s r) (stream s) (SendFile (Datatypes.S k))))
  /\ (forall s', step c files s s' ->
        sender s' = sender s
        \/ (sender s' = SendFile (Datatypes.S k) /\ results s' = results s ++ [r])).
Proof.
  intros bound s k r Inv Es Hd.
  assert (Hc : closed s = false).
  { destruct (closed s) eqn:Cl; [| reflexivity].
    rewrite (inv_done files bound s Inv Cl) in Hd. discriminate Hd. }
  split.
  - intros Hp Hroom. eapply sender_push; eassumption.
  - intros s' St.
    inversion St; subst; clear St; simpl; try (left; reflexivity);
      try (left; exact Es); try congruence.
    right. match goal with
           | E : sender s = SendResult ?k' ?r' |- _ =>
               rewrite Es in E; injection E as <- <-
           end. split; reflexivity.
Qed.

End Batch.




(* ===================================================================== *)
(** * Further properties of the code *)
(* ===================================================================== *)

(** ** errors.go *)

(** X1: the four kind predicates exclude each other on every error value,
    SDK-made or not: at most one of IsConnectionError, IsTimeoutError,
    IsValidationError and IsServiceError holds, and none holds on nil. *)
Theorem IsXError_at_most_one_kind :
  forall (err : option error) (k k' : clamav.Kind),
    clamav.IsKindError k err = true ->
    clamav.IsKindError k' err = true ->
    k = k' /\ err <> None.
Proof.
  intros err k k' Hk Hk'. rewrite IsKindError_unfold in Hk, Hk'.
  destruct (clamav.errors_As err) as [e|] eqn:A; [| discriminate Hk].
  apply String.eqb_eq in Hk, Hk'. split.
  - apply kind_code_inj. congruence.
  - intros ->. discriminate A.
Qed.

Lemma IsXError_at_most_one_kind_witness :
  clamav.Service = clamav.Service
  /\ Some (WrapError "scan: service down"
             (clamav.as_error (clamav.NewServiceError "service down" 502 None))) <> None.
Proof.
  apply (IsXError_at_most_one_kind
           (Some (WrapError "scan: service down"
                    (clamav.as_error (clamav.NewServiceError "service down" 502 None))))
           clamav.Service clamav.Service); reflexivity.
Defined.

Lemma errors_Is_sentinel_through :
  forall (is_target : error -> bool),
    (forall c m s cause, is_target (PtrError c m s cause) = false) ->
    (forall m e, is_target (WrapError m e) = false) ->
    (forall o u e, is_target (URLError o u e) = false) ->
    (forall o e, is_target (OpError o e) = false) ->
    forall ds k msg sc cause,
      errors_Is is_target
        (clamav.decorate ds (clamav.as_error (clamav.NewKindError k msg sc (Some cause))))
      = errors_Is is_target cause.
Proof.
  intros is_target HP HW HU HO ds k msg sc cause. unfold errors_Is.
  induction ds as [|d ds IH].
  - simpl. unfold clamav.as_error. destruct k; simpl; rewrite HP; reflexivity.
  - destruct d; simpl; [rewrite HW | rewrite HU | rewrite HO]; exact IH.
Qed.

(** X2: an SDK error keeps its cause testable.  For each of the sentinels
    [context.Canceled], [context.DeadlineExceeded] and [io.EOF],
    [errors.Is] on an error made by NewXError with a cause -- decorated or
    not -- answers what it answers on the cause itself; without a cause it
    answers false. *)
Theorem errors_Is_sees_the_cause_of_an_sdk_error :
  forall (ds : list clamav.Decorator) (k : clamav.Kind) (msg : string) (sc : Z)
         (cause : error),
    let wrapped c := clamav.decorate ds
                       (clamav.as_error (clamav.NewKindError k msg sc c)) in
    errors_Is is_Canceled (wrapped (Some cause)) = errors_Is is_Canceled cause
    /\ errors_Is is_DeadlineExceeded (wrapped (Some cause))
       = errors_Is is_DeadlineExceeded cause
    /\ errors_Is is_EOF (wrapped (Some cause)) = errors_Is is_EOF cause
    /\ errors_Is is_Canceled (wrapped None) = false
    /\ errors_Is is_DeadlineExceeded (wrapped None) = false
    /\ errors_Is is_EOF (wrapped None) = false.
Proof.
  intros ds k msg sc cause wrapped. unfold wrapped.
  repeat split; try (apply errors_Is_sentinel_through; reflexivity).
  all: unfold errors_Is; induction ds as [|d ds IH];
    [destruct k; reflexivity | destruct d; exact IH].
Qed.

(** ** client.go, REST: transport errors *)

Section TransportErrors.
Import clamav.

Lemma classifyNetworkError_connection : forall err,
  exists e, classifyNetworkError err = as_error e
            /\ Cause e = Some err /\ StatusCode e = 0
            /\ kind_of e = Some Connection.
Proof.
  intros err. unfold classifyNetworkError.
  destruct (errors_As_type is_OpError err);
    [| destruct (errors_As_type is_DNSError err)];
    eexists; repeat split.
Qed.

Lemma classifyTransportError_shape : forall err,
  exists e, classifyTransportError (Some err) = Some (as_error e)
            /\ Cause e = Some err /\ StatusCode e = 0
            /\ (kind_of e = Some Timeout \/ kind_of e = Some Connection).
Proof.
  intros err. unfold classifyTransportError.
  destruct (is_Canceled err); [eexists; repeat split; left; reflexivity|].
  destruct (is_DeadlineExceeded err); [eexists; repeat split; left; reflexivity|].
  assert (N : exists e, Some (classifyNetworkError err) = Some (as_error e)
                        /\ Cause e = Some err /\ StatusCode e = 0
                        /\ (kind_of e = Some Timeout \/ kind_of e = Some Connection)).
  { destruct (classifyNetworkError_connection err) as (e & E & C & S & K).
    exists e. rewrite E. repeat split; try assumption. right. exact K. }
  destruct (chain_find is_URLError err) as [[u inner]|]; [| exact N].
  destruct (error_Timeout u); [eexists; repeat split; left; reflexivity|].
  destruct (errors_Is is_Canceled inner); [eexists; repeat split; left; reflexivity|].
  destruct (errors_Is is_DeadlineExceeded inner);
    [eexists; repeat split; left; reflexivity|].
  exact N.
Qed.

Lemma errors_Is_here : forall (is_target : error -> bool) err,
  is_target err = true -> errors_Is is_target err = true.
Proof.
  intros is_target err E. unfold errors_Is. destruct err; simpl; rewrite E; reflexivity.
Qed.

(** Decorators do not hide a sentinel from [errors.Is]. *)
Lemma errors_Is_decorate : forall (is_target : error -> bool) ds err,
  errors_Is is_target err = true ->
  errors_Is is_target (decorate ds err) = true.
Proof.
  intros is_target ds err E. unfold errors_Is in *.
  induction ds as [|d ds IH]; [exact E|].
  destruct d; simpl;
    match goal with
    | |- context [is_target ?x] => destruct (is_target x)
    end; try reflexivity; exact IH.
Qed.

(** The outermost [*url.Error] of a chain that has one below decorators,
    and the sentinel below it. *)
Lemma chain_find_URLError : forall (is_target : error -> bool) ds op url inner,
  errors_Is is_target inner = true ->
  exists u i,
    chain_find is_URLError (decorate ds (URLError op url inner)) = Some (u, i)
    /\ errors_Is is_target i = true.
Proof.
  intros is_target ds op url inner E.
  induction ds as [|d ds (u & i & F & I)].
  - exists (URLError op url inner), inner. split; [reflexivity | exact E].
  - destruct d as [m|o' u'|o'].
    + exists u, i. split; [exact F | exact I].
    + exists (URLError o' u' (decorate ds (URLError op url inner))),
             (decorate ds (URLError op url inner)).
      split; [reflexivity|].
      apply errors_Is_decorate.
      unfold errors_Is in *. simpl.
      destruct (is_target (URLError op url inner)); [reflexivity | exact E].
    + exists u, i. split; [exact F | exact I].
Qed.

End TransportErrors.

(** X3: classifyTransportError turns every transport error into an SDK
    error of kind Timeout or Connection -- never Service or Validation --
    that wraps the original error and carries no status code; nil stays
    nil.  A canceled or expired context is a Timeout, bare or anywhere
    below a [*url.Error] (the form [http.Client.Do] reports it in).  An
    error that is neither sentinel and has no [*url.Error] on its chain is
    a Connection error, even when it wraps a context sentinel. *)
Theorem classifyTransportError_is_timeout_or_connection :
  clamav.classifyTransportError None = None
  /\ (forall err,
        exists e,
          clamav.classifyTransportError (Some err) = Some (clamav.as_error e)
          /\ clamav.Cause e = Some err
          /\ clamav.StatusCode e = 0
          /\ (clamav.kind_of e = Some clamav.Timeout
              \/ clamav.kind_of e = Some clamav.Connection))
  /\ clamav.IsTimeoutError (clamav.classifyTransportError (Some Canceled)) = true
  /\ clamav.IsTimeoutError (clamav.classifyTransportError (Some DeadlineExceeded)) = true
  /\ (forall outer inner op url,
        clamav.IsTimeoutError
          (clamav.classifyTransportError
             (Some (clamav.decorate outer
                      (URLError op url (clamav.decorate inner Canceled))))) = true
        /\ clamav.IsTimeoutError
             (clamav.classifyTransportError
                (Some (clamav.decorate outer
                         (URLError op url (clamav.decorate inner DeadlineExceeded))))) = true)
  /\ (forall err,
        is_Canceled err = false -> is_DeadlineExceeded err = false ->
        chain_find clamav.is_URLError err = None ->
        clamav.IsConnectionError (clamav.classifyTransportError (Some err)) = true).
Proof.
  split; [reflexivity|]. split; [apply classifyTransportError_shape|].
  split; [reflexivity|]. split; [reflexivity|]. split.
  - assert (G : forall (is_target : error -> bool) sentinel outer inner op url,
               (is_target = is_Canceled \/ is_target = is_DeadlineExceeded) ->
               is_target sentinel = true ->
               clamav.IsTimeoutError
                 (clamav.classifyTransportError
                    (Some (clamav.decorate outer
                             (URLError op url (clamav.decorate inner sentinel))))) = true).
    { intros is_target sentinel outer inner op url Ht Hs.
      destruct (chain_find_URLError is_target outer op url
                  (clamav.decorate inner sentinel)) as (u & i & F & I).
      { apply errors_Is_decorate. apply errors_Is_here. exact Hs. }
      unfold clamav.classifyTransportError.
      assert (NC : is_Canceled (clamav.decorate outer
                      (URLError op url (clamav.decorate inner sentinel))) = false)
        by (destruct outer as [|[] ?]; reflexivity).
      assert (ND : is_DeadlineExceeded (clamav.decorate outer
                      (URLError op url (clamav.decorate inner sentinel))) = false)
        by (destruct outer as [|[] ?]; reflexivity).
      rewrite NC, ND, F.
      destruct (error_Timeout u); [reflexivity|].
      destruct Ht as [-> | ->].
      - rewrite I. reflexivity.
      - destruct (errors_Is is_Canceled i); [reflexivity|]. rewrite I. reflexivity. }
    intros outer inner op url. split.
    + apply (G is_Canceled); [left; reflexivity | reflexivity].
    + apply (G is_DeadlineExceeded); [right; reflexivity | reflexivity].
  - intros err NC ND NU. unfold clamav.classifyTransportError.
    rewrite NC, ND, NU.
    destruct (classifyNetworkError_connection err) as (e & E & _ & _ & K).
    rewrite E. apply (kind_of_IsKindError e clamav.Connection K).
Qed.

Lemma classifyTransportError_is_timeout_or_connection_witness :
  clamav.IsConnectionError
    (clamav.classifyTransportError
       (Some (WrapError "dial: context canceled" Canceled))) = true.
Proof.
  destruct classifyTransportError_is_timeout_or_connection
    as (_ & _ & _ & _ & _ & Fallback).
  apply Fallback; reflexivity.
Defined.

(** ** client.go, REST: the operations *)

Section RestOperations.
Import clamav.
Variable url_Parse : string -> result Go.URL.
Variable os_Open : string -> result File.

Lemma handleErrorResponse_has_kind : forall c resp,
  exists k, kind_of (handleErrorResponse c resp) = Some k.
Proof.
  intros c [status body].
  destruct (decode_status_message body) as [[st msg]|err] eqn:D.
  - destruct (handleErrorResponse_decoded c status body st msg D) as (K & _).
    eexists. exact K.
  - destruct (handleErrorResponse_undecodable c status body err D) as (K & _).
    eexists. exact K.
Qed.

Lemma newRequest_error : forall c ctx method path body err,
  newRequest url_Parse c ctx method path body = Err err ->
  exists e, err = as_error e /\ kind_of e = Some Connection.
Proof.
  intros c ctx method path body err. unfold newRequest.
  destruct (url_Parse (baseURL c ++ path)); intros E; [discriminate E|].
  injection E as <-. eexists. split; reflexivity.
Qed.

Lemma do_error : forall c req w err,
  fst (do c req w) = Err err ->
  exists e, err = as_error e
            /\ (kind_of e = Some Timeout \/ kind_of e = Some Connection).
Proof.
  intros c req w err. unfold do, http_Do, bind, ret.
  destruct (transport w req) as [resp|e0]; [intros E; discriminate E|].
  destruct (classifyTransportError_shape e0) as (e & E & _ & _ & K).
  rewrite E. simpl. intros R. injection R as <-. exists e. split; [reflexivity | exact K].
Qed.

Lemma do_result : forall c req w,
  do c req w
  = (match transport w req with
     | Ok resp => Ok resp
     | Err e0 => match classifyTransportError (Some e0) with
                 | Some e => Err e
                 | None => Err e0
                 end
     end,
     mkWorld (transport w) (calls w ++ [req])%list (boundary w)).
Proof.
  intros c req w. unfold do, http_Do, bind, ret.
  destruct (transport w req) as [resp|e0]; [reflexivity|].
  destruct (classifyTransportError (Some e0)); reflexivity.
Qed.

Lemma doScan_error : forall c req w err,
  fst (doScan c req w) = Err err ->
  exists e k, err = as_error e /\ kind_of e = Some k.
Proof.
  intros c req w err. unfold doScan, bind.
  destruct (do c req w) as [[resp|e0] w'] eqn:D.
  - destruct (negb (resp_StatusCode resp =? 200)).
    + simpl. intros E. injection E as <-.
      destruct (handleErrorResponse_has_kind c resp) as [k K]. eauto.
    + destruct (decode_ScanResult (resp_Body resp)); simpl; intros E;
        [discriminate E|]. injection E as <-. eexists. eexists. split; reflexivity.
  - simpl. intros E. injection E as <-.
    destruct (do_error c req w e0) as (e & -> & [K|K]); [rewrite D; reflexivity | |]; eauto.
Qed.

Lemma ScanReader_error : forall c ctx r filename w err,
  fst (ScanReader url_Parse c ctx r filename w) = Err err ->
  exists e k, err = as_error e /\ kind_of e = Some k.
Proof.
  intros c ctx r filename w err.
  unfold ScanReader, multipart_NewWriter, bind.
  destruct (io_Copy r) as [written [copyErr|]].
  { simpl. intros E. injection E as <-. eexists. eexists. split; reflexivity. }
  match goal with
  | |- context [newRequest url_Parse c ctx ?m ?p ?b] =>
      destruct (newRequest url_Parse c ctx m p b) as [req|e0] eqn:N
  end.
  - apply doScan_error.
  - simpl. intros E. injection E as <-.
    destruct (newRequest_error _ _ _ _ _ _ N) as (e & -> & K). eauto.
Qed.

Lemma StreamScan_error : forall c ctx r size w err,
  fst (StreamScan url_Parse c ctx r size w) = Err err ->
  exists e k, err = as_error e /\ kind_of e = Some k.
Proof.
  intros c ctx r size w err. unfold StreamScan.
  destruct (size <=? 0).
  { simpl. intros E. injection E as <-. eexists. eexists. split; reflexivity. }
  destruct (newRequest url_Parse c ctx "POST" pathStreamScan (Stream r)) as [req|e0] eqn:N.
  - apply doScan_error.
  - simpl. intros E. injection E as <-.
    destruct (newRequest_error _ _ _ _ _ _ N) as (e & -> & K). eauto.
Qed.

Lemma HealthCheck_error : forall c ctx w err,
  fst (HealthCheck url_Parse c ctx w) = Err err ->
  exists e k, err = as_error e /\ kind_of e = Some k.
Proof.
  intros c ctx w err. unfold HealthCheck.
  destruct (newRequest url_Parse c ctx "GET" pathHealthCheck NoBody) as [req|e0] eqn:N.
  - unfold bind. destruct (do c req w) as [[resp|e1] w'] eqn:D.
    + destruct (decode_message (resp_Body resp)); simpl; intros E; [discriminate E|].
      injection E as <-. eexists. eexists. split; reflexivity.
    + simpl. intros E. injection E as <-.
      destruct (do_error c req w e1) as (e & -> & [K|K]); [rewrite D; reflexivity | |]; eauto.
  - simpl. intros E. injection E as <-.
    destruct (newRequest_error _ _ _ _ _ _ N) as (e & -> & K). eauto.
Qed.

Lemma Version_error : forall c ctx w err,
  fst (Version url_Parse c ctx w) = Err err ->
  exists e k, err = as_error e /\ kind_of e = Some k.
Proof.
  intros c ctx w err. unfold Version.
  destruct (newRequest url_Parse c ctx "GET" pathVersion NoBody) as [req|e0] eqn:N.
  - unfold bind. destruct (do c req w) as [[resp|e1] w'] eqn:D.
    + destruct (negb (resp_StatusCode resp =? 200)).
      * simpl. intros E. injection E as <-.
        destruct (handleErrorResponse_has_kind c resp) as [k K]. eauto.
      * destruct (decode_VersionResult (resp_Body resp)); simpl; intros E;
          [discriminate E|]. injection E as <-. eexists. eexists. split; reflexivity.
    + simpl. intros E. injection E as <-.
      destruct (do_error c req w e1) as (e & -> & [K|K]); [rewrite D; reflexivity | |]; eauto.
  - simpl. intros E. injection E as <-.
    destruct (newRequest_error _ _ _ _ _ _ N) as (e & -> & K). eauto.
Qed.

End RestOperations.

(** X4: every error a REST operation returns is an SDK error -- a
    [*Error] itself, not merely a wrapper of one -- with one of the four
    kinds.  This holds for HealthCheck, Version, ScanReader, ScanFile,
    ScanFilePath, StreamScan and StreamScanFile, whatever the server, the
    network and the file system do. *)
Theorem rest_operations_fail_with_sdk_errors :
  forall (url_Parse : string -> result Go.URL) (os_Open : string -> result clamav.File)
         (c : clamav.Client) (ctx : Context) (w : clamav.World) (err : error),
    let sdk := exists e k, err = clamav.as_error e /\ clamav.kind_of e = Some k in
    (fst (clamav.HealthCheck url_Parse c ctx w) = Err err -> sdk)
    /\ (fst (clamav.Version url_Parse c ctx w) = Err err -> sdk)
    /\ (forall r filename,
          fst (clamav.ScanReader url_Parse c ctx r filename w) = Err err -> sdk)
    /\ (forall data filename,
          fst (clamav.ScanFile url_Parse c ctx data filename w) = Err err -> sdk)
    /\ (forall filePath,
          fst (clamav.ScanFilePath url_Parse os_Open c ctx filePath w) = Err err -> sdk)
    /\ (forall r size,
          fst (clamav.StreamScan url_Parse c ctx r size w) = Err err -> sdk)
    /\ (forall filePath,
          fst (clamav.StreamScanFile url_Parse os_Open c ctx filePath w) = Err err -> sdk).
Proof.
  intros url_Parse os_Open c ctx w err sdk. unfold sdk.
  split; [apply HealthCheck_error|]. split; [apply Version_error|].
  split; [intros r filename; apply ScanReader_error|].
  split; [intros data filename; apply ScanReader_error|].
  split.
  { intros filePath. unfold clamav.ScanFilePath. destruct (os_Open filePath).
    - apply ScanReader_error.
    - simpl. intros E. injection E as <-. eexists. eexists. split; reflexivity. }
  split; [intros r size; apply StreamScan_error|].
  intros filePath. unfold clamav.StreamScanFile. destruct (os_Open filePath) as [f|e0].
  - destruct (clamav.f_Stat f).
    + apply StreamScan_error.
    + simpl. intros E. injection E as <-. eexists. eexists. split; reflexivity.
  - simpl. intros E. injection E as <-. eexists. eexists. split; reflexivity.
Qed.

Lemma rest_operations_fail_with_sdk_errors_witness :
  let c := clamav.mkClient "http://localhost:6000" (Some 30) 30 [] in
  let w := clamav.mkWorld (fun _ => Err (URLError "Get" "http://localhost:6000" EOF))
                          [] "boundary" in
  exists e k,
    clamav.as_error (clamav.NewConnectionError "request failed"
                       (Some (URLError "Get" "http://localhost:6000" EOF)))
    = clamav.as_error e
    /\ clamav.kind_of e = Some k.
Proof.
  intros c w.
  destruct (rest_operations_fail_with_sdk_errors url_Parse (fun _ => Err EOF) c
              (mkContext None None) w
              (clamav.as_error (clamav.NewConnectionError "request failed"
                                  (Some (URLError "Get" "http://localhost:6000" EOF)))))
    as (Health & _).
  apply Health. reflexivity.
Defined.

(** X5: doScan hands exactly one request to the HTTP client and succeeds
    exactly when the answer has status 200 and a body that decodes as a
    scan result.  Every other status is a failure mapped by
    handleErrorResponse -- the other 2xx codes included, which give a
    Service error carrying that code -- and a 200 answer whose body does
    not decode is a Service error carrying 200 and the decoding error. *)
Theorem doScan_succeeds_only_on_200 :
  forall (c : clamav.Client) (req : clamav.Request) (w : clamav.World),
    clamav.calls (snd (clamav.doScan c req w)) = (clamav.calls w ++ [req])%list
    /\ (forall r,
          fst (clamav.doScan c req w) = Ok r <->
          exists resp, clamav.transport w req = Ok resp
                       /\ clamav.resp_StatusCode resp = 200
                       /\ clamav.decode_ScanResult (clamav.resp_Body resp) = Ok r)
    /\ (forall resp,
          clamav.transport w req = Ok resp ->
          clamav.resp_StatusCode resp <> 200 ->
          fst (clamav.doScan c req w)
          = Err (clamav.as_error (clamav.handleErrorResponse c resp))
          /\ (200 < clamav.resp_StatusCode resp < 300 ->
              clamav.IsServiceError
                (Some (clamav.as_error (clamav.handleErrorResponse c resp))) = true
              /\ clamav.StatusCode (clamav.handleErrorResponse c resp)
                 = clamav.resp_StatusCode resp))
    /\ (forall resp d,
          clamav.transport w req = Ok resp ->
          clamav.resp_StatusCode resp = 200 ->
          clamav.decode_ScanResult (clamav.resp_Body resp) = Err d ->
          fst (clamav.doScan c req w)
          = Err (clamav.as_error
                   (clamav.NewServiceError "failed to decode scan response" 200 (Some d)))).
Proof.
  intros c req w.
  split; [apply doScan_calls|].
  assert (U : fst (clamav.doScan c req w)
              = match clamav.transport w req with
                | Ok resp =>
                    if negb (clamav.resp_StatusCode resp =? 200)
                    then Err (clamav.as_error (clamav.handleErrorResponse c resp))
                    else match clamav.decode_ScanResult (clamav.resp_Body resp) with
                         | Ok r => Ok r
                         | Err d =>
                             Err (clamav.as_error
                                    (clamav.NewServiceError "failed to decode scan response"
                                       (clamav.resp_StatusCode resp) (Some d)))
                         end
                | Err e0 =>
                    match clamav.classifyTransportError (Some e0) with
                    | Some e => Err e
                    | None => Err e0
                    end
                end).
  { unfold clamav.doScan, bind. rewrite do_result.
    destruct (clamav.transport w req) as [resp|e0].
    - destruct (negb (clamav.resp_StatusCode resp =? 200)); [reflexivity|].
      destruct (clamav.decode_ScanResult (clamav.resp_Body resp)); reflexivity.
    - destruct (clamav.classifyTransportError (Some e0)); reflexivity. }
  rewrite U. split; [| split].
  - intros r. split.
    + destruct (clamav.transport w req) as [resp|e0].
      * destruct (clamav.resp_StatusCode resp =? 200) eqn:S; simpl; [| discriminate].
        destruct (clamav.decode_ScanResult (clamav.resp_Body resp)) eqn:D; [| discriminate].
        intros E. injection E as <-. exists resp. apply Z.eqb_eq in S. auto.
      * destruct (clamav.classifyTransportError (Some e0)); discriminate.
    + intros (resp & T & S & D). rewrite T. apply Z.eqb_eq in S. rewrite S. simpl.
      rewrite D. reflexivity.
  - intros resp T S. rewrite T. apply Z.eqb_neq in S. rewrite S. simpl.
    split; [reflexivity|]. intros Range.
    destruct resp as [status body]. simpl in *. apply Z.eqb_neq in S.
    destruct (clamav.decode_status_message body) as [[st msg]|err] eqn:D.
    + destruct (handleErrorResponse_decoded c status body st msg D) as (K & SC & _).
      assert (HK : http_status_kind status = clamav.Service).
      { unfold http_status_kind.
        destruct (status =? 400) eqn:E1; [apply Z.eqb_eq in E1; lia|].
        destruct (status =? 413) eqn:E2; [apply Z.eqb_eq in E2; lia|].
        destruct (status =? 499) eqn:E3; [apply Z.eqb_eq in E3; lia|].
        destruct (status =? 502) eqn:E4; [reflexivity|].
        destruct (status =? 504) eqn:E5; [apply Z.eqb_eq in E5; lia|]. reflexivity. }
      rewrite HK in K, SC. split; [| exact SC].
      apply (kind_of_IsKindError _ clamav.Service K).
    + destruct (handleErrorResponse_undecodable c status body err D) as (K & SC & _).
      split; [| exact SC]. apply (kind_of_IsKindError _ clamav.Service K).
  - intros resp d T S D. rewrite T. rewrite S. simpl. rewrite D. reflexivity.
Qed.

Lemma doScan_succeeds_only_on_200_witness :
  let c := clamav.mkClient "http://localhost:6000" (Some 30) 30 [] in
  let req := clamav.mkRequest "POST" "http://localhost:6000/api/scan"
               (mkContext None None) [] None clamav.NoBody in
  let answer := clamav.mkResponse 204 (clamav.JObject []) in
  let w := clamav.mkWorld (fun _ => Ok answer) [] "boundary" in
  fst (clamav.doScan c req w)
  = Err (clamav.as_error (clamav.handleErrorResponse c answer))
  /\ clamav.StatusCode (clamav.handleErrorResponse c answer) = 204.
Proof.
  intros c req answer w.
  destruct (doScan_succeeds_only_on_200 c req w) as (_ & _ & NonOK & _).
  destruct (NonOK answer eq_refl) as (E & Range); [discriminate|].
  split; [exact E|]. apply Range. simpl. lia.
Defined.

(** X6: the REST HealthCheck does not treat a non-200 status as a failure:
    when the body decodes it returns a result, not an error, with Healthy
    false and the server's message.  Version, given the same answer,
    returns the error handleErrorResponse makes of it. *)
Theorem HealthCheck_reports_non_200_as_unhealthy :
  forall (url_Parse : string -> result Go.URL) (c : clamav.Client) (ctx : Context)
         (w : clamav.World) (hreq vreq : clamav.Request) (resp : clamav.Response)
         (msg : string),
    clamav.newRequest url_Parse c ctx "GET" clamav.pathHealthCheck clamav.NoBody = Ok hreq ->
    clamav.newRequest url_Parse c ctx "GET" clamav.pathVersion clamav.NoBody = Ok vreq ->
    clamav.transport w hreq = Ok resp ->
    clamav.transport w vreq = Ok resp ->
    clamav.resp_StatusCode resp <> 200 ->
    clamav.decode_message (clamav.resp_Body resp) = Ok msg ->
    fst (clamav.HealthCheck url_Parse c ctx w) = Ok (clamav.mkHealthCheckResult false msg)
    /\ fst (clamav.Version url_Parse c ctx w)
       = Err (clamav.as_error (clamav.handleErrorResponse c resp)).
Proof.
  intros url_Parse c ctx w hreq vreq resp msg Hh Hv Th Tv S D. split.
  - rewrite (rest_HealthCheck_answer url_Parse c ctx w hreq resp msg Hh Th D).
    apply Z.eqb_neq in S. simpl. rewrite S. reflexivity.
  - unfold clamav.Version. rewrite Hv. unfold bind. rewrite do_result, Tv.
    apply Z.eqb_neq in S. rewrite S. reflexivity.
Qed.

Lemma HealthCheck_reports_non_200_as_unhealthy_witness :
  let c := clamav.mkClient "http://localhost:6000" (Some 30) 30 [] in
  let answer := clamav.mkResponse 502
                  (clamav.JObject [("message", clamav.JString "Clamd service unavailable")]) in
  let w := clamav.mkWorld (fun _ => Ok answer) [] "boundary" in
  fst (clamav.HealthCheck url_Parse c (mkContext None None) w)
  = Ok (clamav.mkHealthCheckResult false "Clamd service unavailable")
  /\ fst (clamav.Version url_Parse c (mkContext None None) w)
     = Err (clamav.as_error (clamav.handleErrorResponse c answer)).
Proof.
  intros c answer w.
  apply (HealthCheck_reports_non_200_as_unhealthy url_Parse c (mkContext None None) w
           (clamav.mkRequest "GET" "http://localhost:6000/api/health-check"
              (mkContext None None) [] None clamav.NoBody)
           (clamav.mkRequest "GET" "http://localhost:6000/api/version"
              (mkContext None None) [] None clamav.NoBody)
           answer "Clamd service unavailable");
    try reflexivity.
  discriminate.
Defined.

(** ** client.go, REST: streams and files *)

Lemma filepath_Base_not_empty : forall path, filepath_Base path <> EmptyString.
Proof.
  intros path. unfold filepath_Base.
  destruct (String.eqb path ""); [discriminate|].
  match goal with
  | |- (if String.eqb ?p "" then _ else _) <> _ =>
      destruct (String.eqb p "") eqn:E; [discriminate|]; apply String.eqb_neq in E; exact E
  end.
Qed.

(** X7: StreamScan with a positive size hands one POST for the
    stream-scan endpoint to the HTTP client, with the declared size as its
    content length, the octet-stream content type and the reader as its
    body, untouched: the declared size is not compared with what the reader
    holds.  The result is what doScan makes of the answer. *)
Theorem StreamScan_sends_declared_size :
  forall (url_Parse : string -> result Go.URL) (c : clamav.Client) (ctx : Context)
         (r : Reader) (size : Z) (w : clamav.World) (u : Go.URL),
    0 < size ->
    url_Parse (clamav.baseURL c ++ clamav.pathStreamScan) = Ok u ->
    exists req,
      clamav.StreamScan url_Parse c ctx r size w = clamav.doScan c req w
      /\ clamav.calls (snd (clamav.StreamScan url_Parse c ctx r size w))
         = (clamav.calls w ++ [req])%list
      /\ clamav.Method req = "POST"
      /\ clamav.URL req = clamav.baseURL c ++ "/api/stream-scan"
      /\ clamav.ContentLength req = Some size
      /\ clamav.Body req = clamav.Stream r
      /\ hd_error (clamav.Header req) = Some ("Content-Type", "application/octet-stream").
Proof.
  intros url_Parse c ctx r size w u Hsize Hurl.
  eexists. split.
  - unfold clamav.StreamScan.
    destruct (size <=? 0) eqn:E; [apply Z.leb_le in E; lia|].
    unfold clamav.newRequest. rewrite Hurl. reflexivity.
  - split; [| repeat split].
    unfold clamav.StreamScan.
    destruct (size <=? 0) eqn:E; [apply Z.leb_le in E; lia|].
    unfold clamav.newRequest. rewrite Hurl. apply doScan_calls.
Qed.

Lemma StreamScan_sends_declared_size_witness :
  let c := clamav.mkClient "http://localhost:6000" (Some 30) 30 [] in
  let w := clamav.mkWorld (fun _ => Err EOF) [] "boundary" in
  exists req,
    clamav.calls (snd (clamav.StreamScan url_Parse c (mkContext None None)
                         (bytes_NewReader [Byte.x61]) 1000 w)) = [req]
    /\ clamav.ContentLength req = Some 1000.
Proof.
  intros c w.
  destruct (StreamScan_sends_declared_size url_Parse c (mkContext None None)
              (bytes_NewReader [Byte.x61]) 1000 w
              (mkURL "http" "" "localhost:6000" "/api/stream-scan" "" ""))
    as (req & _ & Calls & _ & _ & Len & _).
  - lia.
  - reflexivity.
  - exists req. split; [exact Calls | exact Len].
Defined.

(** X8: the REST file operations.  A path that cannot be opened is a
    Validation error wrapping the cause, without a request.  ScanFilePath
    uploads an opened file under the base name of its path, which is never
    empty, so the placeholder name "file" is not used; a file whose reading
    fails with an error other than [io.EOF] is a Validation error wrapping
    that error, without a request, and one whose reading ends with [io.EOF]
    -- reported by the file or implied -- is uploaded with the bytes read.
    StreamScanFile declares the size [Stat] reports: an empty file is
    rejected with a Validation error without a request, although
    ScanFilePath uploads it. *)
Theorem rest_file_operations :
  forall (url_Parse : string -> result Go.URL) (os_Open : string -> result clamav.File)
         (c : clamav.Client) (ctx : Context) (filePath : string) (w : clamav.World),
    match os_Open filePath with
    | Err cause =>
        (exists e, clamav.ScanFilePath url_Parse os_Open c ctx filePath w
                   = (Err (clamav.as_error e), w)
                   /\ clamav.kind_of e = Some clamav.Validation
                   /\ clamav.Cause e = Some cause)
        /\ (exists e, clamav.StreamScanFile url_Parse os_Open c ctx filePath w
                      = (Err (clamav.as_error e), w)
                      /\ clamav.kind_of e = Some clamav.Validation
                      /\ clamav.Cause e = Some cause)
    | Ok f =>
        clamav.ScanFilePath url_Parse os_Open c ctx filePath w
        = clamav.ScanReader url_Parse c ctx (clamav.f_reader f) (filepath_Base filePath) w
        /\ filepath_Base filePath <> EmptyString
        /\ match snd (io_Copy (clamav.f_reader f)),
                 url_Parse (clamav.baseURL c ++ clamav.pathScan) with
           | Some cause, _ =>
               rd_err (clamav.f_reader f) = Some cause
               /\ is_EOF cause = false
               /\ exists e, clamav.ScanFilePath url_Parse os_Open c ctx filePath w
                            = (Err (clamav.as_error e), w)
                            /\ clamav.kind_of e = Some clamav.Validation
                            /\ clamav.Cause e = Some cause
           | None, Ok _ =>
               clamav.calls (snd (clamav.ScanFilePath url_Parse os_Open c ctx filePath w))
               = (clamav.calls w
                  ++ [scan_request c ctx w (rd_data (clamav.f_reader f))
                        (filepath_Base filePath)])%list
               /\ clamav.Body (scan_request c ctx w (rd_data (clamav.f_reader f))
                                 (filepath_Base filePath))
                  = clamav.Multipart (clamav.boundary w)
                      [clamav.mkFormFile "file" (filepath_Base filePath)
                         (rd_data (clamav.f_reader f))]
           | None, Err _ => True
           end
        /\ match clamav.f_Stat f with
           | Ok size =>
               clamav.StreamScanFile url_Parse os_Open c ctx filePath w
               = clamav.StreamScan url_Parse c ctx (clamav.f_reader f) size w
               /\ (size <= 0 ->
                   exists e, clamav.StreamScanFile url_Parse os_Open c ctx filePath w
                             = (Err (clamav.as_error e), w)
                             /\ clamav.kind_of e = Some clamav.Validation)
           | Err cause =>
               exists e, clamav.StreamScanFile url_Parse os_Open c ctx filePath w
                         = (Err (clamav.as_error e), w)
                         /\ clamav.kind_of e = Some clamav.Validation
                         /\ clamav.Cause e = Some cause
           end
    end.
Proof.
  intros url_Parse os_Open c ctx filePath w.
  unfold clamav.ScanFilePath, clamav.StreamScanFile.
  destruct (os_Open filePath) as [f|cause].
  - split; [reflexivity|]. split; [apply filepath_Base_not_empty|]. split.
    + destruct f as [[data rerr] st].
      pose proof (ScanFile_cases url_Parse c ctx data (filepath_Base filePath) w) as SC.
      assert (Upload : snd (io_Copy (mkReader data rerr)) = None ->
                clamav.ScanReader url_Parse c ctx (mkReader data rerr)
                  (filepath_Base filePath) w
                = clamav.ScanFile url_Parse c ctx data (filepath_Base filePath) w).
      { unfold clamav.ScanFile, clamav.ScanReader, clamav.multipart_NewWriter, bind,
          io_Copy, bytes_NewReader, rd_err, rd_data, snd.
        destruct rerr as [cause|]; [| reflexivity].
        destruct (is_EOF cause); [reflexivity | discriminate]. }
      cbn [clamav.f_reader].
      destruct (snd (io_Copy (mkReader data rerr))) as [cause|] eqn:Copy.
      * unfold io_Copy, rd_err, snd in Copy.
        destruct rerr as [cause'|]; [| discriminate Copy].
        destruct (is_EOF cause') eqn:E; [discriminate Copy|].
        injection Copy as ->. split; [reflexivity|]. split; [exact E|].
        unfold clamav.ScanReader, clamav.multipart_NewWriter, bind, io_Copy, rd_err, rd_data.
        rewrite E. eexists. repeat split.
      * rewrite (Upload eq_refl).
        destruct (url_Parse (clamav.baseURL c ++ clamav.pathScan)); [| exact I].
        destruct SC as [_ Calls]. split; [exact Calls|].
        unfold scan_request. cbn [rd_data clamav.Body].
        pose proof (filepath_Base_not_empty filePath) as NE.
        apply String.eqb_neq in NE. rewrite NE. reflexivity.
    + destruct (clamav.f_Stat f) as [size|cause].
      * split; [reflexivity|]. intros Hsize. unfold clamav.StreamScan.
        destruct (size <=? 0) eqn:E; [| apply Z.leb_gt in E; lia].
        eexists. repeat split.
      * eexists. repeat split.
  - split; eexists; repeat split.
Qed.

Lemma rest_file_operations_witness :
  let c := clamav.mkClient "http://localhost:6000" (Some 30) 30 [] in
  let w := clamav.mkWorld (fun _ => Err EOF) [] "boundary" in
  let os_Open := fun _ : string => Ok (clamav.mkFile (bytes_NewReader []) (Ok 0)) in
  exists e,
    clamav.StreamScanFile url_Parse os_Open c (mkContext None None) "/tmp/empty.txt" w
    = (Err (clamav.as_error e), w)
    /\ clamav.kind_of e = Some clamav.Validation.
Proof.
  intros c w os_Open.
  pose proof (rest_file_operations url_Parse os_Open c (mkContext None None)
                "/tmp/empty.txt" w) as T.
  simpl in T. destruct T as (_ & _ & _ & _ & Empty).
  apply Empty. lia.
Defined.

(** ** client.go and options.go, REST: construction *)

Section RestConstruction.
Import clamav.

Lemma apply_options_timeout : forall opts c,
  0 < timeout c ->
  0 < timeout (fold_left (fun c opt => apply_option opt c) opts c).
Proof.
  induction opts as [|opt opts IH]; intros c Hc; simpl; [exact Hc|].
  apply IH. destruct opt as [hc|d|[h|]]; simpl; try exact Hc.
  destruct (d >? 0) eqn:E; simpl; [| exact Hc].
  apply Z.gtb_lt in E. lia.
Qed.

Lemma apply_options_httpClient : forall opts c,
  existsb is_WithHTTPClient opts = false ->
  httpClient (fold_left (fun c opt => apply_option opt c) opts c) = httpClient c.
Proof.
  induction opts as [|opt opts IH]; intros c Hn; simpl in *; [reflexivity|].
  apply orb_false_iff in Hn. destruct Hn as [Ho Hn].
  rewrite (IH _ Hn). destruct opt as [hc|d|[h|]]; simpl; try reflexivity.
  - discriminate Ho.
  - destruct (d >? 0); reflexivity.
Qed.

End RestConstruction.

(** X9: a client made by the REST NewClient, with any options in any
    order, has a positive timeout and an HTTP client, so Close returns nil
    on it (on a client without an HTTP client the call panics).  Unless
    WithHTTPClient was given, the HTTP client is the default one and its
    timeout is the client's final timeout, wherever WithTimeout stood among
    the options; non-positive timeouts are ignored. *)
Theorem rest_NewClient_is_ready_to_use :
  forall (url_Parse : string -> result Go.URL) (baseURL : string)
         (opts : list clamav.ClientOption) (c : clamav.Client),
    clamav.NewClient url_Parse baseURL opts = Ok c ->
    0 < clamav.timeout c
    /\ (exists t, clamav.httpClient c = Some t)
    /\ clamav.Close c = Return None
    /\ (existsb is_WithHTTPClient opts = false ->
        clamav.httpClient c = Some (clamav.timeout c))
    /\ (forall d, d <= 0 ->
          clamav.NewClient url_Parse baseURL (opts ++ [clamav.WithTimeout d])%list = Ok c)
    /\ (forall c0, clamav.httpClient c0 = None -> clamav.Close c0 = Panic).
Proof.
  intros url_Parse baseURL opts c.
  unfold clamav.NewClient.
  destruct (url_Parse (TrimRight baseURL "/")) as [u|e]; [| discriminate].
  destruct (String.eqb (Scheme u) "" || String.eqb (Host u) ""); [discriminate|].
  set (c0 := clamav.mkClient (TrimRight baseURL "/") None clamav.defaultTimeout []).
  set (c1 := fold_left (fun c opt => clamav.apply_option opt c) opts c0).
  assert (T : 0 < clamav.timeout c1)
    by (apply apply_options_timeout; reflexivity).
  intros E. injection E as <-.
  split; [destruct (clamav.httpClient c1); exact T|].
  split; [destruct (clamav.httpClient c1) eqn:HC; simpl; eauto|].
  split; [unfold clamav.Close; destruct (clamav.httpClient c1) eqn:HC; simpl;
          [rewrite HC|]; reflexivity|].
  split.
  { intros Hn. pose proof (apply_options_httpClient opts c0 Hn) as HC.
    fold c1 in HC. simpl in HC. rewrite HC. reflexivity. }
  split.
  { intros d Hd. rewrite fold_left_app. fold c1. simpl.
    destruct (d >? 0) eqn:G; [apply Z.gtb_lt in G; lia|]. reflexivity. }
  intros c2 HC. unfold clamav.Close. rewrite HC. reflexivity.
Qed.

Lemma rest_NewClient_is_ready_to_use_witness :
  exists c,
    clamav.NewClient url_Parse "http://localhost:6000/"
      [clamav.WithTimeout 5; clamav.WithHeaders None; clamav.WithTimeout 0] = Ok c
    /\ clamav.httpClient c = Some 5
    /\ clamav.Close c = Return None.
Proof.
  eexists. split; [reflexivity|].
  destruct (rest_NewClient_is_ready_to_use url_Parse "http://localhost:6000/"
              [clamav.WithTimeout 5; clamav.WithHeaders None; clamav.WithTimeout 0]
              _ eq_refl) as (_ & _ & Cl & Default & _).
  split; [exact (Default eq_refl) | exact Cl].
Defined.

(** ** client.go and options.go, gRPC: construction *)

Section GrpcConstruction.
Import grpc.
Local Open Scope list_scope.

Lemma run_options_invariant : forall opts c,
  let c' := fold_left (fun c opt => run_option opt c) opts c in
  (0 < timeout (client c) -> 0 < timeout (client c'))
  /\ (1 <= chunkSize (client c) -> 1 <= chunkSize (client c'))
  /\ (1 <= maxMessageSize (client c) -> 1 <= maxMessageSize (client c'))
  /\ dialOpts c' = dialOpts c ++ caller_dial_options opts
  /\ hasTransportCreds c' = hasTransportCreds c || gave_credentials opts.
Proof.
  induction opts as [|opt opts IH]; intros c; simpl.
  - rewrite app_nil_r, orb_false_r. repeat split; auto.
  - specialize (IH (run_option opt c)). simpl in IH.
    destruct IH as (T & C & M & D & H).
    destruct opt as [l|creds|d|size|size]; simpl in *.
    + repeat split; auto. rewrite D, app_assoc. reflexivity.
    + repeat split; auto.
      all: try (rewrite D, <- app_assoc; reflexivity).
      all: try (rewrite H, orb_true_r; reflexivity).
    + unfold WithTimeout in *. destruct (d >? 0) eqn:G; simpl in *.
      * apply Z.gtb_lt in G. repeat split; auto; try (intros _; apply T; lia).
      * repeat split; auto.
    + unfold WithChunkSize in *. destruct (size >? 0) eqn:G; simpl in *.
      * apply Z.gtb_lt in G. repeat split; auto; try (intros _; apply C; lia).
      * repeat split; auto.
    + unfold WithMaxMessageSize in *. destruct (size >? 0) eqn:G; simpl in *.
      * apply Z.gtb_lt in G. repeat split; auto; try (intros _; apply M; lia).
      * repeat split; auto.
Qed.

End GrpcConstruction.

(** X10: a client made by the gRPC NewClient, with any options in any
    order, has a positive timeout, a chunk size of at least 1 (what
    sendChunks needs to advance) and a maximal message size of at least 1.
    Its dial options are the caller's, in order, then the default insecure
    credentials unless WithTransportCredentials was called, then the
    message-size call options.  Credentials handed over through
    WithDialOptions do not count as such a call: the insecure default still
    follows them.  A failed dial is a Connection error wrapping the
    cause. *)
Theorem grpc_NewClient_configuration :
  forall (dial : string -> list grpc.DialOption -> option error) (target : string)
         (opts : list grpc.OptionCall),
    match grpc.NewClient dial target opts with
    | Ok cfg =>
        0 < grpc.timeout (grpc.client cfg)
        /\ 1 <= grpc.chunkSize (grpc.client cfg)
        /\ 1 <= grpc.maxMessageSize (grpc.client cfg)
        /\ grpc.dialOpts cfg
           = (caller_dial_options opts
              ++ (if gave_credentials opts then []
                  else [grpc.grpclib_WithTransportCredentials grpc.insecure_NewCredentials])
              ++ [grpc.grpclib_WithDefaultCallOptions
                    (grpc.maxMessageSize (grpc.client cfg))
                    (grpc.maxMessageSize (grpc.client cfg))])%list
        /\ dial target (grpc.dialOpts cfg) = None
    | Err err =>
        exists e cause, err = clamav.as_error e
                        /\ clamav.kind_of e = Some clamav.Connection
                        /\ clamav.Cause e = Some cause
    end
    /\ (forall creds cfg,
          grpc.NewClient dial target
            [grpc.CallWithDialOptions [grpc.grpclib_WithTransportCredentials creds]] = Ok cfg ->
          grpc.dialOpts cfg
          = [grpc.grpclib_WithTransportCredentials creds;
             grpc.grpclib_WithTransportCredentials grpc.insecure_NewCredentials;
             grpc.grpclib_WithDefaultCallOptions grpc.defaultMaxMessageSize
               grpc.defaultMaxMessageSize])
    /\ (forall creds cfg,
          grpc.NewClient dial target [grpc.CallWithTransportCredentials creds] = Ok cfg ->
          grpc.dialOpts cfg
          = [grpc.grpclib_WithTransportCredentials creds;
             grpc.grpclib_WithDefaultCallOptions grpc.defaultMaxMessageSize
               grpc.defaultMaxMessageSize]).
Proof.
  intros dial target opts. split; [| split].
  - unfold grpc.NewClient.
    set (c0 := grpc.mkClientConfig _ [] false).
    destruct (run_options_invariant opts c0) as (T & C & M & D & H).
    set (c1 := fold_left (fun c opt => grpc.run_option opt c) opts c0) in *.
    simpl in D, H.
    match goal with
    | |- match (match dial target ?l with _ => _ end) with _ => _ end =>
        destruct (dial target l) eqn:Dial
    end.
    + eexists. eexists. repeat split.
    + simpl. split; [| split; [| split; [| split]]].
      * destruct (negb (grpc.hasTransportCreds c1)); apply T; reflexivity.
      * destruct (negb (grpc.hasTransportCreds c1)); apply C; vm_compute; discriminate.
      * destruct (negb (grpc.hasTransportCreds c1)); apply M; vm_compute; discriminate.
      * rewrite H. destruct (gave_credentials opts); simpl; rewrite D; simpl.
        -- reflexivity.
        -- rewrite <- app_assoc. reflexivity.
      * exact Dial.
  - intros creds cfg. unfold grpc.NewClient. simpl.
    match goal with
    | |- match dial target ?l with _ => _ end = _ -> _ => destruct (dial target l)
    end; intros E; [discriminate E|]. injection E as <-. reflexivity.
  - intros creds cfg. unfold grpc.NewClient. simpl.
    match goal with
    | |- match dial target ?l with _ => _ end = _ -> _ => destruct (dial target l)
    end; intros E; [discriminate E|]. injection E as <-. reflexivity.
Qed.

Lemma grpc_NewClient_configuration_witness :
  exists cfg,
    grpc.NewClient (fun _ _ => None) "localhost:9000"
      [grpc.CallWithDialOptions
         [grpc.grpclib_WithTransportCredentials (grpc.CallerCredentials "tls")]] = Ok cfg
    /\ grpc.dialOpts cfg
       = [grpc.grpclib_WithTransportCredentials (grpc.CallerCredentials "tls");
          grpc.grpclib_WithTransportCredentials grpc.insecure_NewCredentials;
          grpc.grpclib_WithDefaultCallOptions grpc.defaultMaxMessageSize
            grpc.defaultMaxMessageSize].
Proof.
  eexists. split; [reflexivity|].
  destruct (grpc_NewClient_configuration (fun _ _ => None) "localhost:9000" [])
    as (_ & ViaDialOptions & _).
  exact (ViaDialOptions (grpc.CallerCredentials "tls") _ eq_refl).
Defined.

(** ** client.go, gRPC: unary calls *)

Lemma contextWithTimeout_result : forall c ctx w,
  grpc.contextWithTimeout c ctx w
  = (mkContext (match Deadline ctx with
                | Some d => Some d
                | None => Some (grpc.now w + grpc.timeout c)
                end) (Done ctx), w).
Proof.
  intros c [[d|] dn] w; reflexivity.
Qed.

(** X11: every unary RPC runs under a deadline.  HealthCheck and ScanFile
    (with a payload that is not empty) make exactly one call on the stub,
    with a context that carries the caller's deadline when the caller's
    context has one -- unchanged, even if it is later than the default
    would be -- and otherwise the time of the call plus the client's
    timeout; ScanFile passes the payload and the filename as given.
    Applying the timeout policy twice is the same as applying it once. *)
Theorem unary_calls_run_under_a_deadline :
  forall (c : grpc.Client) (ctx : Context) (w : grpc.World)
         (b : Byte.byte) (data : bytes) (filename : string),
    let deadline := match Deadline ctx with
                    | Some d => d
                    | None => grpc.now w + grpc.timeout c
                    end in
    let ctx' := mkContext (Some deadline) (Done ctx) in
    grpc.rpcs (snd (grpc.HealthCheck c ctx w))
    = (grpc.rpcs w ++ [grpc.RPC_HealthCheck ctx'])%list
    /\ grpc.rpcs (snd (grpc.ScanFile c ctx (b :: data) filename w))
       = (grpc.rpcs w ++ [grpc.RPC_ScanFile ctx' (b :: data) filename])%list
    /\ grpc.contextWithTimeout c ctx w = (ctx', w)
    /\ grpc.contextWithTimeout c ctx' w = (ctx', w)
    /\ (Deadline ctx <> None -> ctx' = ctx).
Proof.
  intros c ctx w b data filename deadline ctx'.
  assert (C : grpc.contextWithTimeout c ctx w = (ctx', w)).
  { rewrite contextWithTimeout_result. unfold ctx', deadline.
    destruct (Deadline ctx); reflexivity. }
  split; [| split; [| split; [exact C | split]]].
  - unfold grpc.HealthCheck, bind. rewrite C. unfold grpc.scanner_HealthCheck.
    destruct (grpc.server_HealthCheck w ctx'); reflexivity.
  - unfold grpc.ScanFile.
    assert (L : (len (b :: data) =? 0) = false)
      by (apply Z.eqb_neq; unfold len; simpl; lia).
    rewrite L. unfold bind. rewrite C. unfold grpc.scanner_ScanFile.
    destruct (grpc.server_ScanFile w ctx' (b :: data) filename); reflexivity.
  - reflexivity.
  - intros Hd. unfold ctx', deadline. destruct ctx as [[d|] dn]; [reflexivity|].
    exfalso. apply Hd. reflexivity.
Qed.

Lemma unary_calls_run_under_a_deadline_witness :
  let ctx := mkContext (Some 1000000) None in
  mkContext (Some 1000000) (Done ctx) = ctx.
Proof.
  intros ctx.
  destruct (unary_calls_run_under_a_deadline (grpc.mkClient 30 65536 1024) ctx
              (grpc.mkWorld 5 (fun _ => Err EOF) (fun _ _ _ => Err EOF) [])
              Byte.x61 [] "a.txt") as (_ & _ & _ & _ & Kept).
  apply Kept. discriminate.
Defined.

Lemma status_FromError_not_found : forall err,
  chain_find grpc.is_StatusError err = None ->
  snd (grpc.status_FromError err) = false.
Proof.
  intros err N. unfold grpc.status_FromError.
  destruct (grpc.is_StatusError err) eqn:D.
  - destruct err; simpl in D; try discriminate D. simpl in N. discriminate N.
  - rewrite N. reflexivity.
Qed.

Lemma mapGRPCError_shape : forall err,
  exists e k,
    grpc.mapGRPCError (Some err) = Some (clamav.as_error e)
    /\ clamav.Cause e = Some err
    /\ clamav.kind_of e = Some k.
Proof.
  intros err. unfold grpc.mapGRPCError.
  destruct (grpc.status_FromError err) as [[code m] ok].
  destruct ok; simpl.
  - split_code code; eexists; eexists; repeat split.
  - eexists. eexists. repeat split.
Qed.

(** X12: mapGRPCError returns nil exactly for nil; every other error
    becomes an SDK error of one of the four kinds that wraps the error it
    was given.  An error that is not a gRPC status and wraps none is a
    Connection error with the message "gRPC error": this is what [io.EOF]
    from a broken stream's Send and a bare [context.Canceled] become. *)
Theorem mapGRPCError_wraps_every_error :
  grpc.mapGRPCError None = None
  /\ (forall err,
        exists e k,
          grpc.mapGRPCError (Some err) = Some (clamav.as_error e)
          /\ clamav.Cause e = Some err
          /\ clamav.kind_of e = Some k)
  /\ (forall err,
        chain_find grpc.is_StatusError err = None ->
        grpc.mapGRPCError (Some err)
        = Some (clamav.as_error (clamav.NewConnectionError "gRPC error" (Some err))))
  /\ clamav.IsConnectionError (grpc.mapGRPCError (Some EOF)) = true
  /\ clamav.IsConnectionError (grpc.mapGRPCError (Some Canceled)) = true
  /\ clamav.IsTimeoutError (grpc.mapGRPCError (Some Canceled)) = false.
Proof.
  split; [reflexivity|]. split; [apply mapGRPCError_shape|].
  split; [| repeat split].
  intros err N. unfold grpc.mapGRPCError.
  pose proof (status_FromError_not_found err N) as F.
  destruct (grpc.status_FromError err) as [st ok]. simpl in F. subst ok. reflexivity.
Qed.

Lemma mapGRPCError_wraps_every_error_witness :
  grpc.mapGRPCError (Some (WrapError "read: unexpected EOF" EOF))
  = Some (clamav.as_error
            (clamav.NewConnectionError "gRPC error"
               (Some (WrapError "read: unexpected EOF" EOF)))).
Proof.
  destruct mapGRPCError_wraps_every_error as (_ & _ & NoStatus & _).
  apply NoStatus. reflexivity.
Defined.

(** X13: the unary gRPC operations return either a result or an error,
    never both and never neither, and the error is an SDK error of one of
    the four kinds.  ScanFilePath fails with a Validation error wrapping
    the cause, without a call, when the file cannot be read, and -- through
    ScanFile -- with a Validation error, without a call, when the file is
    empty; otherwise it scans the contents under the base name of the
    path. *)
Theorem grpc_unary_operations_results :
  forall (os_ReadFile : string -> result bytes) (c : grpc.Client) (ctx : Context)
         (w : grpc.World) (data : bytes) (filename filePath : string),
    let well_formed (A : Type) (r : grpc.pair_result A) :=
      match r with
      | (Some _, None) => True
      | (None, Some err) =>
          exists e k, err = clamav.as_error e /\ clamav.kind_of e = Some k
      | _ => False
      end in
    well_formed _ (fst (grpc.HealthCheck c ctx w))
    /\ well_formed _ (fst (grpc.ScanFile c ctx data filename w))
    /\ well_formed _ (fst (grpc.ScanFilePath os_ReadFile c ctx filePath w))
    /\ match os_ReadFile filePath with
       | Err cause =>
           exists e, grpc.ScanFilePath os_ReadFile c ctx filePath w
                     = ((None, Some (clamav.as_error e)), w)
                     /\ clamav.kind_of e = Some clamav.Validation
                     /\ clamav.Cause e = Some cause
       | Ok [] =>
           exists e, grpc.ScanFilePath os_ReadFile c ctx filePath w
                     = ((None, Some (clamav.as_error e)), w)
                     /\ clamav.kind_of e = Some clamav.Validation
       | Ok contents =>
           grpc.ScanFilePath os_ReadFile c ctx filePath w
           = grpc.ScanFile c ctx contents (filepath_Base filePath) w
       end.
Proof.
  intros os_ReadFile c ctx w data filename filePath well_formed.
  assert (HF : forall d f, well_formed _ (fst (grpc.ScanFile c ctx d f w))).
  { intros d f. unfold grpc.ScanFile. destruct (len d =? 0).
    - simpl. eexists. eexists. split; reflexivity.
    - unfold bind. rewrite contextWithTimeout_result. unfold grpc.scanner_ScanFile.
      match goal with
      | |- context [grpc.server_ScanFile w ?x d f] =>
          destruct (grpc.server_ScanFile w x d f) as [resp|e0]
      end; [simpl; exact I|].
      destruct (mapGRPCError_shape e0) as (e & k & E & _ & K).
      unfold ret. cbn [fst]. rewrite E. unfold well_formed. eauto. }
  split; [| split; [apply HF | split]].
  - unfold grpc.HealthCheck, bind. rewrite contextWithTimeout_result.
    unfold grpc.scanner_HealthCheck.
    match goal with
    | |- context [grpc.server_HealthCheck w ?x] =>
        destruct (grpc.server_HealthCheck w x) as [resp|e0]
    end; [simpl; exact I|].
    destruct (mapGRPCError_shape e0) as (e & k & E & _ & K).
    unfold ret. cbn [fst]. rewrite E. unfold well_formed. eauto.
  - unfold grpc.ScanFilePath. destruct (os_ReadFile filePath) as [d|e0].
    + apply HF.
    + simpl. eexists. eexists. split; reflexivity.
  - unfold grpc.ScanFilePath. destruct (os_ReadFile filePath) as [[|b d]|e0].
    + eexists. split; [reflexivity|]. reflexivity.
    + reflexivity.
    + eexists. repeat split.
Qed.

(** ** client.go, gRPC: chunking on a stream that fails *)

Section FailingSends.
Import grpc.
Local Open Scope list_scope.
Local Open Scope nat_scope.

Lemma reliable_inj : forall l1 n1 l2 n2,
  reliable l1 n1 = reliable l2 n2 -> l1 = l2 /\ n1 = n2.
Proof. intros l1 n1 l2 n2 E. injection E as E1 E2. auto. Qed.

(** A run on a reliable stream only appends to what was sent. *)
Lemma sendChunks_loop_appends : forall fuel c data filename i log n o st,
  sendChunks_loop fuel c (reliable log n) data filename i = Some (o, st) ->
  exists ch, st = reliable (log ++ ch) (n + List.length ch).
Proof.
  induction fuel as [|fuel IH]; intros c data filename i log n o st; cbn [sendChunks_loop].
  - destruct (i <? len data)%Z; intros E; [discriminate E|].
    injection E as _ <-. exists []. rewrite app_nil_r, Nat.add_0_r. reflexivity.
  - destruct (i <? len data)%Z.
    2: { intros E. injection E as _ <-. exists [].
         rewrite app_nil_r, Nat.add_0_r. reflexivity. }
    match goal with
    | |- context [slice data i ?e] => destruct (slice data i e) as [chunk|]
    end.
    + rewrite Send_reliable. intros E.
      destruct (IH _ _ _ _ _ _ _ _ E) as [ch ->].
      match goal with
      | |- context [(log ++ [?r]) ++ ch] => exists (r :: ch)
      end.
      rewrite <- app_assoc. simpl. rewrite Nat.add_succ_r. reflexivity.
    + intros E. injection E as _ <-. exists [].
      rewrite app_nil_r, Nat.add_0_r. reflexivity.
Qed.

Lemma sendChunks_loop_stops_at_failure :
  forall fuel c data filename (f : nat -> option error) i log n chunks n' j e,
    sendChunks_loop fuel c (reliable log n) data filename i
    = Some (Return None, reliable (log ++ chunks) n') ->
    (forall k, k < j -> f (n + k) = None) ->
    f (n + j) = Some e ->
    j < List.length chunks ->
    sendChunks_loop fuel c (mkRecorder log n f) data filename i
    = Some (Return (mapGRPCError (Some e)),
            mkRecorder (log ++ firstn j chunks) (S (n + j)) f).
Proof.
  assert (Stop : forall (log chunks : list ScanStreamRequest) j,
             log = log ++ chunks -> j < List.length chunks -> False).
  { intros log chunks j E Hj.
    rewrite <- (app_nil_r log) in E at 1. apply app_inv_head in E. subst chunks.
    simpl in Hj. lia. }
  induction fuel as [|fuel IH];
    intros c data filename f i log n chunks n' j e; cbn [sendChunks_loop].
  - destruct (i <? len data)%Z; intros E; [discriminate E|].
    intros _ _ Hj. injection E as E _. exfalso. eapply Stop; eassumption.
  - destruct (i <? len data)%Z.
    2: { intros E _ _ Hj. injection E as E _. exfalso. eapply Stop; eassumption. }
    match goal with
    | |- context [slice data i ?x] => destruct (slice data i x) as [chunk|]
    end; [| intros E; discriminate E].
    rewrite Send_reliable. intros Run Hbefore Hfail Hj.
    destruct (sendChunks_loop_appends _ _ _ _ _ _ _ _ _ Run) as [ch Ech].
    apply reliable_inj in Ech. destruct Ech as [Ech _].
    rewrite <- app_assoc in Ech. apply app_inv_head in Ech. simpl in Ech.
    subst chunks. cbn [Send Recorder_chunkSender faults attempts sent].
    destruct j as [|j].
    + rewrite Nat.add_0_r in Hfail. rewrite Hfail.
      simpl. rewrite app_nil_r, Nat.add_0_r. reflexivity.
    + assert (Hn : f n = None) by (rewrite <- (Hbefore 0) by lia; f_equal; lia).
      rewrite Hn.
      rewrite (IH c data filename f _ (log ++ [_]) (S n) ch n' j e).
      * rewrite <- app_assoc. simpl. rewrite Nat.add_succ_r. reflexivity.
      * rewrite <- app_assoc. exact Run.
      * intros k Hk. rewrite <- (Hbefore (S k)) by lia. f_equal. lia.
      * rewrite <- Hfail. f_equal. lia.
      * simpl in Hj. lia.
Qed.

End FailingSends.

(** X14: sendChunks stops at the first Send that fails.  Take a payload
    that a reliable stream would receive as [chunks].  On a stream whose
    first [j] Sends succeed and whose next one fails, with [j] less than
    the number of chunks, exactly the first [j] chunks are transmitted, in
    order, no Send is tried after the failing one, and the error comes
    back -- mapped by mapGRPCError for a payload that is not empty, but as
    the stream gave it for the empty payload, whose single Send is returned
    directly. *)
Theorem sendChunks_stops_at_first_failing_send :
  forall (fuel : nat) (c : grpc.Client) (data : bytes) (filename : string)
         (f : nat -> option error) (log chunks : list grpc.ScanStreamRequest)
         (n n' j : nat) (e : error),
    grpc.sendChunks fuel c (grpc.reliable log n) data filename
    = Some (Return None, grpc.reliable (log ++ chunks)%list n') ->
    (forall k, (k < j)%nat -> f (n + k)%nat = None) ->
    f (n + j)%nat = Some e ->
    (j < List.length chunks)%nat ->
    grpc.sendChunks fuel c (grpc.mkRecorder log n f) data filename
    = Some (Return (if len data =? 0 then Some e else grpc.mapGRPCError (Some e)),
            grpc.mkRecorder (log ++ firstn j chunks)%list (S (n + j)) f).
Proof.
  intros fuel c data filename f log chunks n n' j e. unfold grpc.sendChunks.
  destruct (len data =? 0).
  - rewrite Send_reliable. intros E Hbefore Hfail Hj.
    injection E as E _. apply app_inv_head in E. subst chunks.
    assert (j = 0)%nat by (simpl in Hj; lia). subst j.
    rewrite Nat.add_0_r in *. cbn [grpc.Send grpc.Recorder_chunkSender].
    cbn [grpc.faults grpc.attempts grpc.sent]. rewrite Hfail.
    simpl. rewrite app_nil_r. reflexivity.
  - apply sendChunks_loop_stops_at_failure.
Qed.

Lemma sendChunks_stops_at_first_failing_send_witness :
  let c := grpc.mkClient grpc.defaultTimeout 2 grpc.defaultMaxMessageSize in
  let data := [Byte.x61; Byte.x62; Byte.x63; Byte.x64; Byte.x65] in
  let f := fun k : nat => if Nat.eqb k 1 then Some EOF else None in
  grpc.sendChunks 5 c (grpc.mkRecorder [] 0 f) data "a.txt"
  = Some (Return (grpc.mapGRPCError (Some EOF)),
          grpc.mkRecorder
            [grpc.mkScanStreamRequest [Byte.x61; Byte.x62] "a.txt" false] 2 f).
Proof.
  intros c data f.
  apply (sendChunks_stops_at_first_failing_send 5 c data "a.txt" f []
           [grpc.mkScanStreamRequest [Byte.x61; Byte.x62] "a.txt" false;
            grpc.mkScanStreamRequest [Byte.x63; Byte.x64] "" false;
            grpc.mkScanStreamRequest [Byte.x65] "" true]
           0%nat 3%nat 1%nat EOF).
  - reflexivity.
  - intros k Hk. assert (k = 0)%nat by lia. subst k. reflexivity.
  - reflexivity.
  - simpl. lia.
Defined.

(** ** client.go, gRPC: chunk sizes that are not positive *)

Lemma sendChunks_loop_zero_chunk : forall fuel c data filename log n,
  grpc.chunkSize c = 0 -> 0 < len data ->
  grpc.sendChunks_loop fuel c (grpc.reliable log n) data filename 0 = None.
Proof.
  induction fuel as [|fuel IH]; intros c data filename log n Hc Hd;
    cbn [grpc.sendChunks_loop].
  - destruct (0 <? len data) eqn:E; [reflexivity | apply Z.ltb_ge in E; lia].
  - destruct (0 <? len data) eqn:E; [| apply Z.ltb_ge in E; lia].
    rewrite Hc. change (int_add 0 0) with 0.
    destruct (0 >? len data) eqn:G; [apply Z.gtb_lt in G; lia|].
    unfold slice.
    assert (R : (0 <=? 0) && (0 <=? 0) && (0 <=? len data) = true)
      by (rewrite !andb_true_iff, !Z.leb_le; lia).
    rewrite R, Send_reliable. apply IH; assumption.
Qed.

(** X15: sendChunks relies on a positive chunk size, which only NewClient
    and WithChunkSize guarantee.  On a client whose chunk size is 0 (the
    zero value of the struct) and a payload that is not empty the loop
    never advances: it does not return, whatever the number of iterations.
    With a negative chunk size the first slice expression is out of range
    and the call panics before anything is sent.  The empty payload is
    sent as its single chunk whatever the chunk size. *)
Theorem sendChunks_needs_a_positive_chunk_size :
  forall (c : grpc.Client) (b : Byte.byte) (data : bytes) (filename : string)
         (log : list grpc.ScanStreamRequest) (n : nat),
    (grpc.chunkSize c = 0 ->
     forall fuel,
       grpc.sendChunks fuel c (grpc.reliable log n) (b :: data) filename = None)
    /\ (min_int <= grpc.chunkSize c < 0 ->
        forall fuel,
          grpc.sendChunks (S fuel) c (grpc.reliable log n) (b :: data) filename
          = Some (Panic, grpc.reliable log n))
    /\ (forall fuel,
          grpc.sendChunks fuel c (grpc.reliable log n) [] filename
          = Some (Return None,
                  grpc.reliable (log ++ [grpc.mkScanStreamRequest [] filename true])%list
                                (S n))).
Proof.
  intros c b data filename log n.
  assert (Hd : 0 < len (b :: data)) by (unfold len; simpl; lia).
  assert (Hn : (len (b :: data) =? 0) = false) by (apply Z.eqb_neq; lia).
  split; [| split].
  - intros Hc fuel. unfold grpc.sendChunks. rewrite Hn.
    apply sendChunks_loop_zero_chunk; assumption.
  - intros Hc fuel. unfold grpc.sendChunks. rewrite Hn. cbn [grpc.sendChunks_loop].
    destruct (0 <? len (b :: data)) eqn:E; [| apply Z.ltb_ge in E; lia].
    unfold int_add. rewrite wrap_int_in_range by (unfold min_int, max_int in *; lia).
    change (0 + grpc.chunkSize c) with (grpc.chunkSize c).
    destruct (grpc.chunkSize c >? len (b :: data)) eqn:G; [apply Z.gtb_lt in G; lia|].
    unfold slice.
    assert (R : (0 <=? 0) && (0 <=? grpc.chunkSize c)
                && (grpc.chunkSize c <=? len (b :: data)) = false).
    { apply andb_false_iff. left. apply andb_false_iff. right. apply Z.leb_gt. lia. }
    rewrite R. reflexivity.
  - intros fuel. reflexivity.
Qed.

Lemma sendChunks_needs_a_positive_chunk_size_witness :
  grpc.sendChunks 1000 (grpc.mkClient 0 0 0) (grpc.reliable [] 0) [Byte.x61] "a.txt" = None
  /\ grpc.sendChunks 1 (grpc.mkClient 0 (-1) 0) (grpc.reliable [] 0) [Byte.x61] "a.txt"
     = Some (Panic, grpc.reliable [] 0).
Proof.
  destruct (sendChunks_needs_a_positive_chunk_size (grpc.mkClient 0 0 0) Byte.x61 []
              "a.txt" [] 0) as (Zero & _ & _).
  destruct (sendChunks_needs_a_positive_chunk_size (grpc.mkClient 0 (-1) 0) Byte.x61 []
              "a.txt" [] 0) as (_ & Negative & _).
  split.
  - apply Zero. reflexivity.
  - apply (fun H => Negative H 0%nat). unfold min_int. simpl. lia.
Defined.

(** ** client.go, gRPC: ScanStream *)

(** What a reliable stream receives from sendChunks. *)
Lemma sendChunks_reliable_run : forall c data filename log n,
  1 <= grpc.chunkSize c <= max_int -> len data <= maxAlloc ->
  exists chunks,
    List.concat (map grpc.Chunk chunks) = data
    /\ forall fuel, (List.length data <= fuel)%nat ->
         grpc.sendChunks fuel c (grpc.reliable log n) data filename
         = Some (Return None,
                 grpc.reliable (log ++ chunks)%list (n + List.length chunks)).
Proof.
  intros c data filename log n Hc Hlen. destruct data as [|b data].
  - exists [grpc.mkScanStreamRequest [] filename true]. split; [reflexivity|].
    intros fuel _. unfold grpc.sendChunks. simpl. rewrite Nat.add_1_r. reflexivity.
  - set (payload := b :: data) in *.
    assert (Hpos : 0 < len payload) by (unfold len, payload; simpl; lia).
    destruct (sendChunks_loop_reliable c payload filename Hc Hlen
                (List.length payload) 0 log n) as (chunks & Hrun & Hcat & _).
    { lia. } { left. reflexivity. } { unfold len. lia. }
    exists chunks. split; [exact Hcat|].
    intros fuel Hfuel. unfold grpc.sendChunks.
    destruct (len payload =? 0) eqn:E; [apply Z.eqb_eq in E; lia|].
    apply Hrun. exact Hfuel.
Qed.

(** X16: ScanStream composes opening the stream, sendChunks and
    CloseAndRecv.  When the stream cannot be opened, nothing is sent and
    the error is mapped.  On a stream that accepts every chunk, the server
    is asked for its verdict with chunks on record that concatenate to the
    payload, and the call returns that verdict, or the mapped error of
    CloseAndRecv.  When the single Send of an empty payload fails, the
    stream's own error is returned as it is: for [io.EOF] no kind predicate
    recognises it, whereas a payload that is not empty gives a Connection
    error for the same failure. *)
Theorem ScanStream_composes_send_and_verdict :
  forall (CloseAndRecv : grpc.Recorder -> result grpc.ScanResponse)
         (c : grpc.Client) (data : bytes) (filename : string)
         (log : list grpc.ScanStreamRequest) (n : nat),
    1 <= grpc.chunkSize c <= max_int ->
    len data <= maxAlloc ->
    (forall fuel err,
        grpc.ScanStream CloseAndRecv fuel c (Err err) data filename
        = Some (Return ((None, grpc.mapGRPCError (Some err)), None)))
    /\ (exists chunks,
          List.concat (map grpc.Chunk chunks) = data
          /\ forall fuel, (List.length data <= fuel)%nat ->
               let received := grpc.reliable (log ++ chunks)%list
                                 (n + List.length chunks) in
               grpc.ScanStream CloseAndRecv fuel c (Ok (grpc.reliable log n)) data filename
               = Some (Return
                         (match CloseAndRecv received with
                          | Ok resp => (Some (grpc.mapScanResponse resp), None)
                          | Err err => (None, grpc.mapGRPCError (Some err))
                          end,
                          Some received)))
    /\ (forall fuel f,
          f n = Some EOF ->
          grpc.ScanStream CloseAndRecv fuel c (Ok (grpc.mkRecorder log n f)) [] filename
          = Some (Return ((None, Some EOF), Some (grpc.mkRecorder log (S n) f)))
          /\ (forall k, clamav.IsKindError k (Some EOF) = false)
          /\ (forall b,
                grpc.ScanStream CloseAndRecv (S fuel) c (Ok (grpc.mkRecorder log n f))
                  [b] filename
                = Some (Return ((None, grpc.mapGRPCError (Some EOF)),
                                Some (grpc.mkRecorder log (S n) f)))
                /\ clamav.IsConnectionError (grpc.mapGRPCError (Some EOF)) = true)).
Proof.
  intros CloseAndRecv c data filename log n Hc Hlen.
  split; [reflexivity|]. split.
  - destruct (sendChunks_reliable_run c data filename log n Hc Hlen)
      as (chunks & Hcat & Hrun).
    exists chunks. split; [exact Hcat|].
    intros fuel Hfuel received. unfold grpc.ScanStream.
    rewrite (Hrun fuel Hfuel). fold received.
    destruct (CloseAndRecv received); reflexivity.
  - intros fuel f Hf. split; [| split].
    + unfold grpc.ScanStream, grpc.sendChunks. simpl. rewrite Hf. reflexivity.
    + intros []; reflexivity.
    + intros b. split; [| reflexivity].
      unfold grpc.ScanStream.
      assert (Run : grpc.sendChunks (S fuel) c (grpc.mkRecorder log n f) [b] filename
                    = Some (Return (grpc.mapGRPCError (Some EOF)),
                            grpc.mkRecorder log (S n) f)).
      { unfold grpc.sendChunks. change (len [b] =? 0) with false.
        cbn [grpc.sendChunks_loop]. change (0 <? len [b]) with true. cbv iota.
        unfold int_add. rewrite wrap_int_in_range by (unfold min_int, max_int in *; lia).
        change (0 + grpc.chunkSize c) with (grpc.chunkSize c).
        unfold slice.
        match goal with
        | |- context [if ?b then Return ?x else Panic] =>
            assert (R : b = true)
        end.
        { rewrite !andb_true_iff, !Z.leb_le.
          destruct (grpc.chunkSize c >? len [b]) eqn:G.
          - unfold len. simpl. lia.
          - rewrite Z.gtb_ltb in G. apply Z.ltb_ge in G. unfold len in *. simpl in *. lia. }
        rewrite R. cbn [grpc.Send grpc.Recorder_chunkSender grpc.faults grpc.attempts].
        rewrite Hf. reflexivity. }
      rewrite Run. reflexivity.
Qed.

Lemma ScanStream_composes_send_and_verdict_witness :
  let c := grpc.mkClient grpc.defaultTimeout 2 grpc.defaultMaxMessageSize in
  let f := fun _ : nat => Some EOF in
  grpc.ScanStream (fun _ => Err EOF) 1 c (Ok (grpc.mkRecorder [] 0 f)) [] "empty.txt"
  = Some (Return ((None, Some EOF), Some (grpc.mkRecorder [] 1 f))).
Proof.
  intros c f.
  destruct (ScanStream_composes_send_and_verdict (fun _ => Err EOF) c [] "empty.txt" [] 0)
    as (_ & _ & Empty).
  - vm_compute. split; discriminate.
  - vm_compute. discriminate.
  - exact (proj1 (Empty 1%nat f eq_refl)).
Defined.

(** ** client.go, gRPC: ScanStreamReader *)

Section ReaderLoop.
Import grpc.
Local Open Scope list_scope.
Local Open Scope nat_scope.

Lemma ScanStreamReader_loop_reliable : forall filename last final body log n first,
  exists reqs,
    ScanStreamReader_loop (reads_then body last final) (reliable log n) filename first
    = Some (if is_EOF final then None
            else Some (clamav.as_error
                         (clamav.NewValidationError "failed to read data" (Some final))),
            reliable (log ++ reqs) (n + List.length reqs),
            match reqs with [] => first | _ :: _ => false end)
    /\ List.concat (map Chunk reqs) = List.concat body ++ last
    /\ Forall (fun r => Chunk r <> []) reqs
    /\ map Filename reqs
       = match reqs with
         | [] => []
         | _ :: t => (if first then filename else EmptyString)
                     :: map (fun _ => EmptyString) t
         end
    /\ exists front tail,
         reqs = front ++ tail
         /\ Forall (fun r => IsLast r = false) front
         /\ map IsLast tail = match last with
                              | [] => []
                              | _ :: _ => [is_EOF final]
                              end.
Proof.
  intros filename last final.
  induction body as [|ch body IH]; intros log n first.
  - unfold reads_then. cbn [map app ScanStreamReader_loop]. destruct last as [|b l].
    + exists []. rewrite app_nil_r, Nat.add_0_r. split.
      * change (0 <? len [])%Z with false. cbv beta iota zeta.
        destruct (is_EOF final); reflexivity.
      * repeat split; try constructor. exists [], []. repeat split. constructor.
    + assert (L : (0 <? len (b :: l))%Z = true)
        by (apply Z.ltb_lt; unfold len; simpl; lia).
      rewrite L, Send_reliable. cbv beta iota zeta.
      exists [mkScanStreamRequest (b :: l) (if first then filename else EmptyString)
                (is_EOF final)].
      split.
      * simpl. rewrite Nat.add_1_r. destruct (is_EOF final); reflexivity.
      * repeat split.
        -- simpl. rewrite app_nil_r. reflexivity.
        -- constructor; [discriminate | constructor].
        -- exists [], [mkScanStreamRequest (b :: l)
                          (if first then filename else EmptyString) (is_EOF final)].
           repeat split. constructor.
  - unfold reads_then in *. cbn [map app ScanStreamReader_loop].
    destruct ch as [|b l].
    + change (0 <? len [])%Z with false. cbv beta iota zeta.
      destruct (IH log n first) as (reqs & Run & Rest). exists reqs.
      split; [exact Run | exact Rest].
    + assert (L : (0 <? len (b :: l))%Z = true)
        by (apply Z.ltb_lt; unfold len; simpl; lia).
      rewrite L, Send_reliable. cbv beta iota zeta.
      set (req := mkScanStreamRequest (b :: l) (if first then filename else EmptyString)
                    false).
      destruct (IH (log ++ [req]) (S n) false)
        as (reqs & Run & Cat & NE & FN & front & tail & Split & Front & Tail).
      exists (req :: reqs). split.
      * rewrite Run. rewrite <- app_assoc. simpl. rewrite Nat.add_succ_r.
        destruct reqs; reflexivity.
      * repeat split.
        -- simpl. rewrite Cat, <- app_assoc. reflexivity.
        -- constructor; [discriminate | exact NE].
        -- simpl. f_equal. rewrite FN. destruct reqs; reflexivity.
        -- exists (req :: front), tail. repeat split.
           ++ simpl. rewrite Split. reflexivity.
           ++ constructor; [reflexivity | exact Front].
           ++ exact Tail.
Qed.

End ReaderLoop.

Lemma map_const_Forall : forall (rs : list grpc.ScanStreamRequest),
  map grpc.Filename rs = map (fun _ => EmptyString) rs ->
  Forall (fun r => grpc.Filename r = EmptyString) rs.
Proof.
  induction rs as [|r rs IH]; intros E; constructor.
  - simpl in E. injection E as E _. exact E.
  - apply IH. simpl in E. injection E as _ E. exact E.
Qed.

(** X17: ScanStreamReader forwards what it reads.  For a source whose
    reads succeed until one reports [io.EOF], and a stream that accepts
    every chunk: the chunks sent concatenate to the bytes read, reads of
    no bytes send nothing, the first chunk sent carries the filename and no
    other does, and the server is then asked for its verdict, which is the
    result.  At least one chunk is sent; only the last one can carry the
    final flag, and it carries it exactly when the read that reported
    [io.EOF] had bytes or no bytes were read at all.  A source that reports
    [io.EOF] with an empty read after its data therefore has no chunk
    flagged final. *)
Theorem ScanStreamReader_forwards_what_it_reads :
  forall (CloseAndRecv : grpc.Recorder -> result grpc.ScanResponse)
         (c : grpc.Client) (filename : string) (body : list bytes) (last : bytes)
         (log : list grpc.ScanStreamRequest) (n : nat),
    0 <= grpc.chunkSize c ->
    exists sent : list grpc.ScanStreamRequest,
      (let received := grpc.reliable (log ++ sent)%list (n + List.length sent) in
       grpc.ScanStreamReader CloseAndRecv c (Ok (grpc.reliable log n))
         (reads_then body last EOF) filename
       = Some (Return
                 (match CloseAndRecv received with
                  | Ok resp => (Some (grpc.mapScanResponse resp), None)
                  | Err err => (None, grpc.mapGRPCError (Some err))
                  end,
                  Some received)))
      /\ List.concat (map grpc.Chunk sent) = (List.concat body ++ last)%list
      /\ (exists first rest,
             sent = first :: rest
             /\ grpc.Filename first = filename
             /\ Forall (fun r => grpc.Filename r = EmptyString) rest)
      /\ (exists front final_chunk,
             sent = (front ++ [final_chunk])%list
             /\ Forall (fun r => grpc.IsLast r = false) front
             /\ (grpc.IsLast final_chunk = true <->
                 last <> [] \/ List.concat body = [])).
Proof.
  intros CloseAndRecv c filename body last log n Hc.
  destruct (ScanStreamReader_loop_reliable filename last EOF body log n true)
    as (reqs & Run & Cat & NE & FN & front & tail & Split & Front & Tail).
  assert (Hneg : (grpc.chunkSize c <? 0) = false) by (apply Z.ltb_ge; lia).
  destruct reqs as [|r rs].
  - exists [grpc.mkScanStreamRequest [] filename true].
    split; [| split; [| split]].
    + unfold grpc.ScanStreamReader. rewrite Hneg, Run.
      cbn [is_EOF]. rewrite app_nil_r, Nat.add_0_r, Send_reliable.
      simpl. rewrite Nat.add_1_r.
      match goal with
      | |- context [CloseAndRecv ?x] => destruct (CloseAndRecv x)
      end; reflexivity.
    + simpl in *. exact Cat.
    + eexists. exists []. repeat split. constructor.
    + exists [], (grpc.mkScanStreamRequest [] filename true). repeat split.
      * constructor.
      * intros _. right. simpl in Cat. symmetry in Cat.
        apply app_eq_nil in Cat. exact (proj1 Cat).
  - exists (r :: rs). split; [| split; [| split]].
    + unfold grpc.ScanStreamReader. rewrite Hneg, Run. cbn [is_EOF].
      match goal with
      | |- context [CloseAndRecv ?x] => destruct (CloseAndRecv x)
      end; reflexivity.
    + exact Cat.
    + exists r, rs. simpl in FN. injection FN as F1 F2.
      repeat split; [exact F1 | apply map_const_Forall; exact F2].
    + assert (Hdata : List.concat body <> [] \/ last <> []).
      { destruct last as [|b l]; [| right; discriminate]. left.
        rewrite app_nil_r in Cat. rewrite <- Cat. simpl.
        inversion NE as [|? ? Hr _]. destruct (grpc.Chunk r); [contradiction | discriminate]. }
      destruct last as [|b l].
      * destruct tail; [| discriminate Tail]. rewrite app_nil_r in Split. subst front.
        destruct (exists_last (l := r :: rs)) as (f' & x & E); [discriminate|].
        rewrite E in *. exists f', x.
        apply Forall_app in Front. destruct Front as [Ff Fx].
        inversion Fx as [|? ? Hx _]. repeat split; try assumption.
        -- intros T. rewrite Hx in T. discriminate T.
        -- intros [A|A]; [contradiction A; reflexivity|].
           destruct Hdata as [D|D]; contradiction.
      * destruct tail as [|x [|y tail]]; try discriminate Tail.
        simpl in Tail. injection Tail as Tx.
        exists front, x. repeat split; try assumption.
        -- intros _. left. discriminate.
        -- intros _. exact Tx.
Qed.

Lemma ScanStreamReader_forwards_what_it_reads_witness :
  let c := grpc.mkClient grpc.defaultTimeout 4 grpc.defaultMaxMessageSize in
  exists sent,
    grpc.ScanStreamReader (fun _ => Err EOF) c (Ok (grpc.reliable [] 0))
      (reads_then [[Byte.x61; Byte.x62]] [] EOF) "a.txt"
    = Some (Return ((None, grpc.mapGRPCError (Some EOF)),
                    Some (grpc.reliable sent (List.length sent))))
    /\ List.concat (map grpc.Chunk sent) = [Byte.x61; Byte.x62].
Proof.
  intros c.
  destruct (ScanStreamReader_forwards_what_it_reads (fun _ => Err EOF) c "a.txt"
              [[Byte.x61; Byte.x62]] [] [] 0) as (sent & Run & Cat & _).
  - simpl. lia.
  - exists sent. split; [exact Run | exact Cat].
Defined.

(** X18: a read that fails ends ScanStreamReader with a Validation error
    wrapping the read error.  What had been read until then -- the bytes
    that came with the failing read included -- has been sent, without a
    final flag, and no empty final chunk follows; the verdict of the server
    is not asked for, so the result does not depend on it. *)
Theorem ScanStreamReader_read_failure :
  forall (CloseAndRecv : grpc.Recorder -> result grpc.ScanResponse)
         (c : grpc.Client) (filename : string) (body : list bytes) (last : bytes)
         (cause : error) (log : list grpc.ScanStreamRequest) (n : nat),
    0 <= grpc.chunkSize c ->
    is_EOF cause = false ->
    exists sent : list grpc.ScanStreamRequest,
      grpc.ScanStreamReader CloseAndRecv c (Ok (grpc.reliable log n))
        (reads_then body last cause) filename
      = Some (Return
                ((None,
                  Some (clamav.as_error
                          (clamav.NewValidationError "failed to read data" (Some cause)))),
                 Some (grpc.reliable (log ++ sent)%list (n + List.length sent))))
      /\ List.concat (map grpc.Chunk sent) = (List.concat body ++ last)%list
      /\ Forall (fun r => grpc.IsLast r = false) sent.
Proof.
  intros CloseAndRecv c filename body last cause log n Hc Hcause.
  destruct (ScanStreamReader_loop_reliable filename last cause body log n true)
    as (reqs & Run & Cat & _ & _ & front & tail & Split & Front & Tail).
  assert (Hneg : (grpc.chunkSize c <? 0) = false) by (apply Z.ltb_ge; lia).
  exists reqs. split; [| split].
  - unfold grpc.ScanStreamReader. rewrite Hneg, Run, Hcause. reflexivity.
  - exact Cat.
  - rewrite Split. apply Forall_app. split; [exact Front|].
    rewrite Hcause in Tail. destruct last.
    + destruct tail; [constructor | discriminate Tail].
    + destruct tail as [|x [|y tail]]; try discriminate Tail.
      simpl in Tail. injection Tail as Tx. constructor; [exact Tx | constructor].
Qed.

Lemma ScanStreamReader_read_failure_witness :
  let c := grpc.mkClient grpc.defaultTimeout 4 grpc.defaultMaxMessageSize in
  exists sent,
    grpc.ScanStreamReader (fun _ => Err EOF) c (Ok (grpc.reliable [] 0))
      (reads_then [[Byte.x61]] [] (ErrorString "disk error")) "a.txt"
    = Some (Return
              ((None,
                Some (clamav.as_error
                        (clamav.NewValidationError "failed to read data"
                           (Some (ErrorString "disk error"))))),
               Some (grpc.reliable sent (List.length sent))))
    /\ Forall (fun r => grpc.IsLast r = false) sent.
Proof.
  intros c.
  destruct (ScanStreamReader_read_failure (fun _ => Err EOF) c "a.txt" [[Byte.x61]] []
              (ErrorString "disk error") [] 0) as (sent & Run & _ & Flags).
  - simpl. lia.
  - reflexivity.
  - exists sent. split; [exact Run | exact Flags].
Defined.

(** ** ScanMultiple: cancellation, the size of the channel, and its closing *)

Section BatchCancellation.
Import grpc.
Local Open Scope list_scope.
Local Open Scope nat_scope.
Context {S : Type} `{chunkSender S}.
Variable c : Client.
Variable files : list clamav.FileInput.

(** With the context done, a step does not take the sender into
    sendChunks, and a step that changes the stream is a round of the
    sendChunks the sender was in. *)
Lemma step_after_cancel : forall (s s' : Session S),
  step c files s s' -> ctx_done s = true ->
  ctx_done s' = true
  /\ (forall k i, sender s' = Chunking k i -> exists i0, sender s = Chunking k i0)
  /\ ((forall k i, sender s <> Chunking k i) -> stream s' = stream s).
Proof.
  intros s s' St Hd.
  inversion St; subst; clear St; simpl; try congruence;
    (split; [first [reflexivity | assumption]|]); split;
    try (intros k0 i0 E0; first [discriminate E0 | eexists; exact E0]);
    try (intros _; reflexivity);
    try (intros k0 i0 E0; injection E0 as <- <-; eexists; eassumption);
    try (intros N; exfalso; eapply N; eassumption).
Qed.

Lemma steps_after_cancel : forall (s s' : Session S),
  steps c files s s' -> ctx_done s = true ->
  ctx_done s' = true
  /\ (forall k i, sender s' = Chunking k i -> exists i0, sender s = Chunking k i0)
  /\ ((forall k i, sender s <> Chunking k i) -> stream s' = stream s).
Proof.
  intros s s' St. induction St as [s|s1 s2 s3 St _ IH]; intros Hd.
  - split; [exact Hd|]. split; [intros k i E; exists i; exact E | reflexivity].
  - destruct (step_after_cancel s1 s2 St Hd) as (D1 & In1 & Same1).
    destruct (IH D1) as (D2 & In2 & Same2).
    split; [exact D2|]. split.
    + intros k i E. destruct (In2 k i E) as [i0 E0]. exact (In1 k i0 E0).
    + intros N. rewrite Same2, Same1; [reflexivity | exact N |].
      intros k i E. destruct (In1 k i E) as [i0 E0]. exact (N k i0 E0).
Qed.

(** Outside sendChunks a goroutine that has not returned can return in one
    step once the context is done, whatever the channel holds, unless it
    is the receiver waiting in [stream.Recv()]. *)
Lemma returns_after_cancel : forall (s : Session S),
  ctx_done s = true -> panicked s = false ->
  (forall k r, sender s = SendFile k \/ sender s = SendResult k r ->
     step c files s (sender_returns s))
  /\ (forall r again, receiver s = RecvResult r again ->
        step c files s (receiver_returns s (incoming s))).
Proof.
  intros s Hd Hp. split.
  - intros k r [E|E].
    + destruct (Nat.lt_ge_cases k (List.length files)) as [L|L].
      * eapply sender_abort; eassumption.
      * eapply sender_finish; eassumption.
    + eapply sender_gives_up; eassumption.
  - intros r again Hr. eapply recv_gives_up; eassumption.
Qed.

(** A goroutine inside sendResult finds room in the channel when the
    potential of the session is within the capacity. *)
Lemma room_for_pending : forall bound (s : Session S),
  session_inv files bound s ->
  (Z.of_nat bound <= capacity s)%Z ->
  (forall k r, sender s = SendResult k r -> has_room s)
  /\ (forall r again, receiver s = RecvResult r again -> has_room s).
Proof.
  intros bound s [_ _ _ _ _ I4 _ _ I5] Hb. unfold potential in I5. unfold has_room.
  split.
  - intros k r E. rewrite E in I4, I5. simpl in I5. lia.
  - intros r again E. rewrite E in I5. simpl in I5. destruct again; lia.
Qed.

End BatchCancellation.

(** X19: once the context of a ScanMultiple session is done -- cancelled by
    the caller, expired, or cancelled by the receiver when it returned --
    it stays done and the sender starts no further input: the check at the
    head of its loop makes it return, so from then on the sender is inside
    sendChunks only for the input it was already sending, and a stream
    whose sender was not inside sendChunks is never sent to again.
    sendChunks itself does not look at the context: the rounds left for an
    input in progress are still sent.  Outside sendChunks the sender can
    return in one step, and so can a receiver that is inside sendResult,
    whatever the channel holds and without the caller taking anything from
    it. *)
Theorem ScanMultiple_no_input_is_started_after_cancellation :
  forall (Stream : Type) (sender_of : grpc.chunkSender Stream) (c : grpc.Client)
         (files : list clamav.FileInput) (s s' : grpc.Session Stream),
    grpc.ctx_done s = true ->
    grpc.steps c files s s' ->
    grpc.ctx_done s' = true
    /\ (forall k i, grpc.sender s' = grpc.Chunking k i ->
          exists i0, grpc.sender s = grpc.Chunking k i0)
    /\ ((forall k i, grpc.sender s <> grpc.Chunking k i) ->
        grpc.stream s' = grpc.stream s)
    /\ (grpc.panicked s' = false ->
        (forall k r,
            grpc.sender s' = grpc.SendFile k \/ grpc.sender s' = grpc.SendResult k r ->
            grpc.step c files s' (grpc.sender_returns s'))
        /\ (forall r again, grpc.receiver s' = grpc.RecvResult r again ->
              grpc.step c files s' (grpc.receiver_returns s' (grpc.incoming s')))).
Proof.
  intros Stream sender_of c files s s' Hd Run.
  destruct (steps_after_cancel c files s s' Run Hd) as (D & In_files & Same).
  split; [exact D|]. split; [exact In_files|]. split; [exact Same|].
  intros Hp. exact (returns_after_cancel c files s' D Hp).
Qed.

Lemma ScanMultiple_no_input_is_started_after_cancellation_witness :
  let c := grpc.mkClient grpc.defaultTimeout grpc.defaultChunkSize
             grpc.defaultMaxMessageSize in
  let file := clamav.mkFileInput [Byte.x61] "a.txt" in
  let s := grpc.start (mkContext None (Some Canceled)) [file] (grpc.reliable [] 0) [] in
  grpc.ctx_done (grpc.sender_returns s) = true
  /\ grpc.stream (grpc.sender_returns s) = grpc.reliable [] 0.
Proof.
  intros c file s.
  assert (Run : grpc.steps c [file] s (grpc.sender_returns s)).
  { eapply grpc.steps_cons; [| apply grpc.steps_refl].
    eapply grpc.sender_abort with (k := 0%nat); try reflexivity. simpl. lia. }
  destruct (ScanMultiple_no_input_is_started_after_cancellation
              grpc.Recorder grpc.Recorder_chunkSender c [file] s
              (grpc.sender_returns s) eq_refl Run) as (D & _ & Same & _).
  split; [exact D|]. apply Same. intros k i E. discriminate E.
Defined.

(** X20: the channel of ScanMultiple is large enough that sendResult never
    waits for the caller.  When the stream returns at most one value per
    input and one more (the end of the stream), then at every point of
    every execution a goroutine that is inside sendResult finds room in
    the channel, however few results the caller has taken. *)
Theorem ScanMultiple_sendResult_finds_room :
  forall (Stream : Type) (sender_of : grpc.chunkSender Stream) (c : grpc.Client)
         (ctx : Context) (files : list clamav.FileInput) (stream : Stream)
         (incoming : list (result grpc.ScanResponse)) (s : grpc.Session Stream),
    (List.length incoming <= S (List.length files))%nat ->
    Z.of_nat (List.length files) <= maxAlloc ->
    grpc.steps c files (grpc.start ctx files stream incoming) s ->
    (forall k r, grpc.sender s = grpc.SendResult k r -> grpc.has_room s)
    /\ (forall r again, grpc.receiver s = grpc.RecvResult r again -> grpc.has_room s).
Proof.
  intros Stream sender_of c ctx files stream incoming s Hin Hn Run.
  pose proof (steps_inv c files _ _ _ (start_inv files ctx stream incoming) Run) as Inv.
  apply (room_for_pending files _ s Inv).
  rewrite (grpc.inv_capacity files _ s Inv), (bufSize_small files Hn). lia.
Qed.

Lemma ScanMultiple_sendResult_finds_room_witness :
  let c := grpc.mkClient grpc.defaultTimeout grpc.defaultChunkSize
             grpc.defaultMaxMessageSize in
  let file := clamav.mkFileInput [Byte.x61] "a.txt" in
  let stream := grpc.mkRecorder [] 0 (fun _ => Some EOF) in
  let failure := clamav.as_error (clamav.NewConnectionError "gRPC error" (Some EOF)) in
  grpc.has_room
    (grpc.set_sender (grpc.start (mkContext None None) [file] stream [Err EOF])
       (grpc.mkRecorder [] 1 (fun _ => Some EOF))
       (grpc.SendResult 0 (grpc.sender_error failure file))).
Proof.
  intros c file stream failure.
  assert (Run : grpc.steps c [file]
                  (grpc.start (mkContext None None) [file] stream [Err EOF])
                  (grpc.set_sender
                     (grpc.start (mkContext None None) [file] stream [Err EOF])
                     (grpc.mkRecorder [] 1 (fun _ => Some EOF))
                     (grpc.SendResult 0 (grpc.sender_error failure file)))).
  { eapply grpc.steps_cons.
    { eapply grpc.sender_enter with (k := 0%nat); reflexivity. }
    eapply grpc.steps_cons.
    { eapply grpc.sender_failed with (k := 0%nat); reflexivity. }
    apply grpc.steps_refl. }
  destruct (ScanMultiple_sendResult_finds_room
              grpc.Recorder grpc.Recorder_chunkSender c (mkContext None None)
              [file] stream [Err EOF] _ ltac:(simpl; lia) ltac:(vm_compute; discriminate) Run)
    as [Room _].
  exact (Room 0%nat _ eq_refl).
Defined.

(** X21: the sender of ScanMultiple can send on the closed channel.  When
    chunking the first input fails while the stream's Recv reports its end,
    there is an execution from the state ScanMultiple returns in which the
    receiver returns -- its deferred calls cancel the context and close the
    channel -- while the sender is inside sendResult with the Error result
    for that input; the select there can then take the send -- a send on
    a closed channel is a case that can proceed -- which panics.  The Error
    result is never delivered. *)
Theorem ScanMultiple_sender_can_meet_closed_channel :
  forall (Stream : Type) (sender_of : grpc.chunkSender Stream) (c : grpc.Client)
         (ctx : Context) (file : clamav.FileInput) (others : list clamav.FileInput)
         (stream stream' : Stream) (fuel : nat) (err e : error)
         (later : list (result grpc.ScanResponse)),
    Done ctx = None ->
    grpc.sendChunks fuel c stream (clamav.Data file) (clamav.fi_Filename file)
    = Some (Return (Some err), stream') ->
    is_EOF e = true ->
    exists s : grpc.Session Stream,
      grpc.steps c (file :: others)
        (grpc.start ctx (file :: others) stream (Err e :: later)) s
      /\ grpc.sender s = grpc.SendResult 0 (grpc.sender_error err file)
      /\ grpc.closed s = true
      /\ grpc.results s = []
      /\ grpc.panicked s = true.
Proof.
  intros Stream sender_of c ctx file others stream stream' fuel err e later Hctx Hsend He.
  set (s0 := grpc.start ctx (file :: others) stream (Err e :: later)).
  set (s1 := grpc.set_sender s0 stream (grpc.Chunking 0 0)).
  assert (Enter : grpc.step c (file :: others) s0 s1).
  { eapply grpc.sender_enter with (k := 0%nat) (file := file); try reflexivity.
    simpl. rewrite Hctx. reflexivity. }
  destruct (sendChunks_run c (file :: others) fuel s1 0%nat file _ _
              eq_refl eq_refl eq_refl Hsend) as (s2 & Chunks & A).
  simpl in A. subst s2.
  eexists. split.
  - eapply grpc.steps_cons; [exact Enter|].
    eapply steps_trans; [exact Chunks|].
    eapply grpc.steps_cons.
    { eapply grpc.recv_eof; try reflexivity. exact He. }
    eapply grpc.steps_cons.
    { eapply grpc.recv_cancel; reflexivity. }
    eapply grpc.steps_cons.
    { eapply grpc.recv_close; reflexivity. }
    eapply grpc.steps_cons; [| apply grpc.steps_refl].
    eapply grpc.sender_push_closed; reflexivity.
  - repeat split.
Qed.

Lemma ScanMultiple_sender_can_meet_closed_channel_witness :
  let c := grpc.mkClient grpc.defaultTimeout grpc.defaultChunkSize
             grpc.defaultMaxMessageSize in
  let file := clamav.mkFileInput [Byte.x61] "a.txt" in
  let stream := grpc.mkRecorder [] 0 (fun _ => Some EOF) in
  exists s : grpc.Session grpc.Recorder,
    grpc.steps c [file] (grpc.start (mkContext None None) [file] stream [Err EOF]) s
    /\ grpc.panicked s = true.
Proof.
  intros c file stream.
  destruct (ScanMultiple_sender_can_meet_closed_channel
              grpc.Recorder grpc.Recorder_chunkSender c (mkContext None None) file []
              stream (grpc.mkRecorder [] 1 (fun _ => Some EOF)) 1%nat
              (clamav.as_error (clamav.NewConnectionError "gRPC error" (Some EOF)))
              EOF [] eq_refl eq_refl eq_refl)
    as (s & Run & _ & _ & _ & P).
  exists s. split; [exact Run | exact P].
Defined.
